(** * Session validation, environment parsing and HTTP server wiring

    A shallow embedding of
    - [src/server/session/core/schemas.ts] (session configuration and
      session identifier validation),
    - the framework environment schema ([frameworkEnvSchema],
      [parseFrameworkEnv]),
    - the HTTP server wiring ([createExpressApp], [startHttpServer] and its
      [shutdown] handler),
    together with the properties the specification states about them.

    The schemas are written with Zod 3 ([required_error] /
    [invalid_type_error] are Zod 3 options).  The part of Zod the schemas use
    is modelled below as parsers returning Zod's parse status together with
    the issues recorded in the parse context. *)

From Stdlib Require Import ZArith QArith List String Ascii Bool Lia.
Import ListNotations.
Local Open Scope Z_scope.
Local Open Scope string_scope.
Local Open Scope list_scope.
Set Warnings "-register-all".

(* ====================================================================== *)
(** * JavaScript values *)
(* ====================================================================== *)

(** A JavaScript number.  The finite doubles are rationals; the schemas only
    compare numbers with one another and test [Number.isInteger], and both
    agree with the rational value of a double, so a finite number is
    represented by its value in [Q]. *)
Inductive JsNumber : Type :=
| NaN
| PosInfinity
| NegInfinity
| Finite (q : Q).

Definition of_Z (z : Z) : JsNumber := Finite (inject_Z z).

(** [Number.isInteger]. *)
Definition isInteger (n : JsNumber) : bool :=
  match n with
  | Finite q => (Qnum q mod Z.pos (Qden q) =? 0)%Z
  | _ => false
  end.

(** The JavaScript comparison [a < b] on numbers. *)
Definition js_lt (a b : JsNumber) : bool :=
  match a, b with
  | NaN, _ | _, NaN => false
  | PosInfinity, _ => false
  | _, NegInfinity => false
  | NegInfinity, _ => true
  | _, PosInfinity => true
  | Finite q, Finite r =>
      (Qnum q * Z.pos (Qden r) <? Qnum r * Z.pos (Qden q))%Z
  end.

(** The JavaScript comparison [a <= b] on numbers. *)
Definition js_le (a b : JsNumber) : bool :=
  match a, b with
  | NaN, _ | _, NaN => false
  | NegInfinity, _ => true
  | _, PosInfinity => true
  | PosInfinity, _ => false
  | _, NegInfinity => false
  | Finite q, Finite r =>
      (Qnum q * Z.pos (Qden r) <=? Qnum r * Z.pos (Qden q))%Z
  end.

Definition js_gt (a b : JsNumber) : bool := js_lt b a.

(** A JavaScript value as a validator can receive it ([unknown]).  A string
    is a sequence of UTF-16 code units, one [ascii] standing for one code
    unit, so that [String.length] is the JavaScript [length].  An object is
    the ordered list of its own enumerable string-keyed properties; a lookup
    takes the first entry of a key.  [JsOther] stands for the remaining
    kinds of value (bigint, symbol, function, Date, Map, Set, Promise). *)
Inductive JsValue : Type :=
| JsUndefined
| JsNull
| JsBoolean (b : bool)
| JsNum (n : JsNumber)
| JsString (s : string)
| JsArray (items : list JsValue)
| JsObject (props : list (string * JsValue))
| JsOther.

Fixpoint lookup {A : Type} (key : string) (props : list (string * A)) : option A :=
  match props with
  | [] => None
  | (k, v) :: rest => if String.eqb k key then Some v else lookup key rest
  end.

(** [data[key]]: an absent property reads as [undefined]. *)
Definition get_prop (key : string) (props : list (string * JsValue)) : JsValue :=
  match lookup key props with
  | Some v => v
  | None => JsUndefined
  end.

Definition is_undefined (v : JsValue) : bool :=
  match v with
  | JsUndefined => true
  | _ => false
  end.

Fixpoint mem_string (k : string) (l : list string) : bool :=
  match l with
  | [] => false
  | x :: rest => String.eqb x k || mem_string k rest
  end.

(* ====================================================================== *)
(** * The Zod 3 parsers the schemas are built from *)
(* ====================================================================== *)

Inductive ZodIssueCode : Type :=
| invalid_type
| too_small
| too_big
| unrecognized_keys
| invalid_enum_value
| invalid_union
| invalid_string
| custom.

(** The message of an issue: either the text the schema supplies, or the
    text Zod's default error map produces (not spelled out here). *)
Inductive IssueMessage : Type :=
| Supplied (text : string)
| ErrorMapDefault.

Record ZodIssue : Type := mkIssue {
  issue_code : ZodIssueCode;
  issue_path : list string;
  issue_message : IssueMessage
}.

(** Zod's [SyncParseReturnType]: [OK] is status "valid", [DIRTY] is status
    "dirty" (a value with recorded issues), [INVALID] is status "aborted". *)
Inductive ParseReturn (A : Type) : Type :=
| OK (value : A)
| DIRTY (value : A)
| INVALID.
Arguments OK {A} value.
Arguments DIRTY {A} value.
Arguments INVALID {A}.

(** A parse returns its status and the issues it added to the context. *)
Definition Parse (A : Type) : Type := (ParseReturn A * list ZodIssue)%type.

(** A schema parses an input found at a path. *)
Definition Schema (A : Type) : Type := list string -> JsValue -> Parse A.

Definition settle {A : Type} (value : A) (issues : list ZodIssue) : Parse A :=
  match issues with
  | [] => (OK value, [])
  | _ => (DIRTY value, issues)
  end.

(** The error map built from [required_error] and [invalid_type_error]. *)
Definition type_error_message (required_error invalid_type_error : string)
  (input : JsValue) : IssueMessage :=
  if is_undefined input then Supplied required_error
  else Supplied invalid_type_error.

(** [z.number({required_error, invalid_type_error}).int(m).min(lo, mlo).max(hi, mhi)]:
    a value that is not a number, or is [NaN], aborts; the three checks run
    in the order they were added, each recording its own issue. *)
Definition ZodNumber_int_min_max
  (required_error invalid_type_error : string)
  (int_message : string)
  (lo : JsNumber) (min_message : string)
  (hi : JsNumber) (max_message : string) : Schema JsNumber :=
  fun path input =>
    match input with
    | JsNum NaN =>
        (INVALID, [mkIssue invalid_type path (Supplied invalid_type_error)])
    | JsNum n =>
        settle n
          ((if isInteger n then []
            else [mkIssue invalid_type path (Supplied int_message)]) ++
           (if js_lt n lo then [mkIssue too_small path (Supplied min_message)]
            else []) ++
           (if js_gt n hi then [mkIssue too_big path (Supplied max_message)]
            else []))
    | _ =>
        (INVALID,
         [mkIssue invalid_type path
            (type_error_message required_error invalid_type_error input)])
    end.

(** [schema.default(d)]: [undefined] is replaced by the default before the
    inner schema parses it. *)
Definition ZodDefault {A : Type} (inner : Schema A) (d : JsValue) : Schema A :=
  fun path input =>
    inner path (if is_undefined input then d else input).

(** [schema.optional()]: [undefined] is accepted as it is, and the inner
    schema (its default included) is not consulted. *)
Definition ZodOptional {A : Type} (inner : Schema A) : Schema (option A) :=
  fun path input =>
    if is_undefined input then (OK None, [])
    else
      match inner path input with
      | (OK v, issues) => (OK (Some v), issues)
      | (DIRTY v, issues) => (DIRTY (Some v), issues)
      | (INVALID, issues) => (INVALID, issues)
      end.

(** [schema.optional()] on a schema that is optional already: [undefined] is
    accepted as it is, any other input goes to the inner schema, whose
    output is a value or [undefined] as before. *)
Definition ZodOptional_again {A : Type} (inner : Schema (option A))
  : Schema (option A) :=
  fun path input =>
    if is_undefined input then (OK None, []) else inner path input.

(** [schema.refine(check, {message, path})]: an aborted inner parse stays
    aborted; otherwise the check runs on the inner value, also when that
    value is dirty, and a failing check records a [custom] issue. *)
Definition ZodRefine {A : Type} (inner : Schema A) (check : A -> bool)
  (message : string) (sub : list string) : Schema A :=
  fun path input =>
    match inner path input with
    | (INVALID, issues) => (INVALID, issues)
    | (OK v, issues) =>
        if check v then (OK v, issues)
        else (DIRTY v, issues ++ [mkIssue custom (path ++ sub) (Supplied message)])
    | (DIRTY v, issues) =>
        if check v then (DIRTY v, issues)
        else (DIRTY v, issues ++ [mkIssue custom (path ++ sub) (Supplied message)])
    end.

(** [z.string({required_error, invalid_type_error}).min(lo, mlo).max(hi, mhi)]. *)
Definition ZodString_min_max
  (required_error invalid_type_error : string)
  (lo : nat) (min_message : string)
  (hi : nat) (max_message : string) : Schema string :=
  fun path input =>
    match input with
    | JsString s =>
        settle s
          ((if Nat.ltb (String.length s) lo
            then [mkIssue too_small path (Supplied min_message)] else []) ++
           (if Nat.ltb hi (String.length s)
            then [mkIssue too_big path (Supplied max_message)] else []))
    | _ =>
        (INVALID,
         [mkIssue invalid_type path
            (type_error_message required_error invalid_type_error input)])
    end.

(** One step of [ParseStatus.mergeObjectSync]: an aborted field aborts the
    object, a dirty one makes it dirty. *)
Definition merge {A B : Type} (acc : Parse (A -> B)) (field : Parse A) : Parse B :=
  let issues := snd acc ++ snd field in
  match fst acc, fst field with
  | INVALID, _ | _, INVALID => (INVALID, issues)
  | OK f, OK v => (OK (f v), issues)
  | OK f, DIRTY v | DIRTY f, OK v | DIRTY f, DIRTY v => (DIRTY (f v), issues)
  end.

(** [.strict()]: the keys of the input the shape does not have, if any,
    record one [unrecognized_keys] issue and make the object dirty.  The
    issue is recorded after the fields have been parsed. *)
Definition strict_check {A : Type} (extra : list string) (p : list string)
  (r : Parse A) : Parse A :=
  match extra with
  | [] => r
  | _ :: _ =>
      (match fst r with
       | OK v | DIRTY v => DIRTY v
       | INVALID => INVALID
       end,
       snd r ++ [mkIssue unrecognized_keys p ErrorMapDefault])
  end.

(** The result of [schema.safeParse]: success only with status "valid". *)
Inductive SafeParseReturn (A : Type) : Type :=
| SafeParseSuccess (data : A)
| SafeParseError (issues : list ZodIssue).
Arguments SafeParseSuccess {A} data.
Arguments SafeParseError {A} issues.

Definition safeParse {A : Type} (schema : Schema A) (input : JsValue)
  : SafeParseReturn A :=
  match schema [] input with
  | (OK v, _) => SafeParseSuccess v
  | (_, issues) => SafeParseError issues
  end.

(** A call that returns or throws; what is thrown here is a [ZodError]
    carrying the issues. *)
Inductive Thrown (A : Type) : Type :=
| Returns (value : A)
| ThrowsZodError (issues : list ZodIssue).
Arguments Returns {A} value.
Arguments ThrowsZodError {A} issues.

Definition parse {A : Type} (schema : Schema A) (input : JsValue) : Thrown A :=
  match safeParse schema input with
  | SafeParseSuccess v => Returns v
  | SafeParseError issues => ThrowsZodError issues
  end.

Definition success {A : Type} (r : SafeParseReturn A) : bool :=
  match r with
  | SafeParseSuccess _ => true
  | SafeParseError _ => false
  end.

(* ====================================================================== *)
(** * schemas.ts: schema constants *)
(* ====================================================================== *)

(** [SESSION_CONFIG_LIMITS]. *)
Definition MIN_TIMEOUT_MS : Z := 60000.
Definition MAX_TIMEOUT_MS : Z := 5 * 365 * 24 * 60 * 60 * 1000.
Definition MIN_CLEANUP_INTERVAL_MS : Z := 10000.
Definition MAX_CLEANUP_INTERVAL_MS : Z := 60 * 60 * 1000.
Definition MIN_KEEP_ALIVE_INTERVAL_MS : Z := 5000.
Definition MAX_KEEP_ALIVE_INTERVAL_MS : Z := 5 * 60 * 1000.
Definition MIN_MISSED_HEARTBEATS : Z := 1.
Definition MAX_MISSED_HEARTBEATS : Z := 100.
Definition MIN_SESSION_COUNT : Z := 1.
Definition MAX_SESSION_COUNT : Z := 10000.

(** [SESSION_VALIDATION_MESSAGES], the template literals written out. *)
Definition TIMEOUT_MIN := "Session timeout must be at least 60000ms (1 minute)".
Definition TIMEOUT_MAX := "Session timeout must be at most 157680000000ms (5 years)".
Definition TIMEOUT_TYPE := "Session timeout must be a positive integer".
Definition CLEANUP_MIN := "Cleanup interval must be at least 10000ms (10 seconds)".
Definition CLEANUP_MAX := "Cleanup interval must be at most 3600000ms (1 hour)".
Definition CLEANUP_TYPE := "Cleanup interval must be a positive integer".
Definition KEEP_ALIVE_MIN := "Keep-alive interval must be at least 5000ms (5 seconds)".
Definition KEEP_ALIVE_MAX := "Keep-alive interval must be at most 300000ms (5 minutes)".
Definition KEEP_ALIVE_TYPE := "Keep-alive interval must be a positive integer".
Definition HEARTBEATS_MIN := "Max missed heartbeats must be at least 1".
Definition HEARTBEATS_MAX := "Max missed heartbeats must be at most 100".
Definition HEARTBEATS_TYPE := "Max missed heartbeats must be a positive integer".
Definition MAX_COUNT_MIN := "Max session count must be at least 1".
Definition MAX_COUNT_MAX := "Max session count must be at most 10000".
Definition MAX_COUNT_TYPE := "Max session count must be a positive integer".

(** The constants [schemas.ts] imports from [./constants.js].  That module
    lies outside this development, so the five defaults are taken as
    parameters of everything below. *)
Record SessionDefaults : Type := {
  DEFAULT_SESSION_TIMEOUT_MS : Z;
  DEFAULT_SESSION_CLEANUP_INTERVAL_MS : Z;
  DEFAULT_SESSION_KEEP_ALIVE_INTERVAL_MS : Z;
  DEFAULT_SESSION_MAX_MISSED_HEARTBEATS : Z;
  DEFAULT_SESSION_MAX_COUNT : Z
}.

(** The validated configuration ([ValidatedSessionConfig]): every field is
    [number | undefined]. *)
Record SessionConfig : Type := {
  timeoutMs : option JsNumber;
  cleanupIntervalMs : option JsNumber;
  keepAliveIntervalMs : option JsNumber;
  maxMissedHeartbeats : option JsNumber;
  maxCount : option JsNumber
}.

(** [ValidationErrorDetail]. *)
Record ValidationErrorDetail : Type := {
  path : list string;
  message : IssueMessage;
  code : ZodIssueCode
}.

(** [ValidationResult<T>]. *)
Inductive ValidationResult (T : Type) : Type :=
| ValidationSuccess (data : T)
| ValidationFailure (errors : list ValidationErrorDetail).
Arguments ValidationSuccess {T} data.
Arguments ValidationFailure {T} errors.

(** The [a ?? b] of the refinements on an optional number. *)
Definition nullish (a : option JsNumber) (b : JsNumber) : JsNumber :=
  match a with
  | Some n => n
  | None => b
  end.

(* ====================================================================== *)
(** * schemas.ts: the Zod schemas *)
(* ====================================================================== *)

Section Schemas.

Variable D : SessionDefaults.

Local Notation "acc <*> field" := (merge acc field) (at level 61, left associativity).

Definition SessionTimeoutSchema : Schema JsNumber :=
  ZodDefault
    (ZodNumber_int_min_max "Session timeout is required" TIMEOUT_TYPE
       TIMEOUT_TYPE
       (of_Z MIN_TIMEOUT_MS) TIMEOUT_MIN
       (of_Z MAX_TIMEOUT_MS) TIMEOUT_MAX)
    (JsNum (of_Z (DEFAULT_SESSION_TIMEOUT_MS D))).

Definition SessionCleanupIntervalSchema : Schema JsNumber :=
  ZodDefault
    (ZodNumber_int_min_max "Cleanup interval is required" CLEANUP_TYPE
       CLEANUP_TYPE
       (of_Z MIN_CLEANUP_INTERVAL_MS) CLEANUP_MIN
       (of_Z MAX_CLEANUP_INTERVAL_MS) CLEANUP_MAX)
    (JsNum (of_Z (DEFAULT_SESSION_CLEANUP_INTERVAL_MS D))).

Definition SessionKeepAliveIntervalSchema : Schema JsNumber :=
  ZodDefault
    (ZodNumber_int_min_max "Keep-alive interval is required" KEEP_ALIVE_TYPE
       KEEP_ALIVE_TYPE
       (of_Z MIN_KEEP_ALIVE_INTERVAL_MS) KEEP_ALIVE_MIN
       (of_Z MAX_KEEP_ALIVE_INTERVAL_MS) KEEP_ALIVE_MAX)
    (JsNum (of_Z (DEFAULT_SESSION_KEEP_ALIVE_INTERVAL_MS D))).

Definition SessionMaxMissedHeartbeatsSchema : Schema JsNumber :=
  ZodDefault
    (ZodNumber_int_min_max "Max missed heartbeats is required" HEARTBEATS_TYPE
       HEARTBEATS_TYPE
       (of_Z MIN_MISSED_HEARTBEATS) HEARTBEATS_MIN
       (of_Z MAX_MISSED_HEARTBEATS) HEARTBEATS_MAX)
    (JsNum (of_Z (DEFAULT_SESSION_MAX_MISSED_HEARTBEATS D))).

Definition SessionMaxCountSchema : Schema JsNumber :=
  ZodDefault
    (ZodNumber_int_min_max "Max session count is required" MAX_COUNT_TYPE
       MAX_COUNT_TYPE
       (of_Z MIN_SESSION_COUNT) MAX_COUNT_MIN
       (of_Z MAX_SESSION_COUNT) MAX_COUNT_MAX)
    (JsNum (of_Z (DEFAULT_SESSION_MAX_COUNT D))).

(** The keys of the shape of [SessionConfigBaseSchema], in source order. *)
Definition shapeKeys : list string :=
  ["timeoutMs"; "cleanupIntervalMs"; "keepAliveIntervalMs";
   "maxMissedHeartbeats"; "maxCount"].

(** The keys of the input that the shape does not have. *)
Definition extraKeys (props : list (string * JsValue)) : list string :=
  filter (fun k => negb (mem_string k shapeKeys)) (map fst props).

(** [z.object({...}).strict()]: a non-object aborts; every field is parsed
    (each one is [.optional()]), an aborted field aborts the object and a
    dirty one makes it dirty; with [.strict()] any extra key records an
    [unrecognized_keys] issue. *)
Definition SessionConfigBaseSchema : Schema SessionConfig :=
  fun p input =>
    match input with
    | JsObject props =>
        let field (name : string) (schema : Schema JsNumber) :=
          ZodOptional schema (p ++ [name]) (get_prop name props) in
        strict_check (extraKeys props) p
          ((OK Build_SessionConfig, [])
           <*> field "timeoutMs" SessionTimeoutSchema
           <*> field "cleanupIntervalMs" SessionCleanupIntervalSchema
           <*> field "keepAliveIntervalMs" SessionKeepAliveIntervalSchema
           <*> field "maxMissedHeartbeats" SessionMaxMissedHeartbeatsSchema
           <*> field "maxCount" SessionMaxCountSchema)
    | _ => (INVALID, [mkIssue invalid_type p ErrorMapDefault])
    end.

(** The first refinement: keep-alive interval less than the timeout. *)
Definition keepAlive_lt_timeout (config : SessionConfig) : bool :=
  let timeout := nullish (timeoutMs config) (of_Z (DEFAULT_SESSION_TIMEOUT_MS D)) in
  let keepAlive := nullish (keepAliveIntervalMs config)
                     (of_Z (DEFAULT_SESSION_KEEP_ALIVE_INTERVAL_MS D)) in
  js_lt keepAlive timeout.

(** The second refinement: cleanup interval at most the timeout. *)
Definition cleanup_le_timeout (config : SessionConfig) : bool :=
  let timeout := nullish (timeoutMs config) (of_Z (DEFAULT_SESSION_TIMEOUT_MS D)) in
  let cleanup := nullish (cleanupIntervalMs config)
                   (of_Z (DEFAULT_SESSION_CLEANUP_INTERVAL_MS D)) in
  js_le cleanup timeout.

Definition applySessionConfigRefinements (schema : Schema SessionConfig)
  : Schema SessionConfig :=
  ZodRefine
    (ZodRefine schema keepAlive_lt_timeout
       "Keep-alive interval must be less than session timeout"
       ["keepAliveIntervalMs"])
    cleanup_le_timeout
    "Cleanup interval should not exceed session timeout"
    ["cleanupIntervalMs"].

Definition SessionConfigSchema : Schema SessionConfig :=
  applySessionConfigRefinements SessionConfigBaseSchema.

Definition SessionIdSchema : Schema string :=
  ZodString_min_max "Session ID is required" "Session ID must be a string"
    1 "Session ID cannot be empty"
    256 "Session ID is too long (max 256 characters)".

(* ---------------------------------------------------------------------- *)
(** ** Validation functions *)

Definition to_detail (issue : ZodIssue) : ValidationErrorDetail :=
  {| path := issue_path issue;
     message := issue_message issue;
     code := issue_code issue |}.

Definition parseSessionConfig (config : JsValue) : Thrown SessionConfig :=
  parse SessionConfigSchema config.

Definition validateSessionConfigSafe (config : JsValue)
  : ValidationResult SessionConfig :=
  match safeParse SessionConfigSchema config with
  | SafeParseSuccess data => ValidationSuccess data
  | SafeParseError issues => ValidationFailure (map to_detail issues)
  end.

Definition parseSessionId (sessionId : JsValue) : Thrown string :=
  parse SessionIdSchema sessionId.

Definition validateSessionIdSafe (sessionId : JsValue) : ValidationResult string :=
  match safeParse SessionIdSchema sessionId with
  | SafeParseSuccess data => ValidationSuccess data
  | SafeParseError issues => ValidationFailure (map to_detail issues)
  end.

(* ---------------------------------------------------------------------- *)
(** ** Helper functions *)

Definition isValidTimeout (value : JsValue) : bool :=
  success (safeParse SessionTimeoutSchema value).

Definition isValidCleanupInterval (value : JsValue) : bool :=
  success (safeParse SessionCleanupIntervalSchema value).

Definition isValidKeepAliveInterval (value : JsValue) : bool :=
  success (safeParse SessionKeepAliveIntervalSchema value).

Definition isValidMaxMissedHeartbeats (value : JsValue) : bool :=
  success (safeParse SessionMaxMissedHeartbeatsSchema value).

Definition isValidMaxCount (value : JsValue) : bool :=
  success (safeParse SessionMaxCountSchema value).

Definition isValidSessionId (value : JsValue) : bool :=
  success (safeParse SessionIdSchema value).

(* ---------------------------------------------------------------------- *)
(** ** The partial schema *)

(** [SessionConfigBaseSchema.partial()]: the same object schema, [.strict()]
    included, with [.optional()] applied once more to every field. *)
Definition SessionConfigBaseSchema_partial : Schema SessionConfig :=
  fun p input =>
    match input with
    | JsObject props =>
        let field (name : string) (schema : Schema JsNumber) :=
          ZodOptional_again (ZodOptional schema) (p ++ [name])
            (get_prop name props) in
        strict_check (extraKeys props) p
          ((OK Build_SessionConfig, [])
           <*> field "timeoutMs" SessionTimeoutSchema
           <*> field "cleanupIntervalMs" SessionCleanupIntervalSchema
           <*> field "keepAliveIntervalMs" SessionKeepAliveIntervalSchema
           <*> field "maxMissedHeartbeats" SessionMaxMissedHeartbeatsSchema
           <*> field "maxCount" SessionMaxCountSchema)
    | _ => (INVALID, [mkIssue invalid_type p ErrorMapDefault])
    end.

Definition PartialSessionConfigSchema : Schema SessionConfig :=
  applySessionConfigRefinements SessionConfigBaseSchema_partial.

Definition parsePartialSessionConfig (config : JsValue) : Thrown SessionConfig :=
  parse PartialSessionConfigSchema config.

Definition validatePartialSessionConfigSafe (config : JsValue)
  : ValidationResult SessionConfig :=
  match safeParse PartialSessionConfigSchema config with
  | SafeParseSuccess data => ValidationSuccess data
  | SafeParseError issues => ValidationFailure (map to_detail issues)
  end.

End Schemas.

(* ---------------------------------------------------------------------- *)
(** ** Formatting validation errors *)

(** [Array.prototype.join] on strings. *)
Fixpoint join (separator : string) (items : list string) : string :=
  match items with
  | [] => ""
  | [x] => x
  | x :: rest => (x ++ separator ++ join separator rest)%string
  end.

Section Formatting.

(** The text Zod's default error map gives an issue that has no supplied
    message; it is not spelled out here. *)
Variable default_text : ValidationErrorDetail -> string.

Definition message_text (e : ValidationErrorDetail) : string :=
  match message e with
  | Supplied text => text
  | ErrorMapDefault => default_text e
  end.

(** One error of [formatValidationErrors]: the dotted path and a colon in
    front of the message, or the message alone at the root. *)
Definition format_error (e : ValidationErrorDetail) : string :=
  if Nat.ltb 0 (List.length (path e))
  then (join "." (path e) ++ ": " ++ message_text e)%string
  else message_text e.

Definition formatValidationErrors (errors : list ValidationErrorDetail) : string :=
  join "; " (map format_error errors).

End Formatting.

Definition is_success {T : Type} (r : ValidationResult T) : bool :=
  match r with
  | ValidationSuccess _ => true
  | ValidationFailure _ => false
  end.

Definition errors_of {T : Type} (r : ValidationResult T) : list ValidationErrorDetail :=
  match r with
  | ValidationSuccess _ => []
  | ValidationFailure errors => errors
  end.

Definition returns {A : Type} (r : Thrown A) : bool :=
  match r with
  | Returns _ => true
  | ThrowsZodError _ => false
  end.

(** Modelled from the spec: the constant [DEFAULT_SESSION_TIMEOUT_MS] of
    [constants.ts], a module outside this development; the spec's
    configuration table gives 1,800,000 as the default of [timeoutMs]. *)
Definition spec_DEFAULT_SESSION_TIMEOUT_MS : Z := 1800000.

(** A choice of the defaults, in bounds, for the examples. *)
Definition sample_defaults : SessionDefaults :=
  {| DEFAULT_SESSION_TIMEOUT_MS := spec_DEFAULT_SESSION_TIMEOUT_MS;
     DEFAULT_SESSION_CLEANUP_INTERVAL_MS := 60000;
     DEFAULT_SESSION_KEEP_ALIVE_INTERVAL_MS := 30000;
     DEFAULT_SESSION_MAX_MISSED_HEARTBEATS := 3;
     DEFAULT_SESSION_MAX_COUNT := 100 |}.

(* ====================================================================== *)
(** * Framework environment configuration *)
(* ====================================================================== *)

(** [process.env]: variable names to strings. *)
Definition ProcessEnv : Type := list (string * string).

Definition env_get (name : string) (env : ProcessEnv) : JsValue :=
  match lookup name env with
  | Some s => JsString s
  | None => JsUndefined
  end.

(** The platform functions the environment module calls and that are not
    spelled out here, and what the module finds when it is loaded.
    [Number] and [parseInt] are modelled below on plain decimal numerals and
    left to the runtime elsewhere. *)
Record JsRuntime : Type := {
  (** [Number(s)] for a string that is not a short decimal numeral *)
  StringToNumber_other : string -> JsNumber;
  (** [Number(v)] for an array, an object or another kind of value *)
  ToNumber_other : JsValue -> JsNumber;
  (** [parseInt(s, 10)] for a string that is not a short decimal numeral *)
  parseInt_other : string -> JsNumber;
  (** [s.toLowerCase()] *)
  toLowerCase : string -> string;
  (** [s.split(',').map(trim).filter(nonempty)] *)
  comma_separated : string -> list string;
  (** whether [new URL(s)] succeeds, the test of [z.string().url()] *)
  is_url : string -> bool;
  (** [s.trim()] *)
  trim : string -> string;
  (** [readFileSync(VERSION_FILE_PATH, 'utf-8')] when the module is loaded:
      the content of the file, or nothing when the read throws *)
  VERSION_file : option string;
  (** [process.env] when the module is loaded *)
  env_at_load : ProcessEnv
}.

(** [resolveVersion]: the baked-in file when it can be read, else
    [process.env.npm_package_version ?? 'unknown']. *)
Definition resolveVersion (rt : JsRuntime) : string :=
  match VERSION_file rt with
  | Some content => trim rt content
  | None =>
      match lookup "npm_package_version" (env_at_load rt) with
      | Some version => version
      | None => "unknown"
      end
  end.

(** [const VERSION = resolveVersion()]: resolved once, at module load. *)
Definition VERSION (rt : JsRuntime) : string := resolveVersion rt.

Definition is_digit (c : ascii) : bool :=
  let n := N_of_ascii c in (48 <=? n)%N && (n <=? 57)%N.

Fixpoint all_digits (s : string) : bool :=
  match s with
  | EmptyString => true
  | String c rest => is_digit c && all_digits rest
  end.

Fixpoint digits_value (acc : Z) (s : string) : Z :=
  match s with
  | EmptyString => acc
  | String c rest => digits_value (10 * acc + (Z.of_N (N_of_ascii c) - 48)) rest
  end.

(** A decimal numeral of 1 to 15 digits: its value is below [2^53], so the
    double it denotes is that integer exactly. *)
Definition short_numeral (s : string) : bool :=
  all_digits s && Nat.leb 1 (String.length s) && Nat.leb (String.length s) 15.

Section Env.

Variable rt : JsRuntime.

(** [Number(s)] on a string. *)
Definition StringToNumber (s : string) : JsNumber :=
  if short_numeral s then of_Z (digits_value 0 s)
  else StringToNumber_other rt s.

(** [Number(v)], the coercion of [z.coerce.number()]. *)
Definition ToNumber (v : JsValue) : JsNumber :=
  match v with
  | JsNum n => n
  | JsString s => StringToNumber s
  | JsUndefined => NaN
  | JsNull => of_Z 0
  | JsBoolean b => if b then of_Z 1 else of_Z 0
  | _ => ToNumber_other rt v
  end.

(** [parseInt(s, 10)]. *)
Definition parseInt10 (s : string) : JsNumber :=
  if short_numeral s then of_Z (digits_value 0 s)
  else parseInt_other rt s.

Definition isNaN (n : JsNumber) : bool :=
  match n with
  | NaN => true
  | _ => false
  end.

(** [z.coerce.number().min(lo)]: the input is coerced with [Number], [NaN]
    aborts, a number below [lo] records [too_small].  There is no [.int()]
    and no [.max()]. *)
Definition ZodCoerceNumber_min (lo : JsNumber) : Schema JsNumber :=
  fun p input =>
    match ToNumber input with
    | NaN => (INVALID, [mkIssue invalid_type p ErrorMapDefault])
    | n =>
        settle n
          (if js_lt n lo then [mkIssue too_small p ErrorMapDefault] else [])
    end.

(** [z.string()]. *)
Definition ZodString : Schema string :=
  fun p input =>
    match input with
    | JsString s => (OK s, [])
    | _ => (INVALID, [mkIssue invalid_type p ErrorMapDefault])
    end.

(** [z.string().url()]. *)
Definition ZodString_url : Schema string :=
  fun p input =>
    match input with
    | JsString s =>
        settle s
          (if is_url rt s then [] else [mkIssue invalid_string p ErrorMapDefault])
    | _ => (INVALID, [mkIssue invalid_type p ErrorMapDefault])
    end.

(** [z.enum(values)]. *)
Definition ZodEnum (values : list string) : Schema string :=
  fun p input =>
    match input with
    | JsString s =>
        if mem_string s values then (OK s, [])
        else (INVALID, [mkIssue invalid_enum_value p ErrorMapDefault])
    | _ => (INVALID, [mkIssue invalid_type p ErrorMapDefault])
    end.

(** [z.string().transform(f)]: the transform runs on a string that parsed. *)
Definition ZodString_transform {B : Type} (f : string -> B) : Schema B :=
  fun p input =>
    match input with
    | JsString s => (OK (f s), [])
    | _ => (INVALID, [mkIssue invalid_type p ErrorMapDefault])
    end.

(** [z.boolean().or(z.string().transform(val => val.toLowerCase() === 'true'))]:
    the first option that parses without issue gives the result. *)
Definition ZodBoolean_or_flag_string : Schema bool :=
  fun p input =>
    match input with
    | JsBoolean b => (OK b, [])
    | JsString s => (OK (String.eqb (toLowerCase rt s) "true"), [])
    | _ => (INVALID, [mkIssue invalid_union p ErrorMapDefault])
    end.

(** The comma-separated list transform of the allowed origins and hosts. *)
Definition to_list_or_undefined (val : string) : option (list string) :=
  match comma_separated rt val with
  | [] => None
  | l => Some l
  end.

(** [FrameworkEnvConfig]. *)
Record FrameworkEnvConfig : Type := {
  cfg_VERSION : string;
  NODE_ENV : string;
  MCP_BIND_HOST : string;
  MCP_PORT : JsNumber;
  MCP_TRANSPORT : string;
  MCP_LEGACY_SSE_ENABLED : bool;
  MCP_ALLOWED_ORIGINS : option (option (list string));
  MCP_ALLOWED_HOSTS : option (option (list string));
  MCP_SESSION_TIMEOUT_MS : JsNumber;
  MCP_RATE_LIMIT_WINDOW_MS : JsNumber;
  MCP_RATE_LIMIT_MAX : JsNumber;
  LOG_LEVEL : string;
  LOG_FORMAT : string;
  LOG_DIR : option string;
  OTEL_ENABLED : bool;
  OTEL_SERVICE_NAME : string;
  OTEL_EXPORTER_OTLP_ENDPOINT : option string;
  OTEL_DEBUG : bool
}.

Local Notation "acc <*> field" := (merge acc field) (at level 61, left associativity).

(** The schema of the session timeout variable. *)
Definition MCP_SESSION_TIMEOUT_MS_schema : Schema JsNumber :=
  ZodDefault (ZodCoerceNumber_min (of_Z 60000)) (JsNum (of_Z (30 * 60 * 1000))).

(** The schema of the port variable. *)
Definition MCP_PORT_schema : Schema JsNumber :=
  ZodDefault
    (ZodRefine (ZodString_transform parseInt10) (fun val => negb (isNaN val))
       "Port must be a valid number" [])
    (JsString "3000").

(** [frameworkEnvSchema], a [z.object] that strips unknown keys, applied to
    [process.env]. *)
Definition frameworkEnvSchema (env : ProcessEnv) : Parse FrameworkEnvConfig :=
  let field {A : Type} (name : string) (schema : Schema A) : Parse A :=
    schema [name] (env_get name env) in
  (OK Build_FrameworkEnvConfig, [])
  <*> field "VERSION" (ZodDefault ZodString (JsString (VERSION rt)))
  <*> field "NODE_ENV"
        (ZodDefault (ZodEnum ["development"; "production"; "test"])
           (JsString "development"))
  <*> field "MCP_BIND_HOST" (ZodDefault ZodString (JsString "127.0.0.1"))
  <*> field "MCP_PORT" MCP_PORT_schema
  <*> field "MCP_TRANSPORT" (ZodDefault (ZodEnum ["stdio"; "http"]) (JsString "http"))
  <*> field "MCP_LEGACY_SSE_ENABLED"
        (ZodDefault ZodBoolean_or_flag_string (JsBoolean false))
  <*> field "MCP_ALLOWED_ORIGINS"
        (ZodOptional (ZodString_transform to_list_or_undefined))
  <*> field "MCP_ALLOWED_HOSTS"
        (ZodOptional (ZodString_transform to_list_or_undefined))
  <*> field "MCP_SESSION_TIMEOUT_MS" MCP_SESSION_TIMEOUT_MS_schema
  <*> field "MCP_RATE_LIMIT_WINDOW_MS"
        (ZodDefault (ZodCoerceNumber_min (of_Z 1000)) (JsNum (of_Z 900000)))
  <*> field "MCP_RATE_LIMIT_MAX"
        (ZodDefault (ZodCoerceNumber_min (of_Z 100)) (JsNum (of_Z 1000)))
  <*> field "LOG_LEVEL"
        (ZodDefault (ZodEnum ["trace"; "debug"; "info"; "warn"; "error"])
           (JsString "info"))
  <*> field "LOG_FORMAT" (ZodDefault (ZodEnum ["text"; "json"]) (JsString "text"))
  <*> field "LOG_DIR" (ZodOptional ZodString)
  <*> field "OTEL_ENABLED" (ZodDefault ZodBoolean_or_flag_string (JsBoolean false))
  <*> field "OTEL_SERVICE_NAME" (ZodDefault ZodString (JsString "mcp-server"))
  <*> field "OTEL_EXPORTER_OTLP_ENDPOINT" (ZodOptional ZodString_url)
  <*> field "OTEL_DEBUG" (ZodDefault ZodBoolean_or_flag_string (JsBoolean false)).

(** [parseFrameworkEnv]: [frameworkEnvSchema.parse(process.env)]. *)
Definition parseFrameworkEnv (env : ProcessEnv) : Thrown FrameworkEnvConfig :=
  match frameworkEnvSchema env with
  | (OK cfg, _) => Returns cfg
  | (_, issues) => ThrowsZodError issues
  end.

End Env.

(** A runtime for the examples; they only use what is modelled above. *)
Definition sample_runtime : JsRuntime :=
  {| StringToNumber_other := fun _ => NaN;
     ToNumber_other := fun _ => NaN;
     parseInt_other := fun _ => NaN;
     toLowerCase := fun s => s;
     comma_separated := fun _ => [];
     is_url := fun _ => true;
     trim := fun s => s;
     VERSION_file := None;
     env_at_load := [] |}.

(** A runtime for the examples whose [Number] reads every string that is
    not a short decimal numeral as [n], and whose module was loaded without
    the baked-in file and with [npm_package_version] at 1.2.3. *)
Definition sample_runtime_reading (n : JsNumber) : JsRuntime :=
  {| StringToNumber_other := fun _ => n;
     ToNumber_other := fun _ => NaN;
     parseInt_other := fun _ => NaN;
     toLowerCase := fun s => s;
     comma_separated := fun _ => [];
     is_url := fun _ => true;
     trim := fun s => s;
     VERSION_file := None;
     env_at_load := [("npm_package_version", "1.2.3")] |}.

(* ====================================================================== *)
(** * HTTP server: the Express application *)
(* ====================================================================== *)

(** An inbound request as the routing sees it. *)
Record Request : Type := {
  req_method : string;
  req_path : string;
  req_headers : list (string * string);
  req_body : JsValue
}.

(** What a middleware or router does with a request: hand it to the next
    layer, reply with a status, or keep it without replying (an open
    stream). *)
Inductive Outcome : Type :=
| Next
| Respond (status : Z)
| Hold.

Inductive Response : Type :=
| Replied (status : Z)
| Unanswered.

(** The middleware and routers [createExpressApp] mounts. *)
Inductive Middleware : Type :=
| helmet
| express_json
| HealthRouter
| SseRouter
| dnsRebindingProtection
| RateLimiter
| validateProtocolVersion
| validateAcceptHeader
| validateContentType
| validateJsonRpc
| StreamableHttpRouter.

(** [app.use(handler)] has no mount path, [app.use('/mcp', handler)] has one. *)
Record Layer : Type := {
  mount : option string;
  handle : Middleware
}.

Definition use (m : Middleware) : Layer := {| mount := None; handle := m |}.
Definition use_at (prefix : string) (m : Middleware) : Layer :=
  {| mount := Some prefix; handle := m |}.

(** The layers of [createExpressApp], in the order of its [app.use] calls.
    The legacy router is mounted whether or not legacy mode is enabled. *)
Definition app_stack : list Layer :=
  [ use helmet;
    use express_json;
    use HealthRouter;
    use SseRouter;
    use_at "/mcp" dnsRebindingProtection;
    use_at "/mcp" RateLimiter;
    use_at "/mcp" validateProtocolVersion;
    use_at "/mcp" validateAcceptHeader;
    use_at "/mcp" validateContentType;
    use_at "/mcp" validateJsonRpc;
    use_at "/mcp" StreamableHttpRouter ].

(** Which factories receive the [sessionManager] of [createExpressApp]:
    [createHealthRouter({ sessionManager })] and
    [createStreamableHttpRouter(mcpServerFactory, sessionManager)].
    [createSseRouter(mcpServerFactory)] and the filters do not. *)
Definition receives_sessionManager (m : Middleware) : bool :=
  match m with
  | HealthRouter | StreamableHttpRouter => true
  | _ => false
  end.

(** The paths of the legacy transport, as [createExpressApp] logs them. *)
Definition legacy_paths : list string := ["/mcp/message"; "/sse"; "/sse/message"].

Definition NOT_IMPLEMENTED : Z := 501.
Definition NOT_FOUND : Z := 404.

Section Express.

(** The session registry behind the [TransportSessionManager], and the rest
    of the server's state (legacy streams, rate-limit counters). *)
Variables Registry Other : Type.

(** Express's test of a mount path against a request (path-to-regexp). *)
Variable under : string -> Request -> bool.

(** The handlers, whose modules lie outside this development: those
    built without the session manager act on the rest of the state only. *)
Record Handlers : Type := {
  unmanaged : Middleware -> Request -> Other -> Outcome * Other;
  managed : Middleware -> Request -> Registry * Other -> Outcome * (Registry * Other)
}.

Variable h : Handlers.

(** The result of [isSseEnabled()]. *)
Variable sseEnabled : bool.

(** Modelled from the spec: the router [createSseRouter] returns, whose
    module is not part of the sources.  When the feature flag is disabled
    every route under its surface replies with the fixed "not implemented"
    status; a request outside its surface is left to the layers mounted
    after it.  When enabled it behaves as the legacy handler does. *)
Definition createSseRouter (req : Request) (o : Other) : Outcome * Other :=
  if sseEnabled then unmanaged h SseRouter req o
  else if mem_string (req_path req) legacy_paths then (Respond NOT_IMPLEMENTED, o)
  else (Next, o).

(** One layer handling a request. *)
Definition run (m : Middleware) (req : Request) (w : Registry * Other)
  : Outcome * (Registry * Other) :=
  if receives_sessionManager m then managed h m req w
  else
    let (out, o) :=
      match m with
      | SseRouter => createSseRouter req (snd w)
      | _ => unmanaged h m req (snd w)
      end in
    (out, (fst w, o)).

Definition layer_matches (l : Layer) (req : Request) : bool :=
  match mount l with
  | None => true
  | Some prefix => under prefix req
  end.

(** Express walks the stack in order; a layer that matches runs, and the
    walk goes on only if it calls [next].  With no layer left the final
    handler replies 404.  The result carries the layers that ran, each with
    what it did. *)
Fixpoint dispatch (stack : list Layer) (req : Request) (w : Registry * Other)
  : Response * (Registry * Other) * list (Middleware * Outcome) :=
  match stack with
  | [] => (Replied NOT_FOUND, w, [])
  | l :: rest =>
      if layer_matches l req then
        match run (handle l) req w with
        | (Next, w') =>
            let '(resp, w'', ran) := dispatch rest req w' in
            (resp, w'', (handle l, Next) :: ran)
        | (Respond status, w') => (Replied status, w', [(handle l, Respond status)])
        | (Hold, w') => (Unanswered, w', [(handle l, Hold)])
        end
      else dispatch rest req w
  end.

(** A request handled by the application of [createExpressApp]. *)
Definition app_handle (req : Request) (w : Registry * Other) :=
  dispatch app_stack req w.

End Express.

Arguments Build_Handlers {Registry Other} unmanaged managed.
Arguments unmanaged {Registry Other} h m req o.
Arguments managed {Registry Other} h m req w.

(** The security filter chain in front of the Streamable router. *)
Definition filter_chain : list Middleware :=
  [ dnsRebindingProtection; RateLimiter; validateProtocolVersion;
    validateAcceptHeader; validateContentType; validateJsonRpc ].

(* ====================================================================== *)
(** * HTTP server: startup *)
(* ====================================================================== *)

(** [HttpServerOptions]. *)
Record HttpServerOptions : Type := {
  port : option JsNumber;
  bindHost : option string
}.

(** What [startHttpServer] returns, with the address it gave [app.listen]. *)
Record StartedServer (SessionManager : Type) : Type := {
  sessionManager : SessionManager;
  app : list Layer;
  listen_port : JsNumber;
  listen_host : string
}.
Arguments sessionManager {SessionManager} s.
Arguments app {SessionManager} s.
Arguments listen_port {SessionManager} s.
Arguments listen_host {SessionManager} s.

Section Startup.

Variable rt : JsRuntime.

(** The class [TransportSessionManager] lies outside this development:
    its constructor is a parameter, which receives the options object and
    returns a session manager or throws. *)
Variable SessionManager : Type.
Variable new_TransportSessionManager : JsValue -> Thrown SessionManager.

(** [createExpressApp]: the environment is parsed first, and a [ZodError]
    thrown there leaves the function before anything is built; then the
    session manager is constructed with [{ timeoutMs:
    frameworkEnv.MCP_SESSION_TIMEOUT_MS }]. *)
Definition createExpressApp (env : ProcessEnv)
  : Thrown (list Layer * SessionManager) :=
  match parseFrameworkEnv rt env with
  | ThrowsZodError issues => ThrowsZodError issues
  | Returns frameworkEnv =>
      match new_TransportSessionManager
              (JsObject [("timeoutMs", JsNum (MCP_SESSION_TIMEOUT_MS frameworkEnv))])
      with
      | ThrowsZodError issues => ThrowsZodError issues
      | Returns manager => Returns (app_stack, manager)
      end
  end.

(** [startHttpServer] up to [app.listen]. *)
Definition startHttpServer (env : ProcessEnv) (options : HttpServerOptions)
  : Thrown (StartedServer SessionManager) :=
  match createExpressApp env with
  | ThrowsZodError issues => ThrowsZodError issues
  | Returns (stack, manager) =>
      match parseFrameworkEnv rt env with
      | ThrowsZodError issues => ThrowsZodError issues
      | Returns frameworkConfig =>
          Returns
            {| sessionManager := manager;
               app := stack;
               listen_port :=
                 match port options with
                 | Some n => n
                 | None => MCP_PORT frameworkConfig
                 end;
               listen_host :=
                 match bindHost options with
                 | Some s => s
                 | None => MCP_BIND_HOST frameworkConfig
                 end |}
      end
  end.

End Startup.

Arguments createExpressApp rt {SessionManager} new_TransportSessionManager env.
Arguments startHttpServer rt {SessionManager} new_TransportSessionManager env options.

(** Modelled from the spec: the constructor of the class
    [TransportSessionManager], whose module is not part of the sources.
    The spec has the session configuration "validated once at startup"
    against the bounds of its table, an invalid value aborting startup: the
    constructor validates the options it is given as [parseSessionConfig]
    does and throws when they are rejected.  The session manager is
    represented by its validated configuration. *)
Definition TransportSessionManager (D : SessionDefaults) (options : JsValue)
  : Thrown SessionConfig :=
  parseSessionConfig D options.

(* ====================================================================== *)
(** * HTTP server: graceful shutdown *)
(* ====================================================================== *)

(** The promises [shutdown] awaits. *)
Inductive Awaited : Type :=
| sessionManager_closeAll
| closeAllSseSessions.

(** The body of an [async] function of the shape [shutdown] has. *)
Inductive Async : Type :=
| Done
| LoggerInfo (msg : string) (k : Async)
| Await (p : Awaited) (k : Async)
| ServerClose (callback : Async) (k : Async)
| ProcessExit (exit_code : Z).

(** [if (c) { body }] in front of the rest of an [async] body. *)
Definition when (c : bool) (body : Async -> Async) (k : Async) : Async :=
  if c then body k else k.

(** [shutdown], with the value [isSseEnabled()] returns. *)
Definition shutdown (sseEnabled : bool) : Async :=
  LoggerInfo "Shutting down HTTP server..."
    (Await sessionManager_closeAll
       (when sseEnabled (Await closeAllSseSessions)
          (ServerClose
             (LoggerInfo "HTTP server closed" (ProcessExit 0))
             Done))).

Inductive Signal : Type := SIGTERM | SIGINT.

(** [process.on('SIGTERM', shutdown); process.on('SIGINT', shutdown)]. *)
Definition on_signal (sseEnabled : bool) (s : Signal) : Async :=
  match s with
  | SIGTERM => shutdown sseEnabled
  | SIGINT => shutdown sseEnabled
  end.

(** How an awaited promise ends. *)
Inductive Settlement : Type :=
| Fulfilled
| Rejected
| NeverSettles.

(** What happens around the handler: how each awaited promise settles and
    whether the listener ever finishes closing. *)
Record Surroundings : Type := {
  settles : Awaited -> Settlement;
  listener_closes : bool
}.

Inductive Event : Type :=
| Logged (msg : string)
| Called (p : Awaited)
| Completed (p : Awaited)
| Failed (p : Awaited)
| ListenerCloseRequested
| ListenerClosed
| Exited (exit_code : Z).

Definition is_exit (e : Event) : bool :=
  match e with
  | Exited _ => true
  | _ => false
  end.

(** Nothing happens in a process after it has exited. *)
Fixpoint until_exit (t : list Event) : list Event :=
  match t with
  | [] => []
  | e :: rest => if is_exit e then [e] else e :: until_exit rest
  end.

(** The events of running an [async] body.  [await p] resumes the body only
    once [p] is fulfilled; a rejection ends the body, as does a promise that
    never settles.  [server.close(cb)] returns at once, the body runs on,
    and [cb] runs when the listener has closed.  [Exited c] is the call
    [process.exit(c)]; what the runtime does with the rejected promise of a
    handler is not part of the events. *)
Fixpoint events (s : Surroundings) (a : Async) : list Event :=
  match a with
  | Done => []
  | LoggerInfo msg k => Logged msg :: events s k
  | Await p k =>
      Called p ::
      match settles s p with
      | Fulfilled => Completed p :: events s k
      | Rejected => [Failed p]
      | NeverSettles => []
      end
  | ServerClose callback k =>
      ListenerCloseRequested ::
      events s k ++
      (if listener_closes s then ListenerClosed :: events s callback else [])
  | ProcessExit c => [Exited c]
  end.

Definition run_async (s : Surroundings) (a : Async) : list Event :=
  until_exit (events s a).

(** [a] has happened before every occurrence of [b] in [t]. *)
Definition precedes (a b : Event) (t : list Event) : Prop :=
  forall pre post, t = pre ++ b :: post -> In a pre.

(* ====================================================================== *)
(** * Vocabulary of the properties *)
(* ====================================================================== *)

(** The value is a number and that number is an integer from [lo] to [hi]. *)
Definition integer_between (lo hi : Z) (v : JsValue) : Prop :=
  exists q z, v = JsNum (Finite q) /\ q == inject_Z z /\ lo <= z <= hi.

(** The same, decided the way the number schema decides it. *)
Definition in_bounds (lo hi : Z) (n : JsNumber) : bool :=
  isInteger n && negb (js_lt n (of_Z lo)) && negb (js_gt n (of_Z hi)).

(** The effective value of a field: the default when the field is omitted,
    otherwise the provided integer, which lies in the field's bounds. *)
Definition effective (lo hi : Z) (v : JsValue) (default : Z) (z : Z) : Prop :=
  (v = JsUndefined /\ z = default) \/
  (exists q, v = JsNum (Finite q) /\ q == inject_Z z /\ lo <= z <= hi).

(** Every issue of the list sits at the path [p]. *)
Definition all_at (p : list string) (issues : list ZodIssue) : Prop :=
  Forall (fun i => issue_path i = p) issues.

(** The outcomes of an optional bounded-integer field on an input. *)
Inductive field_outcome (lo hi : Z) (p : list string) (v : JsValue)
  : Parse (option JsNumber) -> Prop :=
| field_omitted :
    v = JsUndefined ->
    field_outcome lo hi p v (OK None, [])
| field_accepted n :
    v = JsNum n -> in_bounds lo hi n = true ->
    field_outcome lo hi p v (OK (Some n), [])
| field_dirty n issues :
    v = JsNum n -> in_bounds lo hi n = false -> n <> NaN ->
    issues <> [] -> all_at p issues ->
    field_outcome lo hi p v (DIRTY (Some n), issues)
| field_aborted issues :
    v <> JsUndefined -> (forall n, v = JsNum n -> n = NaN) ->
    issues <> [] -> all_at p issues ->
    field_outcome lo hi p v (INVALID, issues).

(** A parse with status "valid" has recorded no issue. *)
Definition clean {A : Type} (r : Parse A) : Prop :=
  forall x, fst r = OK x -> snd r = [].

(** The five defaults pass their own schemas' checks. *)
Definition defaults_in_bounds (D : SessionDefaults) : Prop :=
  MIN_TIMEOUT_MS <= DEFAULT_SESSION_TIMEOUT_MS D <= MAX_TIMEOUT_MS /\
  MIN_CLEANUP_INTERVAL_MS <= DEFAULT_SESSION_CLEANUP_INTERVAL_MS D
    <= MAX_CLEANUP_INTERVAL_MS /\
  MIN_KEEP_ALIVE_INTERVAL_MS <= DEFAULT_SESSION_KEEP_ALIVE_INTERVAL_MS D
    <= MAX_KEEP_ALIVE_INTERVAL_MS /\
  MIN_MISSED_HEARTBEATS <= DEFAULT_SESSION_MAX_MISSED_HEARTBEATS D
    <= MAX_MISSED_HEARTBEATS /\
  MIN_SESSION_COUNT <= DEFAULT_SESSION_MAX_COUNT D <= MAX_SESSION_COUNT.

(** The two issues the cross-field refinements record. *)
Definition keepAlive_issue : ValidationErrorDetail :=
  {| path := ["keepAliveIntervalMs"];
     message := Supplied "Keep-alive interval must be less than session timeout";
     code := custom |}.

Definition cleanup_issue : ValidationErrorDetail :=
  {| path := ["cleanupIntervalMs"];
     message := Supplied "Cleanup interval should not exceed session timeout";
     code := custom |}.

Definition unrecognized_keys_issue : ValidationErrorDetail :=
  {| path := []; message := ErrorMapDefault; code := unrecognized_keys |}.

(** Equality of events, decided. *)
Definition Awaited_eqb (p q : Awaited) : bool :=
  match p, q with
  | sessionManager_closeAll, sessionManager_closeAll => true
  | closeAllSseSessions, closeAllSseSessions => true
  | _, _ => false
  end.

Definition Event_eqb (a b : Event) : bool :=
  match a, b with
  | Logged m, Logged m' => String.eqb m m'
  | Called p, Called q => Awaited_eqb p q
  | Completed p, Completed q => Awaited_eqb p q
  | Failed p, Failed q => Awaited_eqb p q
  | ListenerCloseRequested, ListenerCloseRequested => true
  | ListenerClosed, ListenerClosed => true
  | Exited c, Exited c' => (c =? c')%Z
  | _, _ => false
  end.

(** [precedes], decided along the trace: [seen] tells whether [a] has
    already happened. *)
Fixpoint precedes_from (seen : bool) (a b : Event) (t : list Event) : bool :=
  match t with
  | [] => true
  | e :: rest =>
      (if Event_eqb e b then seen else true) &&
      precedes_from (seen || Event_eqb e a) a b rest
  end.

(** The layers that ran, without what each did. *)
Definition layers_run {W : Type}
  (r : Response * W * list (Middleware * Outcome)) : list Middleware :=
  map fst (snd r).

(** How a field of the validated configuration comes from the input: it is
    undefined for an omitted input, and otherwise the provided number, an
    integer from [lo] to [hi]. *)
Definition accepted_as (lo hi : Z) (v : JsValue) (o : option JsNumber) : Prop :=
  (v = JsUndefined /\ o = None) \/
  (exists n, v = JsNum n /\ o = Some n /\ in_bounds lo hi n = true).

(** A validated configuration as a JavaScript object: the fields that are
    defined, in the order of the shape. *)
Definition config_object (c : SessionConfig) : JsValue :=
  let field (name : string) (o : option JsNumber) :=
    match o with
    | Some n => [(name, JsNum n)]
    | None => []
    end in
  JsObject (field "timeoutMs" (timeoutMs c) ++
            field "cleanupIntervalMs" (cleanupIntervalMs c) ++
            field "keepAliveIntervalMs" (keepAliveIntervalMs c) ++
            field "maxMissedHeartbeats" (maxMissedHeartbeats c) ++
            field "maxCount" (maxCount c)).

(** The input that provides a field with a number, or omits it. *)
Definition field_input (o : option JsNumber) : JsValue :=
  match o with
  | Some n => JsNum n
  | None => JsUndefined
  end.

(** The value is neither omitted nor a number the checks can run on. *)
Definition wrong_type (v : JsValue) : Prop :=
  v <> JsUndefined /\ forall n, v = JsNum n -> n = NaN.

(** The variables [frameworkEnvSchema] reads. *)
Definition env_variables : list string :=
  ["VERSION"; "NODE_ENV"; "MCP_BIND_HOST"; "MCP_PORT"; "MCP_TRANSPORT";
   "MCP_LEGACY_SSE_ENABLED"; "MCP_ALLOWED_ORIGINS"; "MCP_ALLOWED_HOSTS";
   "MCP_SESSION_TIMEOUT_MS"; "MCP_RATE_LIMIT_WINDOW_MS"; "MCP_RATE_LIMIT_MAX";
   "LOG_LEVEL"; "LOG_FORMAT"; "LOG_DIR"; "OTEL_ENABLED"; "OTEL_SERVICE_NAME";
   "OTEL_EXPORTER_OTLP_ENDPOINT"; "OTEL_DEBUG"].

(** A parse is consistent: it has status "valid" exactly when it recorded
    no issue, and every issue it recorded sits at a path [P] allows. *)
Definition is_OK {A : Type} (r : ParseReturn A) : bool :=
  match r with
  | OK _ => true
  | _ => false
  end.

Definition consistent {A : Type} (P : list string -> Prop) (r : Parse A) : Prop :=
  (is_OK (fst r) = true <-> snd r = []) /\
  Forall (fun i => P (issue_path i)) (snd r).

(** The paths of the issues of the session-config schema: the root or one
    of the five fields. *)
Definition config_path (p : list string) : Prop :=
  p = [] \/ exists name, In name shapeKeys /\ p = [name].

(** The paths of the issues of the environment schema: one variable. *)
Definition env_path (p : list string) : Prop :=
  exists name, In name env_variables /\ p = [name].

(** What a feature flag of the environment reads as: off when the variable
    is not set, and otherwise on exactly when its value, in lower case, is
    the word true. *)
Definition flag_value (rt : JsRuntime) (value : option string) : bool :=
  match value with
  | None => false
  | Some s => String.eqb (toLowerCase rt s) "true"
  end.

(** The variables of the environment with an enumerated value: the name,
    the values allowed and the default. *)
Definition enum_variables : list (string * list string * string) :=
  [("NODE_ENV", ["development"; "production"; "test"], "development");
   ("MCP_TRANSPORT", ["stdio"; "http"], "http");
   ("LOG_LEVEL", ["trace"; "debug"; "info"; "warn"; "error"], "info");
   ("LOG_FORMAT", ["text"; "json"], "text")].

(** The value of a variable, or a default when it is not set. *)
Definition or_default {A : Type} (value : option A) (default : A) : A :=
  match value with
  | Some x => x
  | None => default
  end.

(** The layers that run before the filter chain, on every request. *)
Definition entry_layers : list Middleware :=
  [helmet; express_json; HealthRouter; SseRouter].

(* ====================================================================== *)
(** * Numbers *)
(* ====================================================================== *)

Lemma isInteger_iff (q : Q) :
  isInteger (Finite q) = true <-> exists z, q == inject_Z z.
Proof.
  unfold isInteger. rewrite Z.eqb_eq. split.
  - intros Hmod. exists (Qnum q / Z.pos (Qden q)).
    unfold Qeq, inject_Z. simpl.
    pose proof (Z.div_mod (Qnum q) (Z.pos (Qden q))) as Hdm.
    rewrite Hmod in Hdm. lia.
  - intros [z Hz]. unfold Qeq, inject_Z in Hz. simpl in Hz.
    rewrite Z.mul_1_r in Hz. rewrite Hz. apply Z.mod_mul. lia.
Qed.

Lemma js_lt_Finite (q r : Q) : js_lt (Finite q) (Finite r) = true <-> (q < r)%Q.
Proof. unfold js_lt, Qlt. apply Z.ltb_lt. Qed.

Lemma js_le_Finite (q r : Q) : js_le (Finite q) (Finite r) = true <-> (q <= r)%Q.
Proof. unfold js_le, Qle. apply Z.leb_le. Qed.

Lemma js_lt_integers (q r : Q) (a b : Z) :
  q == inject_Z a -> r == inject_Z b ->
  js_lt (Finite q) (Finite r) = (a <? b)%Z.
Proof.
  intros Hq Hr. apply eq_true_iff_eq.
  rewrite js_lt_Finite, Hq, Hr, <- Zlt_Qlt, Z.ltb_lt. reflexivity.
Qed.

Lemma js_le_integers (q r : Q) (a b : Z) :
  q == inject_Z a -> r == inject_Z b ->
  js_le (Finite q) (Finite r) = (a <=? b)%Z.
Proof.
  intros Hq Hr. apply eq_true_iff_eq.
  rewrite js_le_Finite, Hq, Hr, <- Zle_Qle, Z.leb_le. reflexivity.
Qed.

Lemma inject_Z_refl (z : Z) : inject_Z z == inject_Z z.
Proof. reflexivity. Qed.

Lemma in_bounds_iff (lo hi : Z) (n : JsNumber) :
  in_bounds lo hi n = true <-> integer_between lo hi (JsNum n).
Proof.
  unfold in_bounds, integer_between, js_gt, of_Z. split.
  - intros H. apply andb_prop in H as [H Hhi]. apply andb_prop in H as [Hint Hlo].
    destruct n as [| | |q]; try discriminate.
    apply isInteger_iff in Hint as [z Hz].
    exists q, z. split; [reflexivity|]. split; [exact Hz|].
    rewrite (js_lt_integers _ _ _ _ Hz (inject_Z_refl lo)) in Hlo.
    rewrite (js_lt_integers _ _ _ _ (inject_Z_refl hi) Hz) in Hhi.
    apply negb_true_iff in Hlo, Hhi. apply Z.ltb_ge in Hlo, Hhi. lia.
  - intros (q & z & Hv & Hz & Hrange). inversion Hv; subst n.
    rewrite (js_lt_integers _ _ _ _ Hz (inject_Z_refl lo)).
    rewrite (js_lt_integers _ _ _ _ (inject_Z_refl hi) Hz).
    assert (Hint : isInteger (Finite q) = true) by (apply isInteger_iff; eauto).
    rewrite Hint. simpl.
    destruct (Z.ltb_spec z lo), (Z.ltb_spec hi z); simpl; try reflexivity; lia.
Qed.

Lemma in_bounds_of_Z (lo hi z : Z) :
  in_bounds lo hi (of_Z z) = ((lo <=? z)%Z && (z <=? hi)%Z).
Proof.
  apply eq_true_iff_eq. rewrite in_bounds_iff, andb_true_iff, !Z.leb_le.
  unfold integer_between, of_Z. split.
  - intros (q & z' & Hv & Hz & Hr). inversion Hv; subst q.
    apply (proj1 (inject_Z_injective z z')) in Hz. subst z'. exact Hr.
  - intros Hr. exists (inject_Z z), z. repeat split; try reflexivity; lia.
Qed.

(* ====================================================================== *)
(** * The parsers *)
(* ====================================================================== *)

Lemma settle_clean {A : Type} (v : A) (issues : list ZodIssue) : clean (settle v issues).
Proof. intros x. destruct issues; simpl; [reflexivity | discriminate]. Qed.

Lemma merge_issues {A B : Type} (acc : Parse (A -> B)) (f : Parse A) :
  snd (merge acc f) = snd acc ++ snd f.
Proof.
  unfold merge. destruct acc as [[g|g|] ia], f as [[v|v|] iv]; reflexivity.
Qed.

Lemma merge_OK_inv {A B : Type} (acc : Parse (A -> B)) (f : Parse A) (x : B) :
  fst (merge acc f) = OK x ->
  exists g v, fst acc = OK g /\ fst f = OK v /\ x = g v.
Proof.
  unfold merge. destruct acc as [[g|g|] ia], f as [[v|v|] iv]; simpl;
    try discriminate.
  intros H. inversion H. eauto.
Qed.

Lemma merge_OK {A B : Type} (acc : Parse (A -> B)) (f : Parse A) g v :
  acc = (OK g, []) -> f = (OK v, []) -> merge acc f = (OK (g v), []).
Proof. intros -> ->. reflexivity. Qed.

Lemma merge_clean {A B : Type} (acc : Parse (A -> B)) (f : Parse A) :
  clean acc -> clean f -> clean (merge acc f).
Proof.
  intros Ha Hf x Hx. rewrite merge_issues.
  apply merge_OK_inv in Hx as (g & v & Hg & Hv & _).
  rewrite (Ha _ Hg), (Hf _ Hv). reflexivity.
Qed.

Lemma strict_check_clean {A : Type} extra p (r : Parse A) :
  clean r -> clean (strict_check extra p r).
Proof.
  intros Hr x. destruct extra; simpl; [apply Hr|].
  destruct (fst r); discriminate.
Qed.

Lemma strict_check_OK_inv {A : Type} extra p (r : Parse A) x :
  fst (strict_check extra p r) = OK x -> extra = [] /\ fst r = OK x.
Proof.
  destruct extra; simpl; [auto|]. destruct (fst r); discriminate.
Qed.

Lemma ZodRefine_clean {A : Type} (inner : Schema A) check msg sub p v :
  clean (inner p v) -> clean (ZodRefine inner check msg sub p v).
Proof.
  unfold ZodRefine, clean. destruct (inner p v) as [[x|x|] issues]; simpl;
    intros H y; try destruct (check x); simpl; try discriminate; eauto.
Qed.

Lemma ZodRefine_OK_inv {A : Type} (inner : Schema A) check msg sub p v x :
  fst (ZodRefine inner check msg sub p v) = OK x ->
  fst (inner p v) = OK x /\ check x = true.
Proof.
  unfold ZodRefine. destruct (inner p v) as [[y|y|] issues]; simpl;
    try destruct (check y) eqn:E; simpl; try discriminate.
  intros H; inversion H; subst; auto.
Qed.

(** The issues of a refined schema are those of the inner schema, followed
    by the refinement's own issue when the inner parse did not abort and the
    check fails on its value. *)
Lemma ZodRefine_issues {A : Type} (inner : Schema A) check msg sub p v :
  snd (ZodRefine inner check msg sub p v) =
  snd (inner p v) ++
  match fst (inner p v) with
  | OK x | DIRTY x =>
      if check x then [] else [mkIssue custom (p ++ sub) (Supplied msg)]
  | INVALID => []
  end.
Proof.
  unfold ZodRefine. destruct (inner p v) as [[x|x|] issues]; simpl;
    try destruct (check x); simpl; rewrite ?app_nil_r; reflexivity.
Qed.

Lemma ZodRefine_value {A : Type} (inner : Schema A) check msg sub p v :
  match fst (ZodRefine inner check msg sub p v), fst (inner p v) with
  | OK x, OK y | DIRTY x, OK y | DIRTY x, DIRTY y => x = y
  | INVALID, INVALID => True
  | _, _ => False
  end.
Proof.
  unfold ZodRefine. destruct (inner p v) as [[x|x|] issues]; simpl;
    try destruct (check x); simpl; auto.
Qed.

(** What an optional, defaulted, bounded-integer field does with an input. *)
Lemma optional_number_outcome r t m lo a hi b d p v :
  field_outcome lo hi p v
    (ZodOptional
       (ZodDefault (ZodNumber_int_min_max r t m (of_Z lo) a (of_Z hi) b) d) p v).
Proof.
  unfold ZodOptional, ZodDefault.
  destruct v as [| |bv|n|s|items|props|];
    try (simpl; apply field_omitted; reflexivity);
    try (simpl; apply field_aborted;
         [discriminate | intros n Hn; discriminate | discriminate
         | repeat constructor]).
  cbn [is_undefined].
  destruct n as [| | |q].
  - simpl. apply field_aborted;
      [discriminate | intros n Hn; inversion Hn; reflexivity | discriminate
      | repeat constructor].
  - simpl. apply field_dirty with (n := PosInfinity);
      [reflexivity | reflexivity | discriminate | discriminate |].
    unfold js_gt. simpl. repeat constructor.
  - simpl. apply field_dirty with (n := NegInfinity);
      [reflexivity | reflexivity | discriminate | discriminate |].
    unfold js_gt. simpl. repeat constructor.
  - cbv beta iota delta [ZodNumber_int_min_max].
    destruct (in_bounds lo hi (Finite q)) eqn:Hb.
    + pose proof Hb as Hb'. unfold in_bounds in Hb'.
      apply andb_prop in Hb' as [Hb' Hhi]. apply andb_prop in Hb' as [Hint Hlo].
      apply negb_true_iff in Hlo, Hhi.
      rewrite Hint, Hlo, Hhi. simpl.
      apply field_accepted; [reflexivity | exact Hb].
    + unfold in_bounds in Hb.
      destruct (isInteger (Finite q)) eqn:Hint,
        (js_lt (Finite q) (of_Z lo)) eqn:Hlo,
        (js_gt (Finite q) (of_Z hi)) eqn:Hhi; simpl in Hb; try discriminate;
        cbn [settle app];
        (apply field_dirty with (n := Finite q);
         [reflexivity | unfold in_bounds; rewrite Hint, Hlo, Hhi; reflexivity
         | discriminate | discriminate | repeat constructor]).
Qed.

Lemma field_outcome_clean lo hi p v r : field_outcome lo hi p v r -> clean r.
Proof.
  intros H x Hx. destruct H; simpl in *; try reflexivity; discriminate.
Qed.

Lemma field_outcome_at lo hi p v r : field_outcome lo hi p v r -> all_at p (snd r).
Proof. intros H. destruct H; simpl; auto; constructor. Qed.

(** A field records no issue exactly when its input is omitted or is an
    integer within the bounds. *)
Lemma field_outcome_no_issue lo hi p v r :
  field_outcome lo hi p v r ->
  (snd r = [] <-> v = JsUndefined \/ integer_between lo hi v).
Proof.
  intros H.
  destruct H as [Hv | n Hv Hb | n issues Hv Hb Hn Hi Hat | issues Hv Hn Hi Hat];
    simpl.
  - split; auto.
  - split; [|reflexivity]. intros _. right. subst v. apply in_bounds_iff. exact Hb.
  - split; [contradiction|]. intros [H | H]; [subst v; discriminate|].
    subst v. apply in_bounds_iff in H. congruence.
  - split; [contradiction|]. intros [H | H]; [contradiction|].
    destruct H as (q & z & Hq & _). specialize (Hn _ Hq). discriminate.
Qed.

(** An accepted field carries the provided number, an omitted one nothing. *)
Lemma field_outcome_effective lo hi p v r d z :
  field_outcome lo hi p v r -> effective lo hi v d z ->
  exists o, r = (OK o, []) /\
            exists q, nullish o (of_Z d) = Finite q /\ q == inject_Z z.
Proof.
  intros H [[Hv Hz] | (q & Hv & Hq & Hr)].
  - subst. exists None. destruct H; try discriminate; try contradiction.
    + split; [reflexivity|]. exists (inject_Z d). split; reflexivity.
  - assert (Hb : in_bounds lo hi (Finite q) = true)
      by (apply in_bounds_iff; exists q, z; auto).
    destruct H as [Hu | n Hn _ | n issues Hn Hb' _ _ _ | issues _ Hn _ _].
    + subst; discriminate.
    + exists (Some n). split; [reflexivity|].
      assert (n = Finite q) by congruence. subst n.
      exists q. split; [reflexivity | exact Hq].
    + assert (n = Finite q) by congruence. subst n. congruence.
    + specialize (Hn _ Hv). discriminate.
Qed.

(* ====================================================================== *)
(** * Session configuration *)
(* ====================================================================== *)

Section SessionConfigFacts.

Variable D : SessionDefaults.
Variable props : list (string * JsValue).

(** The five field parses of the object schema on [props]. *)
Let F1 := ZodOptional (SessionTimeoutSchema D) ["timeoutMs"] (get_prop "timeoutMs" props).
Let F2 := ZodOptional (SessionCleanupIntervalSchema D) ["cleanupIntervalMs"]
            (get_prop "cleanupIntervalMs" props).
Let F3 := ZodOptional (SessionKeepAliveIntervalSchema D) ["keepAliveIntervalMs"]
            (get_prop "keepAliveIntervalMs" props).
Let F4 := ZodOptional (SessionMaxMissedHeartbeatsSchema D) ["maxMissedHeartbeats"]
            (get_prop "maxMissedHeartbeats" props).
Let F5 := ZodOptional (SessionMaxCountSchema D) ["maxCount"] (get_prop "maxCount" props).

Lemma F1_outcome :
  field_outcome MIN_TIMEOUT_MS MAX_TIMEOUT_MS ["timeoutMs"]
    (get_prop "timeoutMs" props) F1.
Proof. apply optional_number_outcome. Qed.

Lemma F2_outcome :
  field_outcome MIN_CLEANUP_INTERVAL_MS MAX_CLEANUP_INTERVAL_MS ["cleanupIntervalMs"]
    (get_prop "cleanupIntervalMs" props) F2.
Proof. apply optional_number_outcome. Qed.

Lemma F3_outcome :
  field_outcome MIN_KEEP_ALIVE_INTERVAL_MS MAX_KEEP_ALIVE_INTERVAL_MS
    ["keepAliveIntervalMs"] (get_prop "keepAliveIntervalMs" props) F3.
Proof. apply optional_number_outcome. Qed.

Lemma F4_outcome :
  field_outcome MIN_MISSED_HEARTBEATS MAX_MISSED_HEARTBEATS ["maxMissedHeartbeats"]
    (get_prop "maxMissedHeartbeats" props) F4.
Proof. apply optional_number_outcome. Qed.

Lemma F5_outcome :
  field_outcome MIN_SESSION_COUNT MAX_SESSION_COUNT ["maxCount"]
    (get_prop "maxCount" props) F5.
Proof. apply optional_number_outcome. Qed.

Lemma base_on_object :
  SessionConfigBaseSchema D [] (JsObject props) =
  strict_check (extraKeys props) []
    (merge (merge (merge (merge (merge (OK Build_SessionConfig, []) F1) F2) F3) F4) F5).
Proof. reflexivity. Qed.

Lemma strict_check_issues {A : Type} extra p (r : Parse A) :
  snd (strict_check extra p r) =
  snd r ++ match extra with
           | [] => []
           | _ :: _ => [mkIssue unrecognized_keys p ErrorMapDefault]
           end.
Proof. destruct extra; simpl; [rewrite app_nil_r|]; reflexivity. Qed.

Lemma base_issues :
  snd (SessionConfigBaseSchema D [] (JsObject props)) =
  snd F1 ++ snd F2 ++ snd F3 ++ snd F4 ++ snd F5 ++
  match extraKeys props with
  | [] => []
  | _ :: _ => [mkIssue unrecognized_keys [] ErrorMapDefault]
  end.
Proof.
  rewrite base_on_object, strict_check_issues, !merge_issues. simpl.
  rewrite <- !app_assoc. reflexivity.
Qed.

Lemma base_clean : clean (SessionConfigBaseSchema D [] (JsObject props)).
Proof.
  rewrite base_on_object. apply strict_check_clean.
  repeat apply merge_clean;
    first [ intros x _; reflexivity
          | eapply field_outcome_clean;
            first [apply F1_outcome | apply F2_outcome | apply F3_outcome
                  | apply F4_outcome | apply F5_outcome] ].
Qed.

(** The issues of the full schema: those of the base schema, then the
    issues of the two refinements. *)
Lemma schema_issues :
  exists refinements,
    snd (SessionConfigSchema D [] (JsObject props)) =
    snd (SessionConfigBaseSchema D [] (JsObject props)) ++ refinements /\
    Forall (fun i => issue_code i = custom /\
                     (issue_path i = ["keepAliveIntervalMs"] \/
                      issue_path i = ["cleanupIntervalMs"])) refinements /\
    (refinements <> [] ->
     forall x, fst (SessionConfigSchema D [] (JsObject props)) <> OK x).
Proof.
  unfold SessionConfigSchema, applySessionConfigRefinements.
  set (base := SessionConfigBaseSchema D).
  unfold ZodRefine.
  destruct (base [] (JsObject props)) as [[x|x|] issues]; simpl;
    try destruct (keepAlive_lt_timeout D x); try destruct (cleanup_le_timeout D x);
    simpl; rewrite <- ?app_assoc;
    try (exists []; rewrite app_nil_r; repeat split; auto; discriminate);
    (eexists; split; [reflexivity|]; split; [|discriminate];
     repeat first
       [ apply Forall_nil
       | apply Forall_cons;
         [split; [reflexivity | first [left; reflexivity | right; reflexivity]]|] ]).
Qed.

End SessionConfigFacts.

Lemma schema_clean D (v : JsValue) : clean (SessionConfigSchema D [] v).
Proof.
  unfold SessionConfigSchema, applySessionConfigRefinements.
  apply ZodRefine_clean, ZodRefine_clean.
  destruct v; try (intros x Hx; discriminate). apply base_clean.
Qed.

(** [validateSessionConfigSafe] reports exactly the issues of the schema. *)
Lemma validate_errors D v :
  errors_of (validateSessionConfigSafe D v) =
  map to_detail (snd (SessionConfigSchema D [] v)).
Proof.
  unfold validateSessionConfigSafe, safeParse.
  pose proof (schema_clean D v) as Hc.
  destruct (SessionConfigSchema D [] v) as [[x|x|] issues]; simpl; try reflexivity.
  specialize (Hc x eq_refl). simpl in Hc. subst issues. reflexivity.
Qed.

(** The throwing and the safe validation agree on what they accept. *)
Lemma validate_success D v :
  is_success (validateSessionConfigSafe D v) = returns (parseSessionConfig D v).
Proof.
  unfold validateSessionConfigSafe, parseSessionConfig, parse, safeParse.
  destruct (SessionConfigSchema D [] v) as [[x|x|] issues]; reflexivity.
Qed.

(** Validation fails as soon as the schema has recorded an issue. *)
Lemma issue_fails D v i :
  In i (snd (SessionConfigSchema D [] v)) ->
  is_success (validateSessionConfigSafe D v) = false.
Proof.
  intros Hi. unfold validateSessionConfigSafe, safeParse.
  pose proof (schema_clean D v) as Hc.
  destruct (SessionConfigSchema D [] v) as [[x|x|] issues]; simpl; try reflexivity.
  specialize (Hc x eq_refl). simpl in Hc, Hi. subst issues. destruct Hi.
Qed.

Lemma MAX_TIMEOUT_MS_value : MAX_TIMEOUT_MS = 157680000000.
Proof. reflexivity. Qed.

Lemma nonempty_has_member {A : Type} (l : list A) : l <> [] -> exists x, In x l.
Proof. destruct l as [|x l]; [contradiction | exists x; left; reflexivity]. Qed.

Lemma all_at_path p issues i : all_at p issues -> In i issues -> issue_path i = p.
Proof. unfold all_at. rewrite Forall_forall. auto. Qed.

(** The issues at the path of [timeoutMs] are those of the timeout field. *)
Lemma issue_at_timeoutMs D props i :
  In i (snd (SessionConfigSchema D [] (JsObject props))) ->
  issue_path i = ["timeoutMs"] ->
  In i (snd (ZodOptional (SessionTimeoutSchema D) ["timeoutMs"]
               (get_prop "timeoutMs" props))).
Proof.
  intros Hin Hpath.
  destruct (schema_issues D props) as (refinements & Heq & Href & _).
  rewrite Heq, base_issues in Hin.
  rewrite !in_app_iff in Hin.
  destruct Hin as [[H | [H | [H | [H | [H | H]]]]] | H]; [exact H | exfalso ..].
  - apply (all_at_path _ _ _ (field_outcome_at _ _ _ _ _ (F2_outcome D props))) in H.
    congruence.
  - apply (all_at_path _ _ _ (field_outcome_at _ _ _ _ _ (F3_outcome D props))) in H.
    congruence.
  - apply (all_at_path _ _ _ (field_outcome_at _ _ _ _ _ (F4_outcome D props))) in H.
    congruence.
  - apply (all_at_path _ _ _ (field_outcome_at _ _ _ _ _ (F5_outcome D props))) in H.
    congruence.
  - destruct (extraKeys props); simpl in H; [contradiction|].
    destruct H as [H | []]. subst i. discriminate.
  - rewrite Forall_forall in Href. destruct (Href _ H) as [_ [Hp | Hp]]; congruence.
Qed.

Lemma timeout_issue_in_schema D props i :
  In i (snd (ZodOptional (SessionTimeoutSchema D) ["timeoutMs"]
               (get_prop "timeoutMs" props))) ->
  In i (snd (SessionConfigSchema D [] (JsObject props))).
Proof.
  intros H. destruct (schema_issues D props) as (refinements & Heq & _).
  rewrite Heq, base_issues, !in_app_iff. auto.
Qed.

(** What validation reports for a provided [timeoutMs], whatever the rest
    of the object holds: no error at [timeoutMs] exactly when the value is
    an integer within the bounds, a failure for any other value, and the
    same condition for the field's own schema. *)
Lemma timeoutMs_reported_iff_out_of_range :
  forall (D : SessionDefaults) (props : list (string * JsValue)) (v : JsValue),
    get_prop "timeoutMs" props = v ->
    v <> JsUndefined ->
    let result := validateSessionConfigSafe D (JsObject props) in
    ((forall e, In e (errors_of result) -> path e <> ["timeoutMs"]) <->
     integer_between 60000 157680000000 v) /\
    (~ integer_between 60000 157680000000 v ->
     is_success result = false /\
     returns (parseSessionConfig D (JsObject props)) = false) /\
    (success (safeParse (ZodOptional (SessionTimeoutSchema D)) v) = true <->
     integer_between 60000 157680000000 v).
Proof.
  intros D props v Hv Hdef result.
  change (integer_between 60000 157680000000 v)
    with (integer_between MIN_TIMEOUT_MS MAX_TIMEOUT_MS v).
  pose proof (F1_outcome D props) as Hout. rewrite Hv in Hout.
  pose proof (field_outcome_no_issue _ _ _ _ _ Hout) as Hno.
  pose proof (field_outcome_at _ _ _ _ _ Hout) as Hat.
  assert (Hiff : snd (ZodOptional (SessionTimeoutSchema D) ["timeoutMs"] v) = [] <->
                 integer_between MIN_TIMEOUT_MS MAX_TIMEOUT_MS v).
  { rewrite Hno. split; [intros [H | H]; [contradiction | exact H] | auto]. }
  assert (Hreject : ~ integer_between MIN_TIMEOUT_MS MAX_TIMEOUT_MS v ->
                    exists i, In i (snd (SessionConfigSchema D [] (JsObject props))) /\
                              issue_path i = ["timeoutMs"]).
  { intros Hnot.
    destruct (nonempty_has_member
                (snd (ZodOptional (SessionTimeoutSchema D) ["timeoutMs"] v)))
      as [i Hi].
    - intros Hnil. apply Hnot, Hiff, Hnil.
    - exists i. split.
      + apply timeout_issue_in_schema. rewrite Hv. exact Hi.
      + apply (all_at_path _ _ _ Hat Hi). }
  split; [|split].
  - unfold result. rewrite validate_errors. split.
    + intros Hnone.
      destruct (in_bounds MIN_TIMEOUT_MS MAX_TIMEOUT_MS
                  match v with JsNum n => n | _ => NaN end) eqn:Hb.
      * apply in_bounds_iff in Hb. destruct Hb as (q & z & Hq & Hz & Hr).
        destruct v as [| | |n| | | |]; try discriminate.
        exists q, z. auto.
      * exfalso.
        assert (Hnot : ~ integer_between MIN_TIMEOUT_MS MAX_TIMEOUT_MS v).
        { intros (q & z & Hq & Hz & Hr). rewrite Hq in Hb.
          assert (in_bounds MIN_TIMEOUT_MS MAX_TIMEOUT_MS (Finite q) = true)
            by (apply in_bounds_iff; exists q, z; auto).
          simpl in Hb. congruence. }
        destruct (Hreject Hnot) as (i & Hi & Hp).
        apply (Hnone (to_detail i)); [apply in_map; exact Hi | exact Hp].
    + intros Hin e He Hp. apply in_map_iff in He as (i & <- & Hi).
      apply issue_at_timeoutMs in Hi; [|exact Hp].
      rewrite Hv in Hi. apply Hiff in Hin. rewrite Hin in Hi. destruct Hi.
  - intros Hnot. destruct (Hreject Hnot) as (i & Hi & _).
    rewrite <- validate_success. split; apply (issue_fails _ _ _ Hi).
  - pose proof (optional_number_outcome "Session timeout is required"
                  TIMEOUT_TYPE TIMEOUT_TYPE MIN_TIMEOUT_MS TIMEOUT_MIN
                  MAX_TIMEOUT_MS TIMEOUT_MAX
                  (JsNum (of_Z (DEFAULT_SESSION_TIMEOUT_MS D))) [] v) as Hroot.
    unfold safeParse. fold (SessionTimeoutSchema D) in Hroot.
    inversion Hroot as [Hu Heq | n Hn Hb Heq | n issues Hn Hb Hnan Hi Ha Heq
                        | issues Hu Hn Hi Ha Heq]; simpl.
    + contradiction.
    + split; [intros _ | reflexivity]. rewrite Hn. apply in_bounds_iff. exact Hb.
    + split; [discriminate|]. intros Hin. rewrite Hn in Hin.
      apply in_bounds_iff in Hin. congruence.
    + split; [discriminate|]. intros (q & z & Hq & _).
      specialize (Hn _ Hq). discriminate.
Qed.

(** The base schema on an object whose five fields are omitted or in bounds:
    every field is accepted, and only extra keys can make the object dirty. *)
Lemma base_of_effective D props t c k hb mc :
  effective MIN_TIMEOUT_MS MAX_TIMEOUT_MS (get_prop "timeoutMs" props)
    (DEFAULT_SESSION_TIMEOUT_MS D) t ->
  effective MIN_CLEANUP_INTERVAL_MS MAX_CLEANUP_INTERVAL_MS
    (get_prop "cleanupIntervalMs" props) (DEFAULT_SESSION_CLEANUP_INTERVAL_MS D) c ->
  effective MIN_KEEP_ALIVE_INTERVAL_MS MAX_KEEP_ALIVE_INTERVAL_MS
    (get_prop "keepAliveIntervalMs" props)
    (DEFAULT_SESSION_KEEP_ALIVE_INTERVAL_MS D) k ->
  effective MIN_MISSED_HEARTBEATS MAX_MISSED_HEARTBEATS
    (get_prop "maxMissedHeartbeats" props)
    (DEFAULT_SESSION_MAX_MISSED_HEARTBEATS D) hb ->
  effective MIN_SESSION_COUNT MAX_SESSION_COUNT (get_prop "maxCount" props)
    (DEFAULT_SESSION_MAX_COUNT D) mc ->
  exists config,
    SessionConfigBaseSchema D [] (JsObject props) =
      strict_check (extraKeys props) [] (OK config, []) /\
    keepAlive_lt_timeout D config = (k <? t)%Z /\
    cleanup_le_timeout D config = (c <=? t)%Z.
Proof.
  intros Ht Hc Hk Hhb Hmc.
  destruct (field_outcome_effective _ _ _ _ _ _ _ (F1_outcome D props) Ht)
    as (o1 & E1 & q1 & N1 & Q1).
  destruct (field_outcome_effective _ _ _ _ _ _ _ (F2_outcome D props) Hc)
    as (o2 & E2 & q2 & N2 & Q2).
  destruct (field_outcome_effective _ _ _ _ _ _ _ (F3_outcome D props) Hk)
    as (o3 & E3 & q3 & N3 & Q3).
  destruct (field_outcome_effective _ _ _ _ _ _ _ (F4_outcome D props) Hhb)
    as (o4 & E4 & _).
  destruct (field_outcome_effective _ _ _ _ _ _ _ (F5_outcome D props) Hmc)
    as (o5 & E5 & _).
  exists (Build_SessionConfig o1 o2 o3 o4 o5).
  split; [|split].
  - rewrite base_on_object, E1, E2, E3, E4, E5. reflexivity.
  - unfold keepAlive_lt_timeout. simpl. rewrite N1, N3.
    apply js_lt_integers; assumption.
  - unfold cleanup_le_timeout. simpl. rewrite N1, N2.
    apply js_le_integers; assumption.
Qed.

Lemma integer_between_decided (lo hi : Z) (v : JsValue) :
  integer_between lo hi v \/ ~ integer_between lo hi v.
Proof.
  destruct v as [| | |n| | | |];
    try (right; intros (q & z & Hq & _); discriminate Hq).
  destruct (in_bounds lo hi n) eqn:Hb.
  - left. apply in_bounds_iff. exact Hb.
  - right. intros H. apply in_bounds_iff in H. congruence.
Qed.

(** Validation of an object whose five fields are each omitted or in bounds
    succeeds exactly when both cross-field checks pass on the effective
    values and the object has no unrecognized key. *)
Lemma success_of_effective D props t c k hb mc :
  effective MIN_TIMEOUT_MS MAX_TIMEOUT_MS (get_prop "timeoutMs" props)
    (DEFAULT_SESSION_TIMEOUT_MS D) t ->
  effective MIN_CLEANUP_INTERVAL_MS MAX_CLEANUP_INTERVAL_MS
    (get_prop "cleanupIntervalMs" props) (DEFAULT_SESSION_CLEANUP_INTERVAL_MS D) c ->
  effective MIN_KEEP_ALIVE_INTERVAL_MS MAX_KEEP_ALIVE_INTERVAL_MS
    (get_prop "keepAliveIntervalMs" props)
    (DEFAULT_SESSION_KEEP_ALIVE_INTERVAL_MS D) k ->
  effective MIN_MISSED_HEARTBEATS MAX_MISSED_HEARTBEATS
    (get_prop "maxMissedHeartbeats" props)
    (DEFAULT_SESSION_MAX_MISSED_HEARTBEATS D) hb ->
  effective MIN_SESSION_COUNT MAX_SESSION_COUNT (get_prop "maxCount" props)
    (DEFAULT_SESSION_MAX_COUNT D) mc ->
  (is_success (validateSessionConfigSafe D (JsObject props)) = true <->
   k < t /\ c <= t /\ extraKeys props = []).
Proof.
  intros Ht Hc Hk Hhb Hmc.
  destruct (base_of_effective D props t c k hb mc Ht Hc Hk Hhb Hmc)
    as (config & Hbase & Hka & Hcl).
  unfold validateSessionConfigSafe, safeParse, SessionConfigSchema,
    applySessionConfigRefinements, ZodRefine.
  rewrite Hbase.
  destruct (extraKeys props) as [|x extra];
    cbn -[keepAlive_lt_timeout cleanup_le_timeout]; rewrite Hka;
    destruct (Z.ltb_spec k t);
    cbn -[keepAlive_lt_timeout cleanup_le_timeout]; rewrite Hcl;
    destruct (Z.leb_spec c t); simpl;
    split; try discriminate; try (intros _; repeat split; auto; lia);
    try (intros (? & ? & ?); first [lia | discriminate | reflexivity]).
Qed.

(** A provided [timeoutMs] in an object that is otherwise acceptable: the
    object is accepted exactly when the value is an integer within the
    bounds that the effective keep-alive and cleanup intervals fit under. *)
Lemma provided_timeout_accepted D props v c k hb mc :
  get_prop "timeoutMs" props = v ->
  v <> JsUndefined ->
  effective MIN_CLEANUP_INTERVAL_MS MAX_CLEANUP_INTERVAL_MS
    (get_prop "cleanupIntervalMs" props) (DEFAULT_SESSION_CLEANUP_INTERVAL_MS D) c ->
  effective MIN_KEEP_ALIVE_INTERVAL_MS MAX_KEEP_ALIVE_INTERVAL_MS
    (get_prop "keepAliveIntervalMs" props)
    (DEFAULT_SESSION_KEEP_ALIVE_INTERVAL_MS D) k ->
  effective MIN_MISSED_HEARTBEATS MAX_MISSED_HEARTBEATS
    (get_prop "maxMissedHeartbeats" props)
    (DEFAULT_SESSION_MAX_MISSED_HEARTBEATS D) hb ->
  effective MIN_SESSION_COUNT MAX_SESSION_COUNT (get_prop "maxCount" props)
    (DEFAULT_SESSION_MAX_COUNT D) mc ->
  extraKeys props = [] ->
  (is_success (validateSessionConfigSafe D (JsObject props)) = true <->
   exists q t, v = JsNum (Finite q) /\ q == inject_Z t /\
               60000 <= t <= 157680000000 /\ k < t /\ c <= t).
Proof.
  intros Hv Hdef Hc Hk Hhb Hmc Hextra.
  assert (Heff : forall q t,
             v = JsNum (Finite q) -> q == inject_Z t ->
             60000 <= t <= 157680000000 ->
             effective MIN_TIMEOUT_MS MAX_TIMEOUT_MS (get_prop "timeoutMs" props)
               (DEFAULT_SESSION_TIMEOUT_MS D) t).
  { intros q t Hq Hz Hr. right. exists q. rewrite Hv.
    split; [exact Hq|]. split; [exact Hz|].
    rewrite MAX_TIMEOUT_MS_value. unfold MIN_TIMEOUT_MS. exact Hr. }
  split.
  - intros Hok.
    destruct (integer_between_decided 60000 157680000000 v)
      as [(q & t & Hq & Hz & Hr) | Hnot].
    + exists q, t.
      destruct (proj1 (success_of_effective D props t c k hb mc
                         (Heff q t Hq Hz Hr) Hc Hk Hhb Hmc) Hok)
        as (Hkt & Hct & _).
      auto.
    + destruct (timeoutMs_reported_iff_out_of_range D props v Hv Hdef)
        as (_ & Hrej & _).
      destruct (Hrej Hnot) as [Hfail _]. congruence.
  - intros (q & t & Hq & Hz & Hr & Hkt & Hct).
    apply (success_of_effective D props t c k hb mc
             (Heff q t Hq Hz Hr) Hc Hk Hhb Hmc).
    auto.
Qed.

(** An accepted object carries the provided [timeoutMs] unchanged. *)
Lemma provided_timeout_kept D props v data :
  get_prop "timeoutMs" props = v ->
  v <> JsUndefined ->
  validateSessionConfigSafe D (JsObject props) = ValidationSuccess data ->
  exists n, v = JsNum n /\ timeoutMs data = Some n.
Proof.
  intros Hv Hdef. unfold validateSessionConfigSafe, safeParse.
  destruct (SessionConfigSchema D [] (JsObject props)) as [[x|x|] issues] eqn:E;
    try discriminate.
  intros H. injection H as ->.
  apply (f_equal fst) in E. cbn [fst] in E.
  unfold SessionConfigSchema, applySessionConfigRefinements in E.
  apply ZodRefine_OK_inv in E as [E _].
  apply ZodRefine_OK_inv in E as [E _].
  rewrite base_on_object in E.
  apply strict_check_OK_inv in E as [_ E].
  apply merge_OK_inv in E as (g5 & v5 & E & _ & ->).
  apply merge_OK_inv in E as (g4 & v4 & E & _ & ->).
  apply merge_OK_inv in E as (g3 & v3 & E & _ & ->).
  apply merge_OK_inv in E as (g2 & v2 & E & _ & ->).
  apply merge_OK_inv in E as (g1 & v1 & E & H1 & ->).
  cbn [fst] in E. injection E as <-. cbn [timeoutMs].
  pose proof (F1_outcome D props) as Hout. rewrite Hv in Hout, H1.
  inversion Hout as [Hu Heq | n Hn Hb Heq | n iss Hn Hb Hnan Hi Ha Heq
                     | iss Hu Hn Hi Ha Heq];
    rewrite <- Heq in H1; cbn [fst] in H1; try discriminate.
  - contradiction.
  - injection H1 as <-. exists n. auto.
Qed.

(** C1.  For every configuration object that provides a [timeoutMs] value.
    When the rest of the object is acceptable (the other four fields are
    each omitted or within their bounds, and there is no unrecognized key),
    [validateSessionConfigSafe] succeeds and [parseSessionConfig] returns
    exactly when the value is an integer from 60,000 to 157,680,000,000
    that the effective keep-alive interval lies below and the effective
    cleanup interval does not exceed; with those two intervals at most at
    the least timeout, exactly when the value is an integer from 60,000 to
    157,680,000,000.  An accepted object carries the provided value
    unchanged, and the two functions always agree.  Whatever the rest of
    the object holds: an error is reported at [timeoutMs] exactly when the
    value is not such an integer, any such value makes
    [validateSessionConfigSafe] return a failure and [parseSessionConfig]
    throw, and the field's own schema accepts under the same condition. *)
Theorem timeoutMs_accepted_iff_integer_in_range :
  forall (D : SessionDefaults) (props : list (string * JsValue)) (v : JsValue),
    get_prop "timeoutMs" props = v ->
    v <> JsUndefined ->
    let result := validateSessionConfigSafe D (JsObject props) in
    (forall c k hb mc : Z,
        effective MIN_CLEANUP_INTERVAL_MS MAX_CLEANUP_INTERVAL_MS
          (get_prop "cleanupIntervalMs" props)
          (DEFAULT_SESSION_CLEANUP_INTERVAL_MS D) c ->
        effective MIN_KEEP_ALIVE_INTERVAL_MS MAX_KEEP_ALIVE_INTERVAL_MS
          (get_prop "keepAliveIntervalMs" props)
          (DEFAULT_SESSION_KEEP_ALIVE_INTERVAL_MS D) k ->
        effective MIN_MISSED_HEARTBEATS MAX_MISSED_HEARTBEATS
          (get_prop "maxMissedHeartbeats" props)
          (DEFAULT_SESSION_MAX_MISSED_HEARTBEATS D) hb ->
        effective MIN_SESSION_COUNT MAX_SESSION_COUNT (get_prop "maxCount" props)
          (DEFAULT_SESSION_MAX_COUNT D) mc ->
        extraKeys props = [] ->
        (is_success result = true <->
         exists q t, v = JsNum (Finite q) /\ q == inject_Z t /\
                     60000 <= t <= 157680000000 /\ k < t /\ c <= t) /\
        (k < 60000 -> c <= 60000 ->
         (is_success result = true <-> integer_between 60000 157680000000 v) /\
         (returns (parseSessionConfig D (JsObject props)) = true <->
          integer_between 60000 157680000000 v))) /\
    returns (parseSessionConfig D (JsObject props)) = is_success result /\
    (forall data,
        result = ValidationSuccess data ->
        exists n, v = JsNum n /\ timeoutMs data = Some n) /\
    ((forall e, In e (errors_of result) -> path e <> ["timeoutMs"]) <->
     integer_between 60000 157680000000 v) /\
    (~ integer_between 60000 157680000000 v ->
     is_success result = false /\
     returns (parseSessionConfig D (JsObject props)) = false) /\
    (success (safeParse (ZodOptional (SessionTimeoutSchema D)) v) = true <->
     integer_between 60000 157680000000 v).
Proof.
  intros D props v Hv Hdef result.
  split; [|split; [|split]].
  - intros c k hb mc Hc Hk Hhb Hmc Hextra.
    pose proof (provided_timeout_accepted D props v c k hb mc
                  Hv Hdef Hc Hk Hhb Hmc Hextra) as Hiff.
    fold result in Hiff.
    split; [exact Hiff|].
    intros Hk0 Hc0.
    assert (Hsimple : is_success result = true <->
                      integer_between 60000 157680000000 v).
    { rewrite Hiff. split.
      - intros (q & t & Hq & Hz & Hr & _). exists q, t. auto.
      - intros (q & t & Hq & Hz & Hr). exists q, t.
        repeat split; try assumption; lia. }
    split; [exact Hsimple|].
    unfold result in Hsimple. rewrite validate_success in Hsimple. exact Hsimple.
  - unfold result. symmetry. apply validate_success.
  - intros data Hdata. exact (provided_timeout_kept D props v data Hv Hdef Hdata).
  - exact (timeoutMs_reported_iff_out_of_range D props v Hv Hdef).
Qed.

Lemma timeoutMs_accepted_iff_integer_in_range_witness :
  let props := [("timeoutMs", JsNum (of_Z 60000)); ("maxCount", JsNum (of_Z 5))] in
  let result := validateSessionConfigSafe sample_defaults (JsObject props) in
  get_prop "timeoutMs" props = JsNum (of_Z 60000) /\
  JsNum (of_Z 60000) <> JsUndefined /\
  extraKeys props = [] /\
  integer_between 60000 157680000000 (JsNum (of_Z 60000)) /\
  is_success result = true /\
  returns (parseSessionConfig sample_defaults (JsObject props)) = true.
Proof.
  intros props result.
  assert (Hdef : JsNum (of_Z 60000) <> JsUndefined) by discriminate.
  assert (Hin : integer_between 60000 157680000000 (JsNum (of_Z 60000))).
  { exists (inject_Z 60000), 60000.
    split; [reflexivity|]. split; [reflexivity | lia]. }
  assert (Hmc : effective MIN_SESSION_COUNT MAX_SESSION_COUNT
                  (get_prop "maxCount" props)
                  (DEFAULT_SESSION_MAX_COUNT sample_defaults) 5).
  { right. exists (inject_Z 5). split; [reflexivity|]. split; [reflexivity|].
    unfold MIN_SESSION_COUNT, MAX_SESSION_COUNT. lia. }
  destruct (timeoutMs_accepted_iff_integer_in_range sample_defaults props
              (JsNum (of_Z 60000)) eq_refl Hdef) as [Hacc _].
  destruct (Hacc 60000 30000 3 5
              (or_introl (conj eq_refl eq_refl))
              (or_introl (conj eq_refl eq_refl))
              (or_introl (conj eq_refl eq_refl))
              Hmc eq_refl) as [_ Hsimple].
  assert (Hk0 : 30000 < 60000) by lia.
  assert (Hc0 : 60000 <= 60000) by lia.
  destruct (Hsimple Hk0 Hc0) as [Hsafe Hparse].
  split; [reflexivity|]. split; [exact Hdef|]. split; [reflexivity|].
  split; [exact Hin|].
  split; [exact (proj2 Hsafe Hin) | exact (proj2 Hparse Hin)].
Defined.

Example timeout_at_the_bounds_accepted :
  isValidTimeout sample_defaults (JsNum (of_Z 60000)) = true /\
  isValidTimeout sample_defaults (JsNum (of_Z 157680000000)) = true /\
  isValidTimeout sample_defaults (JsNum (of_Z 157680000001)) = false /\
  isValidTimeout sample_defaults (JsNum (Finite (120001 # 2))) = false /\
  isValidTimeout sample_defaults (JsNum PosInfinity) = false /\
  isValidTimeout sample_defaults (JsString "60000") = false.
Proof. repeat split; reflexivity. Qed.

(** C2.  For every configuration object whose five fields are each omitted
    or an integer within the field's bounds, with [k], [c] and [t] the
    effective keep-alive interval, cleanup interval and timeout (the
    provided value, or the default when omitted): validation fails if
    [k >= t] or [c > t]; the keep-alive check fails exactly when [k >= t]
    and the cleanup check exactly when [c > t]; and validation succeeds
    exactly when both checks pass and the object has no unrecognized key. *)
Theorem cross_field_checks :
  forall (D : SessionDefaults) (props : list (string * JsValue)) (t c k hb mc : Z),
    effective MIN_TIMEOUT_MS MAX_TIMEOUT_MS (get_prop "timeoutMs" props)
      (DEFAULT_SESSION_TIMEOUT_MS D) t ->
    effective MIN_CLEANUP_INTERVAL_MS MAX_CLEANUP_INTERVAL_MS
      (get_prop "cleanupIntervalMs" props)
      (DEFAULT_SESSION_CLEANUP_INTERVAL_MS D) c ->
    effective MIN_KEEP_ALIVE_INTERVAL_MS MAX_KEEP_ALIVE_INTERVAL_MS
      (get_prop "keepAliveIntervalMs" props)
      (DEFAULT_SESSION_KEEP_ALIVE_INTERVAL_MS D) k ->
    effective MIN_MISSED_HEARTBEATS MAX_MISSED_HEARTBEATS
      (get_prop "maxMissedHeartbeats" props)
      (DEFAULT_SESSION_MAX_MISSED_HEARTBEATS D) hb ->
    effective MIN_SESSION_COUNT MAX_SESSION_COUNT (get_prop "maxCount" props)
      (DEFAULT_SESSION_MAX_COUNT D) mc ->
    let result := validateSessionConfigSafe D (JsObject props) in
    (k >= t \/ c > t ->
     is_success result = false /\
     returns (parseSessionConfig D (JsObject props)) = false) /\
    (In keepAlive_issue (errors_of result) <-> k >= t) /\
    (In cleanup_issue (errors_of result) <-> c > t) /\
    (is_success result = true <-> k < t /\ c <= t /\ extraKeys props = []).
Proof.
  intros D props t c k hb mc Ht Hc Hk Hhb Hmc result.
  destruct (base_of_effective D props t c k hb mc Ht Hc Hk Hhb Hmc)
    as (config & Hbase & Hka & Hcl).
  assert (Hsucc : is_success result = true <-> k < t /\ c <= t /\ extraKeys props = []).
  { unfold result, validateSessionConfigSafe, safeParse, SessionConfigSchema,
      applySessionConfigRefinements, ZodRefine.
    rewrite Hbase.
    destruct (extraKeys props) as [|x extra];
      cbn -[keepAlive_lt_timeout cleanup_le_timeout]; rewrite Hka;
      destruct (Z.ltb_spec k t);
      cbn -[keepAlive_lt_timeout cleanup_le_timeout]; rewrite Hcl;
      destruct (Z.leb_spec c t); simpl;
      split; try discriminate; try (intros _; repeat split; auto; lia);
      try (intros (? & ? & ?); first [lia | discriminate | reflexivity]). }
  assert (Herr : errors_of result =
                 (match extraKeys props with
                  | [] => []
                  | _ :: _ => [unrecognized_keys_issue]
                  end) ++
                 (if (k <? t)%Z then [] else [keepAlive_issue]) ++
                 (if (c <=? t)%Z then [] else [cleanup_issue])).
  { unfold result. rewrite validate_errors.
    unfold SessionConfigSchema, applySessionConfigRefinements, ZodRefine.
    rewrite Hbase.
    destruct (extraKeys props) as [|x extra];
      cbn -[keepAlive_lt_timeout cleanup_le_timeout]; rewrite Hka;
      destruct (k <? t)%Z;
      cbn -[keepAlive_lt_timeout cleanup_le_timeout]; rewrite Hcl;
      destruct (c <=? t)%Z; reflexivity. }
  split; [|split; [|split]].
  - intros Hviol. rewrite <- validate_success.
    assert (is_success result = false).
    { destruct (is_success result); [|reflexivity].
      destruct (proj1 Hsucc eq_refl) as (? & ? & _). lia. }
    auto.
  - rewrite Herr, !in_app_iff.
    destruct (extraKeys props), (Z.ltb_spec k t), (Z.leb_spec c t); simpl;
      split; intros Hin; try lia;
      repeat match goal with
             | H : _ \/ _ |- _ => destruct H
             | H : False |- _ => destruct H
             | H : _ = keepAlive_issue |- _ => discriminate H
             end; auto.
  - rewrite Herr, !in_app_iff.
    destruct (extraKeys props), (Z.ltb_spec k t), (Z.leb_spec c t); simpl;
      split; intros Hin; try lia;
      repeat match goal with
             | H : _ \/ _ |- _ => destruct H
             | H : False |- _ => destruct H
             | H : _ = cleanup_issue |- _ => discriminate H
             end; auto.
  - exact Hsucc.
Qed.

Lemma cross_field_checks_witness :
  effective MIN_TIMEOUT_MS MAX_TIMEOUT_MS
    (get_prop "timeoutMs" [("timeoutMs", JsNum (of_Z 60000))])
    (DEFAULT_SESSION_TIMEOUT_MS sample_defaults) 60000 /\
  let props := [("timeoutMs", JsNum (of_Z 60000))] in
  let result := validateSessionConfigSafe sample_defaults (JsObject props) in
  (30000 >= 60000 \/ 60000 > 60000 ->
   is_success result = false /\
   returns (parseSessionConfig sample_defaults (JsObject props)) = false) /\
  (In keepAlive_issue (errors_of result) <-> 30000 >= 60000) /\
  (In cleanup_issue (errors_of result) <-> 60000 > 60000) /\
  (is_success result = true <-> 30000 < 60000 /\ 60000 <= 60000 /\ extraKeys props = []).
Proof.
  assert (Ht : effective MIN_TIMEOUT_MS MAX_TIMEOUT_MS
                 (get_prop "timeoutMs" [("timeoutMs", JsNum (of_Z 60000))])
                 (DEFAULT_SESSION_TIMEOUT_MS sample_defaults) 60000).
  { right. exists (inject_Z 60000). split; [reflexivity|]. split; [reflexivity|].
    rewrite MAX_TIMEOUT_MS_value. unfold MIN_TIMEOUT_MS. lia. }
  split; [exact Ht|].
  apply (cross_field_checks sample_defaults [("timeoutMs", JsNum (of_Z 60000))]
           60000 60000 30000 3 100).
  - exact Ht.
  - left. split; reflexivity.
  - left. split; reflexivity.
  - left. split; reflexivity.
  - left. split; reflexivity.
Defined.

(* ====================================================================== *)
(** * Unrecognized keys *)
(* ====================================================================== *)

Lemma mem_string_In (k : string) (l : list string) : mem_string k l = true <-> In k l.
Proof.
  induction l as [|x l IH]; simpl.
  - split; [discriminate | contradiction].
  - rewrite orb_true_iff, IH, String.eqb_eq. reflexivity.
Qed.

Lemma extraKeys_In (props : list (string * JsValue)) (key : string) :
  In key (extraKeys props) <-> In key (map fst props) /\ ~ In key shapeKeys.
Proof.
  unfold extraKeys. rewrite filter_In, negb_true_iff.
  rewrite <- (mem_string_In key shapeKeys).
  destruct (mem_string key shapeKeys); intuition congruence.
Qed.

(** C9.  A configuration object with a key other than the five of the
    schema is rejected: [parseSessionConfig] throws and
    [validateSessionConfigSafe] returns a failure, one of whose errors is
    the [unrecognized_keys] issue. *)
Theorem unrecognized_key_rejected :
  forall (D : SessionDefaults) (props : list (string * JsValue)) (key : string),
    In key (map fst props) ->
    ~ In key ["timeoutMs"; "cleanupIntervalMs"; "keepAliveIntervalMs";
              "maxMissedHeartbeats"; "maxCount"] ->
    returns (parseSessionConfig D (JsObject props)) = false /\
    is_success (validateSessionConfigSafe D (JsObject props)) = false /\
    In unrecognized_keys_issue
       (errors_of (validateSessionConfigSafe D (JsObject props))).
Proof.
  intros D props key Hkey Hnew.
  assert (Hextra : In key (extraKeys props)) by (apply extraKeys_In; auto).
  assert (Hissue : In (mkIssue unrecognized_keys [] ErrorMapDefault)
                      (snd (SessionConfigSchema D [] (JsObject props)))).
  { destruct (schema_issues D props) as (refinements & Heq & _).
    rewrite Heq, base_issues, !in_app_iff.
    destruct (extraKeys props); [destruct Hextra|].
    left. do 5 right. left. reflexivity. }
  rewrite <- validate_success, validate_errors.
  repeat split; try apply (issue_fails _ _ _ Hissue).
  apply (in_map to_detail) in Hissue. exact Hissue.
Qed.

Lemma unrecognized_key_rejected_witness :
  In "ttl" (map fst [("ttl", JsNum (of_Z 60000))]) /\
  returns (parseSessionConfig sample_defaults
             (JsObject [("ttl", JsNum (of_Z 60000))])) = false /\
  is_success (validateSessionConfigSafe sample_defaults
                (JsObject [("ttl", JsNum (of_Z 60000))])) = false /\
  In unrecognized_keys_issue
     (errors_of (validateSessionConfigSafe sample_defaults
                   (JsObject [("ttl", JsNum (of_Z 60000))]))).
Proof.
  split; [left; reflexivity|].
  apply (unrecognized_key_rejected sample_defaults
           [("ttl", JsNum (of_Z 60000))] "ttl").
  - left; reflexivity.
  - simpl. intros H.
    repeat match goal with
           | H : _ \/ _ |- _ => destruct H
           | H : _ = "ttl" |- _ => discriminate H
           end; assumption.
Defined.

(* ====================================================================== *)
(** * Session identifiers *)
(* ====================================================================== *)

Lemma SessionIdSchema_on_string (s : string) :
  SessionIdSchema [] (JsString s) =
  settle s
    ((if Nat.ltb (String.length s) 1
      then [mkIssue too_small [] (Supplied "Session ID cannot be empty")] else []) ++
     (if Nat.ltb 256 (String.length s)
      then [mkIssue too_big [] (Supplied "Session ID is too long (max 256 characters)")]
      else [])).
Proof. reflexivity. Qed.

(** C4.  Session-identifier validation accepts a value if and only if it is
    a string of 1 to 256 characters: [isValidSessionId] is true exactly on
    those, [parseSessionId] returns exactly on those (and returns the string
    as it is), and [validateSessionIdSafe] succeeds exactly on those.  The
    empty string, longer strings and non-strings are rejected. *)
Theorem session_id_accepted_iff_length_1_to_256 :
  forall v : JsValue,
    (isValidSessionId v = true <->
     exists s, v = JsString s /\ (1 <= String.length s <= 256)%nat) /\
    (forall s, parseSessionId v = Returns s <->
               v = JsString s /\ (1 <= String.length s <= 256)%nat) /\
    (forall s, validateSessionIdSafe v = ValidationSuccess s <->
               v = JsString s /\ (1 <= String.length s <= 256)%nat) /\
    returns (parseSessionId v) = isValidSessionId v /\
    is_success (validateSessionIdSafe v) = isValidSessionId v.
Proof.
  intros v.
  destruct v as [| |b|n|s|items|props|];
    try (repeat split; try reflexivity; try discriminate;
         first [ intros (s & H & _); discriminate H
               | intros (H & _); discriminate H ]).
  unfold isValidSessionId, parseSessionId, validateSessionIdSafe, parse, safeParse.
  rewrite SessionIdSchema_on_string.
  destruct (Nat.ltb_spec (String.length s) 1) as [Hlo | Hlo],
           (Nat.ltb_spec 256 (String.length s)) as [Hhi | Hhi];
    cbn [settle app fst snd success returns is_success];
    (split; [|split; [|split; [|split]]]); try reflexivity.
  all: try (split; [discriminate | intros (s' & Hs & Hl); inversion Hs; subst; lia]).
  all: try (intros s'; split;
            [discriminate | intros (Hs & Hl); inversion Hs; subst; lia]).
  - split; [intros _; exists s; split; [reflexivity | lia] | reflexivity].
  - intros s'. split.
    + intros H. inversion H. subst. split; [reflexivity | lia].
    + intros (Hs & _). inversion Hs. reflexivity.
  - intros s'. split.
    + intros H. inversion H. subst. split; [reflexivity | lia].
    + intros (Hs & _). inversion Hs. reflexivity.
Qed.

Example session_id_empty_rejected : isValidSessionId (JsString "") = false.
Proof. reflexivity. Qed.

Example session_id_number_rejected : isValidSessionId (JsNum (of_Z 7)) = false.
Proof. reflexivity. Qed.

Example session_id_one_character_accepted : isValidSessionId (JsString "a") = true.
Proof. reflexivity. Qed.

(* ====================================================================== *)
(** * The helper predicates and the defaults *)
(* ====================================================================== *)

(** A defaulted bounded-integer schema treats [undefined] as its default. *)
Lemma default_substituted r t m lo a hi b (d : Z) :
  safeParse (ZodDefault (ZodNumber_int_min_max r t m (of_Z lo) a (of_Z hi) b)
               (JsNum (of_Z d))) JsUndefined =
  safeParse (ZodDefault (ZodNumber_int_min_max r t m (of_Z lo) a (of_Z hi) b)
               (JsNum (of_Z d))) (JsNum (of_Z d)).
Proof. reflexivity. Qed.

Lemma default_accepted r t m lo a hi b (d : Z) :
  lo <= d <= hi ->
  safeParse (ZodDefault (ZodNumber_int_min_max r t m (of_Z lo) a (of_Z hi) b)
               (JsNum (of_Z d))) JsUndefined = SafeParseSuccess (of_Z d).
Proof.
  intros Hd.
  assert (Hb : in_bounds lo hi (of_Z d) = true).
  { rewrite in_bounds_of_Z. apply andb_true_intro. rewrite !Z.leb_le. lia. }
  unfold in_bounds in Hb.
  apply andb_prop in Hb as [Hb Hhi]. apply andb_prop in Hb as [Hint Hlo].
  apply negb_true_iff in Hlo, Hhi.
  unfold safeParse, ZodDefault. cbn [is_undefined].
  unfold of_Z in *. cbv beta iota delta [ZodNumber_int_min_max].
  rewrite Hint, Hlo, Hhi. reflexivity.
Qed.

(** C10.  On the input [undefined], each of the five per-field helper
    predicates answers as it does on its schema's default, hence returns
    [true] when the default is within the schema's bounds; and
    [isValidSessionId] returns [false], its schema having no default. *)
Theorem helpers_on_undefined :
  forall D : SessionDefaults,
    defaults_in_bounds D ->
    (isValidTimeout D JsUndefined = true /\
     isValidCleanupInterval D JsUndefined = true /\
     isValidKeepAliveInterval D JsUndefined = true /\
     isValidMaxMissedHeartbeats D JsUndefined = true /\
     isValidMaxCount D JsUndefined = true) /\
    (isValidTimeout D JsUndefined =
       isValidTimeout D (JsNum (of_Z (DEFAULT_SESSION_TIMEOUT_MS D))) /\
     isValidCleanupInterval D JsUndefined =
       isValidCleanupInterval D (JsNum (of_Z (DEFAULT_SESSION_CLEANUP_INTERVAL_MS D))) /\
     isValidKeepAliveInterval D JsUndefined =
       isValidKeepAliveInterval D
         (JsNum (of_Z (DEFAULT_SESSION_KEEP_ALIVE_INTERVAL_MS D))) /\
     isValidMaxMissedHeartbeats D JsUndefined =
       isValidMaxMissedHeartbeats D
         (JsNum (of_Z (DEFAULT_SESSION_MAX_MISSED_HEARTBEATS D))) /\
     isValidMaxCount D JsUndefined =
       isValidMaxCount D (JsNum (of_Z (DEFAULT_SESSION_MAX_COUNT D)))) /\
    isValidSessionId JsUndefined = false.
Proof.
  intros D (Ht & Hc & Hk & Hh & Hm).
  split; [|split; [repeat split; reflexivity | reflexivity]].
  unfold isValidTimeout, isValidCleanupInterval, isValidKeepAliveInterval,
    isValidMaxMissedHeartbeats, isValidMaxCount,
    SessionTimeoutSchema, SessionCleanupIntervalSchema,
    SessionKeepAliveIntervalSchema, SessionMaxMissedHeartbeatsSchema,
    SessionMaxCountSchema.
  rewrite !default_accepted by assumption.
  repeat split; reflexivity.
Qed.

Lemma sample_defaults_in_bounds : defaults_in_bounds sample_defaults.
Proof.
  unfold defaults_in_bounds. rewrite MAX_TIMEOUT_MS_value. simpl.
  unfold spec_DEFAULT_SESSION_TIMEOUT_MS,
    MIN_TIMEOUT_MS, MIN_CLEANUP_INTERVAL_MS, MAX_CLEANUP_INTERVAL_MS,
    MIN_KEEP_ALIVE_INTERVAL_MS, MAX_KEEP_ALIVE_INTERVAL_MS, MIN_MISSED_HEARTBEATS,
    MAX_MISSED_HEARTBEATS, MIN_SESSION_COUNT, MAX_SESSION_COUNT.
  lia.
Defined.

Lemma helpers_on_undefined_witness :
  defaults_in_bounds sample_defaults /\
  (isValidTimeout sample_defaults JsUndefined = true /\
   isValidCleanupInterval sample_defaults JsUndefined = true /\
   isValidKeepAliveInterval sample_defaults JsUndefined = true /\
   isValidMaxMissedHeartbeats sample_defaults JsUndefined = true /\
   isValidMaxCount sample_defaults JsUndefined = true).
Proof.
  split; [exact sample_defaults_in_bounds|].
  exact (proj1 (helpers_on_undefined sample_defaults sample_defaults_in_bounds)).
Defined.

(** A default outside the bounds makes the helper answer [false] on
    [undefined]: the answer on [undefined] is the validity of the default. *)
Example helper_follows_the_default :
  isValidTimeout
    {| DEFAULT_SESSION_TIMEOUT_MS := 1000;
       DEFAULT_SESSION_CLEANUP_INTERVAL_MS := 60000;
       DEFAULT_SESSION_KEEP_ALIVE_INTERVAL_MS := 30000;
       DEFAULT_SESSION_MAX_MISSED_HEARTBEATS := 3;
       DEFAULT_SESSION_MAX_COUNT := 100 |} JsUndefined = false.
Proof. reflexivity. Qed.

(* ====================================================================== *)
(** * Environment parsing and startup *)
(* ====================================================================== *)

(** [parseFrameworkEnv] returns only if the session timeout variable parsed
    with status "valid", and then carries its value. *)
Lemma parseFrameworkEnv_timeout rt env cfg :
  parseFrameworkEnv rt env = Returns cfg ->
  fst (MCP_SESSION_TIMEOUT_MS_schema rt ["MCP_SESSION_TIMEOUT_MS"]
         (env_get "MCP_SESSION_TIMEOUT_MS" env)) = OK (MCP_SESSION_TIMEOUT_MS cfg).
Proof.
  unfold parseFrameworkEnv, frameworkEnvSchema.
  set (F9 := MCP_SESSION_TIMEOUT_MS_schema rt ["MCP_SESSION_TIMEOUT_MS"]
               (env_get "MCP_SESSION_TIMEOUT_MS" env)).
  clearbody F9.
  repeat match goal with
         | |- context [merge _ (?s ?p (env_get ?n env))] =>
             generalize (s p (env_get n env)); intro
         end.
  match goal with
  | |- match ?c with _ => _ end = _ -> _ => destruct c as [[x|x|] issues] eqn:E
  end; try discriminate.
  intros H. injection H as ->.
  apply (f_equal fst) in E. cbn [fst] in E.
  apply merge_OK_inv in E as (g18 & v18 & E & _ & ->).
  apply merge_OK_inv in E as (g17 & v17 & E & _ & ->).
  apply merge_OK_inv in E as (g16 & v16 & E & _ & ->).
  apply merge_OK_inv in E as (g15 & v15 & E & _ & ->).
  apply merge_OK_inv in E as (g14 & v14 & E & _ & ->).
  apply merge_OK_inv in E as (g13 & v13 & E & _ & ->).
  apply merge_OK_inv in E as (g12 & v12 & E & _ & ->).
  apply merge_OK_inv in E as (g11 & v11 & E & _ & ->).
  apply merge_OK_inv in E as (g10 & v10 & E & _ & ->).
  apply merge_OK_inv in E as (g9 & v9 & E & H9 & ->).
  apply merge_OK_inv in E as (g8 & v8 & E & _ & ->).
  apply merge_OK_inv in E as (g7 & v7 & E & _ & ->).
  apply merge_OK_inv in E as (g6 & v6 & E & _ & ->).
  apply merge_OK_inv in E as (g5 & v5 & E & _ & ->).
  apply merge_OK_inv in E as (g4 & v4 & E & _ & ->).
  apply merge_OK_inv in E as (g3 & v3 & E & _ & ->).
  apply merge_OK_inv in E as (g2 & v2 & E & _ & ->).
  apply merge_OK_inv in E as (g1 & v1 & E & _ & ->).
  cbn [fst] in E. injection E as <-. exact H9.
Qed.

(** What the schema of the session timeout variable does with a string:
    the coerced number is checked against the lower bound only. *)
Lemma timeout_variable_on_string rt p s :
  MCP_SESSION_TIMEOUT_MS_schema rt p (JsString s) =
  match StringToNumber rt s with
  | NaN => (INVALID, [mkIssue invalid_type p ErrorMapDefault])
  | n => if js_lt n (of_Z 60000)
         then (DIRTY n, [mkIssue too_small p ErrorMapDefault])
         else (OK n, [])
  end.
Proof.
  unfold MCP_SESSION_TIMEOUT_MS_schema, ZodDefault, ZodCoerceNumber_min.
  cbn [is_undefined ToNumber].
  destruct (StringToNumber rt s) as [| | |q]; try reflexivity.
  destruct (js_lt (Finite q) (of_Z 60000)); reflexivity.
Qed.

Lemma timeout_variable_omitted rt p :
  MCP_SESSION_TIMEOUT_MS_schema rt p JsUndefined = (OK (of_Z 1800000), []).
Proof. reflexivity. Qed.

Section StartupFacts.

Variable rt : JsRuntime.
Variable SessionManager : Type.
Variable new_TransportSessionManager : JsValue -> Thrown SessionManager.

(** [startHttpServer] returns only if the environment parsed and the
    session manager constructor returned on the parsed timeout. *)
Lemma startHttpServer_returns env options srv :
  startHttpServer rt new_TransportSessionManager env options = Returns srv ->
  exists cfg,
    parseFrameworkEnv rt env = Returns cfg /\
    new_TransportSessionManager
      (JsObject [("timeoutMs", JsNum (MCP_SESSION_TIMEOUT_MS cfg))]) =
      Returns (sessionManager srv).
Proof.
  unfold startHttpServer, createExpressApp.
  destruct (parseFrameworkEnv rt env) as [cfg | issues]; [|discriminate].
  destruct (new_TransportSessionManager _) as [manager | issues] eqn:E;
    [|discriminate].
  intros H. injection H as <-. exists cfg. split; [reflexivity | exact E].
Qed.

(** Once the environment has parsed, the outcome of [createExpressApp] is
    that of the session manager constructor on the parsed timeout. *)
Lemma createExpressApp_after_parse env cfg :
  parseFrameworkEnv rt env = Returns cfg ->
  createExpressApp rt new_TransportSessionManager env =
  match new_TransportSessionManager
          (JsObject [("timeoutMs", JsNum (MCP_SESSION_TIMEOUT_MS cfg))])
  with
  | ThrowsZodError issues => ThrowsZodError issues
  | Returns manager => Returns (app_stack, manager)
  end.
Proof. unfold createExpressApp. intros ->. reflexivity. Qed.

(** A [ZodError] from the environment parse leaves [createExpressApp] and
    [startHttpServer] before the session manager is constructed, whatever
    its constructor does. *)
Lemma startup_aborts env options :
  returns (parseFrameworkEnv rt env) = false ->
  returns (createExpressApp rt new_TransportSessionManager env) = false /\
  returns (startHttpServer rt new_TransportSessionManager env options) = false.
Proof.
  unfold startHttpServer, createExpressApp.
  destruct (parseFrameworkEnv rt env); [discriminate | split; reflexivity].
Qed.

End StartupFacts.

(** The validated configuration of an object that omits [timeoutMs] has no
    [timeoutMs]. *)
Lemma omitted_timeout_stays_undefined D props config :
  get_prop "timeoutMs" props = JsUndefined ->
  parseSessionConfig D (JsObject props) = Returns config ->
  timeoutMs config = None.
Proof.
  intros Hprop. unfold parseSessionConfig, parse, safeParse.
  destruct (SessionConfigSchema D [] (JsObject props)) as [[x|x|] issues] eqn:E;
    try discriminate.
  intros H. injection H as ->.
  apply (f_equal fst) in E. cbn [fst] in E.
  unfold SessionConfigSchema, applySessionConfigRefinements in E.
  apply ZodRefine_OK_inv in E as [E _].
  apply ZodRefine_OK_inv in E as [E _].
  rewrite base_on_object in E.
  apply strict_check_OK_inv in E as [_ E].
  apply merge_OK_inv in E as (g5 & v5 & E & _ & ->).
  apply merge_OK_inv in E as (g4 & v4 & E & _ & ->).
  apply merge_OK_inv in E as (g3 & v3 & E & _ & ->).
  apply merge_OK_inv in E as (g2 & v2 & E & _ & ->).
  apply merge_OK_inv in E as (g1 & v1 & E & H1 & ->).
  cbn [fst] in E. injection E as <-.
  rewrite Hprop in H1. cbn in H1. injection H1 as <-. reflexivity.
Qed.

(** C5, as the code has it.  When the session timeout is omitted: the
    timeout schema on its own yields the default, 1,800,000 ms; the
    validated configuration object keeps [timeoutMs] undefined, and the
    cross-field checks read it as the default, 1,800,000 ms; the environment
    schema yields exactly 1,800,000 ms, which is the [timeoutMs] that
    [createExpressApp] constructs the session manager with. *)
Theorem omitted_timeout_default :
  forall (D : SessionDefaults) (rt : JsRuntime)
         (SessionManager : Type)
         (new_TransportSessionManager : JsValue -> Thrown SessionManager)
         (props : list (string * JsValue)) (env : ProcessEnv),
    DEFAULT_SESSION_TIMEOUT_MS D = spec_DEFAULT_SESSION_TIMEOUT_MS ->
    get_prop "timeoutMs" props = JsUndefined ->
    lookup "MCP_SESSION_TIMEOUT_MS" env = None ->
    safeParse (SessionTimeoutSchema D) JsUndefined = SafeParseSuccess (of_Z 1800000) /\
    (forall config,
        parseSessionConfig D (JsObject props) = Returns config ->
        timeoutMs config = None /\
        nullish (timeoutMs config) (of_Z (DEFAULT_SESSION_TIMEOUT_MS D)) =
          of_Z 1800000) /\
    MCP_SESSION_TIMEOUT_MS_schema rt ["MCP_SESSION_TIMEOUT_MS"]
      (env_get "MCP_SESSION_TIMEOUT_MS" env) = (OK (of_Z 1800000), []) /\
    (forall cfg,
        parseFrameworkEnv rt env = Returns cfg ->
        MCP_SESSION_TIMEOUT_MS cfg = of_Z 1800000) /\
    (forall stack manager,
        createExpressApp rt new_TransportSessionManager env =
          Returns (stack, manager) ->
        new_TransportSessionManager
          (JsObject [("timeoutMs", JsNum (of_Z 1800000))]) = Returns manager).
Proof.
  intros D rt SessionManager new_TransportSessionManager props env HD Hprop Henv.
  assert (Hfield : MCP_SESSION_TIMEOUT_MS_schema rt ["MCP_SESSION_TIMEOUT_MS"]
                     (env_get "MCP_SESSION_TIMEOUT_MS" env) = (OK (of_Z 1800000), [])).
  { unfold env_get. rewrite Henv. apply timeout_variable_omitted. }
  assert (Hcfg : forall cfg, parseFrameworkEnv rt env = Returns cfg ->
                             MCP_SESSION_TIMEOUT_MS cfg = of_Z 1800000).
  { intros cfg H. apply parseFrameworkEnv_timeout in H.
    rewrite Hfield in H. cbn [fst] in H. injection H as H. symmetry. exact H. }
  split; [|split; [|split; [|split]]].
  - unfold SessionTimeoutSchema. rewrite HD. apply default_accepted.
    unfold spec_DEFAULT_SESSION_TIMEOUT_MS, MIN_TIMEOUT_MS.
    rewrite MAX_TIMEOUT_MS_value. lia.
  - intros config H.
    rewrite (omitted_timeout_stays_undefined D props config Hprop H).
    split; [reflexivity|]. simpl. rewrite HD. reflexivity.
  - exact Hfield.
  - exact Hcfg.
  - intros stack manager. unfold createExpressApp.
    destruct (parseFrameworkEnv rt env) as [cfg | issues] eqn:E; [|discriminate].
    rewrite (Hcfg cfg eq_refl).
    destruct (new_TransportSessionManager _) as [m | issues]; [|discriminate].
    intros H. injection H as _ <-. reflexivity.
Qed.

Lemma omitted_timeout_default_witness :
  DEFAULT_SESSION_TIMEOUT_MS sample_defaults = spec_DEFAULT_SESSION_TIMEOUT_MS /\
  get_prop "timeoutMs" [("maxCount", JsNum (of_Z 5))] = JsUndefined /\
  lookup "MCP_SESSION_TIMEOUT_MS" [("MCP_PORT", "8080")] = None /\
  returns (parseSessionConfig sample_defaults
             (JsObject [("maxCount", JsNum (of_Z 5))])) = true /\
  returns (parseFrameworkEnv sample_runtime [("MCP_PORT", "8080")]) = true /\
  safeParse (SessionTimeoutSchema sample_defaults) JsUndefined =
    SafeParseSuccess (of_Z 1800000) /\
  (forall config,
      parseSessionConfig sample_defaults
        (JsObject [("maxCount", JsNum (of_Z 5))]) = Returns config ->
      timeoutMs config = None /\
      nullish (timeoutMs config)
        (of_Z (DEFAULT_SESSION_TIMEOUT_MS sample_defaults)) = of_Z 1800000) /\
  MCP_SESSION_TIMEOUT_MS_schema sample_runtime ["MCP_SESSION_TIMEOUT_MS"]
    (env_get "MCP_SESSION_TIMEOUT_MS" [("MCP_PORT", "8080")]) =
    (OK (of_Z 1800000), []) /\
  (forall cfg,
      parseFrameworkEnv sample_runtime [("MCP_PORT", "8080")] = Returns cfg ->
      MCP_SESSION_TIMEOUT_MS cfg = of_Z 1800000) /\
  (forall stack manager,
      createExpressApp sample_runtime (TransportSessionManager sample_defaults)
        [("MCP_PORT", "8080")] = Returns (stack, manager) ->
      TransportSessionManager sample_defaults
        (JsObject [("timeoutMs", JsNum (of_Z 1800000))]) = Returns manager).
Proof.
  split; [reflexivity|]. split; [reflexivity|]. split; [reflexivity|].
  split; [reflexivity|]. split; [reflexivity|].
  apply (omitted_timeout_default sample_defaults sample_runtime
           SessionConfig (TransportSessionManager sample_defaults)
           [("maxCount", JsNum (of_Z 5))] [("MCP_PORT", "8080")]);
    reflexivity.
Defined.

(** C5, as stated, fails: with the default at 1,800,000 ms, the validated
    configuration of the empty object has no [timeoutMs] at all. *)
Lemma omitted_timeout_not_filled_in :
  DEFAULT_SESSION_TIMEOUT_MS sample_defaults = 1800000 /\
  exists config,
    parseSessionConfig sample_defaults (JsObject []) = Returns config /\
    timeoutMs config = None /\
    timeoutMs config <> Some (of_Z 1800000).
Proof.
  split; [reflexivity|].
  eexists. split; [reflexivity|]. split; [reflexivity | discriminate].
Qed.

(** The session timeout variable is accepted exactly when its coercion is a
    number, [Infinity] included, that is not below 60,000. *)
Lemma timeout_variable_accepted rt p s n :
  fst (MCP_SESSION_TIMEOUT_MS_schema rt p (JsString s)) = OK n <->
  n = StringToNumber rt s /\ isNaN n = false /\ js_lt n (of_Z 60000) = false.
Proof.
  rewrite timeout_variable_on_string.
  destruct (StringToNumber rt s) as [| | |q] eqn:En.
  - simpl. split; [discriminate | intros (-> & H & _); discriminate H].
  - simpl. split; [intros H; injection H as <-; auto | intros (-> & _); reflexivity].
  - simpl. split; [discriminate | intros (-> & _ & H); discriminate H].
  - cbv beta iota zeta.
    destruct (js_lt (Finite q) (of_Z 60000)) eqn:Hlt; cbn [fst].
    + split; [discriminate | intros (-> & _ & H); congruence].
    + split; [intros H; injection H as <-; auto | intros (-> & _); reflexivity].
Qed.

(** What the environment parse does with the session timeout, whatever the
    constructor of the session manager is.  The value is rejected by the
    environment parse, and startup aborted before the session manager is
    constructed, exactly when its numeric coercion is [NaN] or below 60,000.
    The environment parse checks neither an upper bound nor that the number
    is an integer: any other value is the [timeoutMs] the session manager is
    constructed with, and whether startup goes on is then up to that
    constructor alone. *)
Theorem env_timeout_lower_bound_only :
  forall (rt : JsRuntime) (SessionManager : Type)
         (new_TransportSessionManager : JsValue -> Thrown SessionManager)
         (env : ProcessEnv) (options : HttpServerOptions) (s : string),
    lookup "MCP_SESSION_TIMEOUT_MS" env = Some s ->
    let n := StringToNumber rt s in
    (isNaN n = true \/ js_lt n (of_Z 60000) = true ->
     returns (parseFrameworkEnv rt env) = false /\
     returns (createExpressApp rt new_TransportSessionManager env) = false /\
     returns (startHttpServer rt new_TransportSessionManager env options) = false) /\
    (forall srv,
        startHttpServer rt new_TransportSessionManager env options = Returns srv ->
        isNaN n = false /\ js_lt n (of_Z 60000) = false /\
        new_TransportSessionManager (JsObject [("timeoutMs", JsNum n)]) =
          Returns (sessionManager srv)) /\
    (forall cfg,
        parseFrameworkEnv rt env = Returns cfg ->
        MCP_SESSION_TIMEOUT_MS cfg = n /\
        createExpressApp rt new_TransportSessionManager env =
          match new_TransportSessionManager (JsObject [("timeoutMs", JsNum n)]) with
          | ThrowsZodError issues => ThrowsZodError issues
          | Returns manager => Returns (app_stack, manager)
          end) /\
    (fst (MCP_SESSION_TIMEOUT_MS_schema rt ["MCP_SESSION_TIMEOUT_MS"]
            (env_get "MCP_SESSION_TIMEOUT_MS" env)) = OK n <->
     isNaN n = false /\ js_lt n (of_Z 60000) = false).
Proof.
  intros rt SessionManager new_TransportSessionManager env options s Henv n.
  assert (Hget : env_get "MCP_SESSION_TIMEOUT_MS" env = JsString s)
    by (unfold env_get; rewrite Henv; reflexivity).
  assert (Hcfg : forall cfg, parseFrameworkEnv rt env = Returns cfg ->
                   MCP_SESSION_TIMEOUT_MS cfg = n /\
                   isNaN n = false /\ js_lt n (of_Z 60000) = false).
  { intros cfg H. apply parseFrameworkEnv_timeout in H. rewrite Hget in H.
    apply timeout_variable_accepted in H as (Hn & Hnan & Hlt).
    fold n in Hn. rewrite <- Hn. auto. }
  split; [|split; [|split]].
  - intros Hbad.
    assert (Hthrows : returns (parseFrameworkEnv rt env) = false).
    { destruct (parseFrameworkEnv rt env) as [cfg | issues] eqn:E; [|reflexivity].
      destruct (Hcfg cfg eq_refl) as (_ & Hnan & Hlt).
      destruct Hbad; congruence. }
    split; [exact Hthrows|]. apply startup_aborts. exact Hthrows.
  - intros srv H. apply startHttpServer_returns in H as (cfg & Hparse & Hnew).
    destruct (Hcfg cfg Hparse) as (Hn & Hnan & Hlt).
    rewrite Hn in Hnew. auto.
  - intros cfg Hparse. destruct (Hcfg cfg Hparse) as (Hn & _).
    split; [exact Hn|].
    rewrite (createExpressApp_after_parse rt SessionManager
               new_TransportSessionManager env cfg Hparse), Hn.
    reflexivity.
  - rewrite Hget, timeout_variable_accepted. fold n. tauto.
Qed.

Lemma env_timeout_lower_bound_only_witness :
  let env := [("MCP_SESSION_TIMEOUT_MS", "157680000000.5")] in
  let rt := sample_runtime_reading (Finite (315360000001 # 2)) in
  lookup "MCP_SESSION_TIMEOUT_MS" env = Some "157680000000.5" /\
  isNaN (StringToNumber rt "157680000000.5") = false /\
  js_lt (StringToNumber rt "157680000000.5") (of_Z 60000) = false /\
  fst (MCP_SESSION_TIMEOUT_MS_schema rt ["MCP_SESSION_TIMEOUT_MS"]
         (env_get "MCP_SESSION_TIMEOUT_MS" env)) = OK (Finite (315360000001 # 2)).
Proof.
  intros env rt.
  split; [reflexivity|]. split; [reflexivity|]. split; [reflexivity|].
  destruct (env_timeout_lower_bound_only rt SessionConfig
              (TransportSessionManager sample_defaults) env
              {| port := None; bindHost := None |} "157680000000.5" eq_refl)
    as (_ & _ & _ & Hfield).
  exact (proj2 Hfield (conj eq_refl eq_refl)).
Defined.

(** The session manager constructor on the options [createExpressApp] gives
    it: it returns exactly when the timeout is an integer within the bounds
    that the default keep-alive interval lies below and the default cleanup
    interval does not exceed. *)
Lemma constructor_on_timeout D n :
  returns (TransportSessionManager D (JsObject [("timeoutMs", JsNum n)])) = true <->
  exists q t, n = Finite q /\ q == inject_Z t /\
              60000 <= t <= 157680000000 /\
              DEFAULT_SESSION_KEEP_ALIVE_INTERVAL_MS D < t /\
              DEFAULT_SESSION_CLEANUP_INTERVAL_MS D <= t.
Proof.
  unfold TransportSessionManager. rewrite <- validate_success.
  rewrite (provided_timeout_accepted D [("timeoutMs", JsNum n)] (JsNum n)
             (DEFAULT_SESSION_CLEANUP_INTERVAL_MS D)
             (DEFAULT_SESSION_KEEP_ALIVE_INTERVAL_MS D)
             (DEFAULT_SESSION_MAX_MISSED_HEARTBEATS D)
             (DEFAULT_SESSION_MAX_COUNT D));
    try (left; split; reflexivity); try reflexivity; try discriminate.
  split; intros (q & t & Hq & H); exists q, t;
    (split; [congruence | exact H]).
Qed.

(** C3.  With the session manager validating its options as the spec has
    it: a session timeout in the environment whose numeric coercion is not
    an integer from 60,000 to 157,680,000,000 (a timeout greater than
    157,680,000,000 ms in particular) makes [createExpressApp] and
    [startHttpServer] throw, so that the server never listens.  A value that
    is [NaN] or below 60,000 is rejected by the environment parse, before
    the session manager is constructed; the environment parse checks
    neither the upper bound nor that the number is an integer, and hands any
    other value unchanged to the constructor, which rejects it.  Startup
    goes on exactly when the environment parses and the timeout is an
    integer within the bounds that the default keep-alive and cleanup
    intervals fit under. *)
Theorem out_of_bounds_env_timeout_aborts_startup :
  forall (rt : JsRuntime) (D : SessionDefaults)
         (env : ProcessEnv) (options : HttpServerOptions) (s : string),
    lookup "MCP_SESSION_TIMEOUT_MS" env = Some s ->
    let n := StringToNumber rt s in
    let started := startHttpServer rt (TransportSessionManager D) env options in
    (~ integer_between 60000 157680000000 (JsNum n) ->
     returns (createExpressApp rt (TransportSessionManager D) env) = false /\
     returns started = false) /\
    (isNaN n = true \/ js_lt n (of_Z 60000) = true ->
     returns (parseFrameworkEnv rt env) = false) /\
    (forall cfg,
        parseFrameworkEnv rt env = Returns cfg ->
        MCP_SESSION_TIMEOUT_MS cfg = n /\
        createExpressApp rt (TransportSessionManager D) env =
          match TransportSessionManager D (JsObject [("timeoutMs", JsNum n)]) with
          | ThrowsZodError issues => ThrowsZodError issues
          | Returns manager => Returns (app_stack, manager)
          end) /\
    (returns started = true <->
     returns (parseFrameworkEnv rt env) = true /\
     exists q t, n = Finite q /\ q == inject_Z t /\
                 60000 <= t <= 157680000000 /\
                 DEFAULT_SESSION_KEEP_ALIVE_INTERVAL_MS D < t /\
                 DEFAULT_SESSION_CLEANUP_INTERVAL_MS D <= t).
Proof.
  intros rt D env options s Henv n started.
  assert (Hcreate : returns (createExpressApp rt (TransportSessionManager D) env)
                    = returns started).
  { unfold started, startHttpServer, createExpressApp.
    destruct (parseFrameworkEnv rt env) as [cfg | issues]; [|reflexivity].
    destruct (TransportSessionManager D _) as [manager | issues]; reflexivity. }
  assert (Hget : env_get "MCP_SESSION_TIMEOUT_MS" env = JsString s)
    by (unfold env_get; rewrite Henv; reflexivity).
  assert (Hcfg : forall cfg, parseFrameworkEnv rt env = Returns cfg ->
                   MCP_SESSION_TIMEOUT_MS cfg = n /\
                   isNaN n = false /\ js_lt n (of_Z 60000) = false).
  { intros cfg H. apply parseFrameworkEnv_timeout in H. rewrite Hget in H.
    apply timeout_variable_accepted in H as (Hn & Hnan & Hlt).
    fold n in Hn. rewrite <- Hn. auto. }
  assert (Hstart : returns started = true <->
                   returns (parseFrameworkEnv rt env) = true /\
                   returns (TransportSessionManager D
                              (JsObject [("timeoutMs", JsNum n)])) = true).
  { unfold started, startHttpServer, createExpressApp.
    destruct (parseFrameworkEnv rt env) as [cfg | issues] eqn:E.
    - destruct (Hcfg cfg eq_refl) as (-> & _).
      destruct (TransportSessionManager D _) as [manager | issues];
        cbn [returns]; tauto.
    - cbn [returns]. split; [discriminate | intros [H _]; discriminate H]. }
  split; [|split; [|split]].
  - intros Hnot.
    assert (Hfalse : returns started = false).
    { destruct (returns started) eqn:Hr; [exfalso | reflexivity].
      destruct (proj1 Hstart eq_refl) as [_ Hnew].
      apply constructor_on_timeout in Hnew as (q & t & Hq & Hz & Hb & _).
      apply Hnot. exists q, t. rewrite Hq. auto. }
    rewrite Hcreate. auto.
  - intros Hbad.
    destruct (parseFrameworkEnv rt env) as [cfg | issues] eqn:E; [|reflexivity].
    destruct (Hcfg cfg eq_refl) as (_ & Hnan & Hlt).
    destruct Hbad; congruence.
  - intros cfg Hparse. destruct (Hcfg cfg Hparse) as (Hn & _).
    split; [exact Hn|].
    rewrite (createExpressApp_after_parse rt SessionConfig
               (TransportSessionManager D) env cfg Hparse), Hn.
    reflexivity.
  - rewrite Hstart, constructor_on_timeout. reflexivity.
Qed.

Lemma out_of_bounds_env_timeout_aborts_startup_witness :
  let env := [("MCP_SESSION_TIMEOUT_MS", "157680000001")] in
  let options := {| port := None; bindHost := None |} in
  lookup "MCP_SESSION_TIMEOUT_MS" env = Some "157680000001" /\
  ~ integer_between 60000 157680000000
      (JsNum (StringToNumber sample_runtime "157680000001")) /\
  returns (parseFrameworkEnv sample_runtime env) = true /\
  returns (createExpressApp sample_runtime
             (TransportSessionManager sample_defaults) env) = false /\
  returns (startHttpServer sample_runtime
             (TransportSessionManager sample_defaults) env options) = false.
Proof.
  intros env options.
  assert (Hnot : ~ integer_between 60000 157680000000
                     (JsNum (StringToNumber sample_runtime "157680000001"))).
  { intros (q & z & Hq & Hz & Hr). injection Hq as <-.
    apply (proj1 (inject_Z_injective _ _)) in Hz. lia. }
  split; [reflexivity|]. split; [exact Hnot|]. split; [reflexivity|].
  exact (proj1 (out_of_bounds_env_timeout_aborts_startup sample_runtime
                  sample_defaults env options "157680000001" eq_refl) Hnot).
Defined.

(** A timeout within the bounds starts the server, and the least timeout
    below the bounds and the least above them do not. *)
Example env_timeout_at_the_bounds :
  let started s :=
    returns (startHttpServer sample_runtime
               (TransportSessionManager sample_defaults)
               [("MCP_SESSION_TIMEOUT_MS", s)]
               {| port := None; bindHost := None |}) in
  started "60000" = true /\
  started "157680000000" = true /\
  started "59999" = false /\
  started "157680000001" = false.
Proof. repeat split; reflexivity. Qed.

(* ====================================================================== *)
(** * Graceful shutdown *)
(* ====================================================================== *)

Lemma Awaited_eqb_eq (p q : Awaited) : Awaited_eqb p q = true <-> p = q.
Proof. destruct p, q; simpl; split; congruence. Qed.

Lemma Event_eqb_eq (a b : Event) : Event_eqb a b = true <-> a = b.
Proof.
  destruct a, b; simpl; try (split; [discriminate | congruence]);
    try (split; reflexivity).
  - rewrite String.eqb_eq. split; congruence.
  - rewrite Awaited_eqb_eq. split; congruence.
  - rewrite Awaited_eqb_eq. split; congruence.
  - rewrite Awaited_eqb_eq. split; congruence.
  - rewrite Z.eqb_eq. split; congruence.
Qed.

Lemma precedes_from_sound (a b : Event) (t : list Event) :
  forall seen,
    precedes_from seen a b t = true ->
    forall pre post, t = pre ++ b :: post -> seen = true \/ In a pre.
Proof.
  induction t as [|e rest IH]; intros seen Hcheck pre post Heq.
  - destruct pre; discriminate.
  - simpl in Hcheck. apply andb_prop in Hcheck as [Hhere Hrest].
    destruct pre as [|e' pre']; simpl in Heq; injection Heq as He Hr.
    + subst e. rewrite (proj2 (Event_eqb_eq b b) eq_refl) in Hhere. auto.
    + subst e'. destruct (IH _ Hrest pre' post Hr) as [Hseen | Hin].
      * apply orb_prop in Hseen as [Hseen | Hea]; [auto|].
        apply Event_eqb_eq in Hea. right. left. exact Hea.
      * right. right. exact Hin.
Qed.

Lemma precedes_decided (a b : Event) (t : list Event) :
  precedes_from false a b t = true -> precedes a b t.
Proof.
  intros H pre post Heq.
  destruct (precedes_from_sound a b t false H pre post Heq); [discriminate | assumption].
Qed.

(** C6.  For either termination signal, however the awaited promises settle
    and whether or not the listener ever finishes closing: the listener is
    asked to close only after [sessionManager.closeAll()] has completed and,
    with legacy mode enabled, after [closeAllSseSessions()] has completed;
    the process exits only after the listener has closed, and only with
    code 0.  When everything completes, the events are exactly the orderly
    sequence. *)
Theorem shutdown_order :
  forall (sseEnabled : bool) (s : Surroundings) (sig : Signal),
    let t := run_async s (on_signal sseEnabled sig) in
    precedes (Completed sessionManager_closeAll) ListenerCloseRequested t /\
    (sseEnabled = true ->
     precedes (Completed closeAllSseSessions) ListenerCloseRequested t) /\
    precedes ListenerCloseRequested ListenerClosed t /\
    precedes ListenerClosed (Exited 0) t /\
    (forall c, In (Exited c) t -> c = 0) /\
    (settles s sessionManager_closeAll = Fulfilled ->
     settles s closeAllSseSessions = Fulfilled ->
     listener_closes s = true ->
     t = [Logged "Shutting down HTTP server...";
          Called sessionManager_closeAll; Completed sessionManager_closeAll] ++
         (if sseEnabled
          then [Called closeAllSseSessions; Completed closeAllSseSessions]
          else []) ++
         [ListenerCloseRequested; ListenerClosed;
          Logged "HTTP server closed"; Exited 0]).
Proof.
  intros sseEnabled [settles0 closes] sig t. subst t.
  unfold run_async.
  assert (Hsig : on_signal sseEnabled sig = shutdown sseEnabled)
    by (destruct sig; reflexivity).
  rewrite Hsig. unfold shutdown.
  cbn [events settles listener_closes].
  unfold when.
  destruct (settles0 sessionManager_closeAll) eqn:E1;
    destruct sseEnabled; cbn [events settles listener_closes];
    try destruct (settles0 closeAllSseSessions) eqn:E2;
    destruct closes; cbn [events app until_exit is_exit];
    (split; [apply precedes_decided; reflexivity|]);
    (split; [intros Hsse;
             first [discriminate Hsse | apply precedes_decided; reflexivity]
            | ]);
    (split; [apply precedes_decided; reflexivity|]);
    (split; [apply precedes_decided; reflexivity|]);
    (split;
     [ intros c Hin; simpl in Hin;
       repeat match goal with
              | H : _ \/ _ |- _ => destruct H
              | H : False |- _ => destruct H
              | H : _ = Exited _ |- _ =>
                  first [discriminate H | injection H as <-; reflexivity]
              end
     | intros H1 H2 H3;
       first [discriminate H1 | discriminate H2 | discriminate H3 | reflexivity] ]).
Qed.

Lemma shutdown_order_witness :
  let s := {| settles := fun _ => Fulfilled; listener_closes := true |} in
  settles s sessionManager_closeAll = Fulfilled /\
  settles s closeAllSseSessions = Fulfilled /\
  listener_closes s = true /\
  run_async s (on_signal true SIGTERM) =
    [Logged "Shutting down HTTP server...";
     Called sessionManager_closeAll; Completed sessionManager_closeAll;
     Called closeAllSseSessions; Completed closeAllSseSessions;
     ListenerCloseRequested; ListenerClosed;
     Logged "HTTP server closed"; Exited 0] /\
  precedes (Completed closeAllSseSessions) ListenerCloseRequested
    (run_async s (on_signal true SIGTERM)).
Proof.
  intros s. split; [reflexivity|]. split; [reflexivity|]. split; [reflexivity|].
  pose proof (shutdown_order true s SIGTERM) as H. cbv zeta in H.
  destruct H as (_ & Hsse & _ & _ & _ & Hall).
  split; [exact (Hall eq_refl eq_refl eq_refl) | exact (Hsse eq_refl)].
Defined.

Example shutdown_stops_when_closeAll_rejects :
  run_async {| settles := fun _ => Rejected; listener_closes := true |}
    (on_signal false SIGINT) =
  [Logged "Shutting down HTTP server...";
   Called sessionManager_closeAll; Failed sessionManager_closeAll].
Proof. reflexivity. Qed.

(* ====================================================================== *)
(** * Routing *)
(* ====================================================================== *)

Section Routing.

Variables Registry Other : Type.
Variable under : string -> Request -> bool.
Variable h : Handlers Registry Other.

(** Every layer that ran before the last one called [next]. *)
Lemma dispatch_ran_next sseEnabled stack req w :
  forall before e after,
    snd (dispatch Registry Other under h sseEnabled stack req w) =
      before ++ e :: after ->
    after <> [] -> snd e = Next.
Proof.
  revert w. induction stack as [|l rest IH]; intros w before e after Heq Hafter.
  - destruct before; discriminate.
  - simpl in Heq. destruct (layer_matches under l req); [|eauto].
    destruct (run Registry Other h sseEnabled (handle l) req w) as [[|status|] w'].
    + destruct (dispatch Registry Other under h sseEnabled rest req w')
        as [[resp w''] ran] eqn:E.
      simpl in Heq. destruct before as [|e' before']; simpl in Heq.
      * injection Heq as <- _. reflexivity.
      * injection Heq as _ Heq. apply (IH w' before' e after); [|exact Hafter].
        rewrite E. exact Heq.
    + simpl in Heq.
      destruct before as [|e' [|e'' before']]; simpl in Heq; try discriminate.
      injection Heq as _ Heq. subst after. contradiction.
    + simpl in Heq.
      destruct before as [|e' [|e'' before']]; simpl in Heq; try discriminate.
      injection Heq as _ Heq. subst after. contradiction.
Qed.

(** The legacy router built with the feature flag disabled replies 501 on
    each of its paths and leaves the whole state as it was. *)
Lemma disabled_legacy_router req w :
  In (req_path req) legacy_paths ->
  run Registry Other h false SseRouter req w = (Respond NOT_IMPLEMENTED, w).
Proof.
  intros Hpath. apply mem_string_In in Hpath.
  unfold run, createSseRouter. cbn [receives_sessionManager].
  rewrite Hpath. destruct w; reflexivity.
Qed.

(** C7.  With the legacy-mode flag disabled, a request to a route of the
    legacy transport that the layers mounted before the legacy router pass
    on is answered 501 "not implemented", not 404, by the legacy router,
    and no later layer runs; the session registry is what it was when the
    request reached the legacy router, and what it was at the start when
    the health router left it alone. *)
Theorem legacy_disabled_replies_not_implemented :
  forall (req : Request) (w : Registry * Other) (o1 o2 : Other)
         (w3 : Registry * Other),
    In (req_path req) legacy_paths ->
    unmanaged h helmet req (snd w) = (Next, o1) ->
    unmanaged h express_json req o1 = (Next, o2) ->
    managed h HealthRouter req (fst w, o2) = (Next, w3) ->
    app_handle Registry Other under h false req w =
      (Replied 501, w3,
       [(helmet, Next); (express_json, Next); (HealthRouter, Next);
        (SseRouter, Respond 501)]) /\
    run Registry Other h false SseRouter req w3 = (Respond 501, w3) /\
    (fst w3 = fst w ->
     fst (snd (fst (app_handle Registry Other under h false req w))) = fst w) /\
    NOT_IMPLEMENTED <> NOT_FOUND.
Proof.
  intros req w o1 o2 w3 Hpath H1 H2 H3.
  assert (Happ : app_handle Registry Other under h false req w =
                 (Replied 501, w3,
                  [(helmet, Next); (express_json, Next); (HealthRouter, Next);
                   (SseRouter, Respond 501)])).
  { unfold app_handle, app_stack.
    cbn [dispatch layer_matches mount use handle run receives_sessionManager].
    rewrite H1. cbn [fst snd]. rewrite H2. cbn [fst snd]. rewrite H3.
    pose proof (disabled_legacy_router req w3 Hpath) as Hsse.
    unfold run in Hsse. cbn [receives_sessionManager] in Hsse.
    rewrite Hsse. reflexivity. }
  split; [exact Happ|]. split; [apply disabled_legacy_router; exact Hpath|].
  split; [|discriminate].
  intros Hreg. rewrite Happ. exact Hreg.
Qed.

Ltac run_next_layer sseEnabled req :=
  match goal with
  | |- context [run Registry Other h sseEnabled ?m req ?w] =>
      let E := fresh "E" in
      destruct (run Registry Other h sseEnabled m req w) as [[|?|] ?] eqn:E;
      cbn [dispatch layer_matches mount use use_at handle fst snd]
  end.

Ltac split_membership :=
  repeat match goal with
         | H : In _ (_ :: _) |- _ => destruct H as [H | H]
         | H : In _ [] |- _ => destruct H
         | H : False |- _ => destruct H
         | H : (_, _) = (_, _) |- _ => inversion H; clear H; subst
         end.

(** C8.  For every request, whatever the handlers do: if the Streamable
    router ran, then the six checks of the filter chain ran before it, in
    their order, and every one of them called [next]; and a request for
    which one of the checks did anything but call [next] never reached the
    Streamable router. *)
Theorem filter_chain_before_router :
  forall (sseEnabled : bool) (req : Request) (w : Registry * Other),
    let ran := snd (app_handle Registry Other under h sseEnabled req w) in
    (forall o,
        In (StreamableHttpRouter, o) ran ->
        ran =
          [(helmet, Next); (express_json, Next); (HealthRouter, Next);
           (SseRouter, Next)] ++
          map (fun m => (m, Next)) filter_chain ++
          [(StreamableHttpRouter, o)]) /\
    (forall m o,
        In m filter_chain -> In (m, o) ran -> o <> Next ->
        ~ In StreamableHttpRouter (map fst ran)).
Proof.
  intros sseEnabled req w ran. subst ran.
  unfold app_handle, app_stack.
  cbn [dispatch layer_matches mount use use_at handle].
  destruct (under "/mcp" req);
    repeat run_next_layer sseEnabled req;
    (split;
     [ intros o Hin; cbn [snd] in Hin; split_membership;
       try discriminate; subst; reflexivity
     | intros m o Hm Hin Hrej; cbn [snd] in Hin; cbn [snd map fst];
       unfold filter_chain in Hm; split_membership; subst;
       try discriminate; try congruence;
       intros Hr; split_membership; discriminate ]).
Qed.

End Routing.

Lemma filter_chain_before_router_witness :
  let h0 : Handlers unit unit :=
    Build_Handlers
      (fun m _ o => (match m with RateLimiter => Respond 429 | _ => Next end, o))
      (fun _ _ w => (Next, w)) in
  let req := {| req_method := "POST"; req_path := "/mcp";
                req_headers := []; req_body := JsNull |} in
  let ran := snd (app_handle unit unit (fun _ _ => true) h0 false req (tt, tt)) in
  In RateLimiter filter_chain /\
  In (RateLimiter, Respond 429) ran /\
  Respond 429 <> Next /\
  ~ In StreamableHttpRouter (map fst ran).
Proof.
  intros h0 req ran.
  assert (Hm : In RateLimiter filter_chain) by (right; left; reflexivity).
  assert (Hin : In (RateLimiter, Respond 429) ran) by (do 5 right; left; reflexivity).
  assert (Hrej : Respond 429 <> Next) by discriminate.
  split; [exact Hm|]. split; [exact Hin|]. split; [exact Hrej|].
  exact (proj2 (filter_chain_before_router unit unit (fun _ _ => true) h0 false
                  req (tt, tt))
           RateLimiter (Respond 429) Hm Hin Hrej).
Defined.

Lemma legacy_disabled_replies_not_implemented_witness :
  let h0 : Handlers unit unit :=
    Build_Handlers (fun _ _ o => (Next, o)) (fun _ _ w => (Next, w)) in
  let req := {| req_method := "GET"; req_path := "/sse";
                req_headers := []; req_body := JsUndefined |} in
  In (req_path req) legacy_paths /\
  app_handle unit unit (fun _ _ => false) h0 false req (tt, tt) =
    (Replied 501, (tt, tt),
     [(helmet, Next); (express_json, Next); (HealthRouter, Next);
      (SseRouter, Respond 501)]).
Proof.
  intros h0 req.
  assert (Hpath : In (req_path req) legacy_paths) by (right; left; reflexivity).
  split; [exact Hpath|].
  exact (proj1 (legacy_disabled_replies_not_implemented unit unit
                  (fun _ _ => false) h0 req (tt, tt) tt tt (tt, tt)
                  Hpath eq_refl eq_refl eq_refl)).
Defined.

(* ====================================================================== *)
(** * Further properties: the field schemas and their helpers *)
(* ====================================================================== *)

(** On an input other than [undefined], a defaulted bounded-integer schema
    succeeds exactly on the integers within its bounds. *)
Lemma defaulted_number_accepts r t m lo a hi b d v :
  v <> JsUndefined ->
  (success (safeParse (ZodDefault (ZodNumber_int_min_max r t m (of_Z lo) a
                                     (of_Z hi) b) d) v) = true <->
   integer_between lo hi v).
Proof.
  intros Hv.
  pose proof (optional_number_outcome r t m lo a hi b d [] v) as Hout.
  unfold ZodOptional in Hout.
  assert (Hu : is_undefined v = false) by (destruct v; try reflexivity; contradiction).
  rewrite Hu in Hout. unfold safeParse.
  destruct (ZodDefault (ZodNumber_int_min_max r t m (of_Z lo) a (of_Z hi) b) d [] v)
    as [[x|x|] issues]; simpl;
    inversion Hout as [Hw | n Hn Hb | n iss Hn Hb Hnan Hi Ha | iss Hw Hn Hi Ha];
    subst; try contradiction.
  - split; [intros _; apply in_bounds_iff; exact Hb | reflexivity].
  - split; [discriminate|]. intros H. apply in_bounds_iff in H. congruence.
  - split; [discriminate|]. intros (q & z & Hq & _).
    specialize (Hn _ Hq). discriminate.
Qed.

(** Each per-field helper, on a value other than [undefined], answers
    [true] exactly when the value is an integer within the bounds of its
    field, whatever the defaults are. *)
Theorem helpers_accept_within_bounds :
  forall (D : SessionDefaults) (v : JsValue),
    v <> JsUndefined ->
    (isValidTimeout D v = true <-> integer_between 60000 157680000000 v) /\
    (isValidCleanupInterval D v = true <-> integer_between 10000 3600000 v) /\
    (isValidKeepAliveInterval D v = true <-> integer_between 5000 300000 v) /\
    (isValidMaxMissedHeartbeats D v = true <-> integer_between 1 100 v) /\
    (isValidMaxCount D v = true <-> integer_between 1 10000 v).
Proof.
  intros D v Hv.
  repeat split; intros H;
    first [ apply (proj1 (defaulted_number_accepts _ _ _ _ _ _ _ _ v Hv)) in H; exact H
          | apply (proj2 (defaulted_number_accepts _ _ _ _ _ _ _ _ v Hv)); exact H ].
Qed.

Lemma helpers_accept_within_bounds_witness :
  JsNum (of_Z 3600001) <> JsUndefined /\
  (isValidCleanupInterval sample_defaults (JsNum (of_Z 3600001)) = true <->
   integer_between 10000 3600000 (JsNum (of_Z 3600001))).
Proof.
  split; [discriminate|].
  apply (helpers_accept_within_bounds sample_defaults (JsNum (of_Z 3600001))).
  discriminate.
Defined.

(* ====================================================================== *)
(** * Further properties: the validated configuration *)
(* ====================================================================== *)

Lemma field_outcome_OK_inv lo hi p v r o :
  field_outcome lo hi p v r -> fst r = OK o -> accepted_as lo hi v o.
Proof.
  intros H Ho. destruct H; simpl in Ho; try discriminate; injection Ho as <-.
  - left. auto.
  - right. eauto.
Qed.

Lemma accepted_field_parses r t m lo a hi b d p v o :
  accepted_as lo hi v o ->
  ZodOptional (ZodDefault (ZodNumber_int_min_max r t m (of_Z lo) a (of_Z hi) b) d)
    p (field_input o) = (OK o, []).
Proof.
  intros [[_ ->] | (n & _ & -> & Hb)]; [reflexivity|].
  pose proof (optional_number_outcome r t m lo a hi b d p (JsNum n)) as Hout.
  simpl field_input.
  inversion Hout as [Hw | n' Hn Hb' Heq | n' iss Hn Hb' Hnan Hi Ha Heq
                     | iss Hw Hn Hi Ha Heq].
  - discriminate.
  - injection Hn as <-. reflexivity.
  - injection Hn as <-. congruence.
  - specialize (Hn n eq_refl). subst n. discriminate.
Qed.

(** What a successful validation says about its input and its result. *)
Lemma schema_OK_inv D v data :
  fst (SessionConfigSchema D [] v) = OK data ->
  exists props,
    v = JsObject props /\
    extraKeys props = [] /\
    accepted_as MIN_TIMEOUT_MS MAX_TIMEOUT_MS
      (get_prop "timeoutMs" props) (timeoutMs data) /\
    accepted_as MIN_CLEANUP_INTERVAL_MS MAX_CLEANUP_INTERVAL_MS
      (get_prop "cleanupIntervalMs" props) (cleanupIntervalMs data) /\
    accepted_as MIN_KEEP_ALIVE_INTERVAL_MS MAX_KEEP_ALIVE_INTERVAL_MS
      (get_prop "keepAliveIntervalMs" props) (keepAliveIntervalMs data) /\
    accepted_as MIN_MISSED_HEARTBEATS MAX_MISSED_HEARTBEATS
      (get_prop "maxMissedHeartbeats" props) (maxMissedHeartbeats data) /\
    accepted_as MIN_SESSION_COUNT MAX_SESSION_COUNT
      (get_prop "maxCount" props) (maxCount data) /\
    keepAlive_lt_timeout D data = true /\
    cleanup_le_timeout D data = true.
Proof.
  unfold SessionConfigSchema, applySessionConfigRefinements. intros E.
  apply ZodRefine_OK_inv in E as [E Hcl].
  apply ZodRefine_OK_inv in E as [E Hka].
  destruct v as [| |bv|n|s|items|props|]; try discriminate.
  exists props. split; [reflexivity|].
  rewrite base_on_object in E.
  apply strict_check_OK_inv in E as [Hextra E].
  apply merge_OK_inv in E as (g5 & v5 & E & H5 & ->).
  apply merge_OK_inv in E as (g4 & v4 & E & H4 & ->).
  apply merge_OK_inv in E as (g3 & v3 & E & H3 & ->).
  apply merge_OK_inv in E as (g2 & v2 & E & H2 & ->).
  apply merge_OK_inv in E as (g1 & v1 & E & H1 & ->).
  cbn [fst] in E. injection E as <-.
  apply (field_outcome_OK_inv _ _ _ _ _ _ (F1_outcome D props)) in H1.
  apply (field_outcome_OK_inv _ _ _ _ _ _ (F2_outcome D props)) in H2.
  apply (field_outcome_OK_inv _ _ _ _ _ _ (F3_outcome D props)) in H3.
  apply (field_outcome_OK_inv _ _ _ _ _ _ (F4_outcome D props)) in H4.
  apply (field_outcome_OK_inv _ _ _ _ _ _ (F5_outcome D props)) in H5.
  cbn [timeoutMs cleanupIntervalMs keepAliveIntervalMs maxMissedHeartbeats maxCount].
  repeat split; assumption.
Qed.

Lemma validate_success_schema D v data :
  validateSessionConfigSafe D v = ValidationSuccess data <->
  fst (SessionConfigSchema D [] v) = OK data.
Proof.
  unfold validateSessionConfigSafe, safeParse.
  destruct (SessionConfigSchema D [] v) as [[x|x|] issues]; simpl;
    split; intros H; try discriminate; injection H as <-; reflexivity.
Qed.

Lemma parse_returns_schema D v data :
  parseSessionConfig D v = Returns data <->
  fst (SessionConfigSchema D [] v) = OK data.
Proof.
  unfold parseSessionConfig, parse, safeParse.
  destruct (SessionConfigSchema D [] v) as [[x|x|] issues]; simpl;
    split; intros H; try discriminate; injection H as <-; reflexivity.
Qed.

(** A successful validation is sound.  If [validateSessionConfigSafe]
    returns a success, the input was an object with no key outside the five
    of the schema; each field of the result is undefined where the input
    omitted it and is otherwise the provided number, an integer within the
    field's bounds; and the result passes both cross-field checks. *)
Theorem validated_config_sound :
  forall (D : SessionDefaults) (v : JsValue) (data : SessionConfig),
    validateSessionConfigSafe D v = ValidationSuccess data ->
    exists props,
      v = JsObject props /\
      extraKeys props = [] /\
      accepted_as 60000 157680000000 (get_prop "timeoutMs" props) (timeoutMs data) /\
      accepted_as 10000 3600000
        (get_prop "cleanupIntervalMs" props) (cleanupIntervalMs data) /\
      accepted_as 5000 300000
        (get_prop "keepAliveIntervalMs" props) (keepAliveIntervalMs data) /\
      accepted_as 1 100
        (get_prop "maxMissedHeartbeats" props) (maxMissedHeartbeats data) /\
      accepted_as 1 10000 (get_prop "maxCount" props) (maxCount data) /\
      keepAlive_lt_timeout D data = true /\
      cleanup_le_timeout D data = true.
Proof.
  intros D v data H. apply validate_success_schema in H.
  exact (schema_OK_inv D v data H).
Qed.

Lemma validated_config_sound_witness :
  let v := JsObject [("timeoutMs", JsNum (of_Z 600000)); ("maxCount", JsNum (of_Z 100))] in
  let data := {| timeoutMs := Some (of_Z 600000); cleanupIntervalMs := None;
                 keepAliveIntervalMs := None; maxMissedHeartbeats := None;
                 maxCount := Some (of_Z 100) |} in
  validateSessionConfigSafe sample_defaults v = ValidationSuccess data /\
  exists props,
    v = JsObject props /\
    extraKeys props = [] /\
    accepted_as 60000 157680000000 (get_prop "timeoutMs" props) (timeoutMs data) /\
    accepted_as 10000 3600000
      (get_prop "cleanupIntervalMs" props) (cleanupIntervalMs data) /\
    accepted_as 5000 300000
      (get_prop "keepAliveIntervalMs" props) (keepAliveIntervalMs data) /\
    accepted_as 1 100
      (get_prop "maxMissedHeartbeats" props) (maxMissedHeartbeats data) /\
    accepted_as 1 10000 (get_prop "maxCount" props) (maxCount data) /\
    keepAlive_lt_timeout sample_defaults data = true /\
    cleanup_le_timeout sample_defaults data = true.
Proof.
  intros v data. split; [reflexivity|].
  apply (validated_config_sound sample_defaults v data). reflexivity.
Defined.

Lemma config_object_props (c : SessionConfig) :
  exists props,
    config_object c = JsObject props /\
    extraKeys props = [] /\
    get_prop "timeoutMs" props = field_input (timeoutMs c) /\
    get_prop "cleanupIntervalMs" props = field_input (cleanupIntervalMs c) /\
    get_prop "keepAliveIntervalMs" props = field_input (keepAliveIntervalMs c) /\
    get_prop "maxMissedHeartbeats" props = field_input (maxMissedHeartbeats c) /\
    get_prop "maxCount" props = field_input (maxCount c).
Proof.
  destruct c as [[n1|] [n2|] [n3|] [n4|] [n5|]];
    (eexists; split; [reflexivity|]; repeat split; reflexivity).
Qed.

(** Validation is idempotent on what it accepts.  The configuration that a
    successful validation returns, given back as an object, validates
    again, to the same configuration. *)
Theorem validated_config_revalidates :
  forall (D : SessionDefaults) (v : JsValue) (data : SessionConfig),
    validateSessionConfigSafe D v = ValidationSuccess data ->
    validateSessionConfigSafe D (config_object data) = ValidationSuccess data /\
    parseSessionConfig D (config_object data) = Returns data.
Proof.
  intros D v data H. apply validate_success_schema in H.
  destruct (schema_OK_inv D v data H)
    as (props & _ & _ & A1 & A2 & A3 & A4 & A5 & Hka & Hcl).
  destruct (config_object_props data)
    as (cprops & Hobj & Hextra & G1 & G2 & G3 & G4 & G5).
  assert (Hschema : SessionConfigSchema D [] (config_object data) = (OK data, [])).
  { rewrite Hobj. unfold SessionConfigSchema, applySessionConfigRefinements, ZodRefine.
    rewrite base_on_object, Hextra, G1, G2, G3, G4, G5.
    unfold SessionTimeoutSchema, SessionCleanupIntervalSchema,
      SessionKeepAliveIntervalSchema, SessionMaxMissedHeartbeatsSchema,
      SessionMaxCountSchema.
    rewrite (accepted_field_parses _ _ _ _ _ _ _ _ _ _ _ A1),
            (accepted_field_parses _ _ _ _ _ _ _ _ _ _ _ A2),
            (accepted_field_parses _ _ _ _ _ _ _ _ _ _ _ A3),
            (accepted_field_parses _ _ _ _ _ _ _ _ _ _ _ A4),
            (accepted_field_parses _ _ _ _ _ _ _ _ _ _ _ A5).
    destruct data as [o1 o2 o3 o4 o5].
    cbn -[keepAlive_lt_timeout cleanup_le_timeout].
    rewrite Hka. cbn -[keepAlive_lt_timeout cleanup_le_timeout].
    rewrite Hcl. reflexivity. }
  split.
  - apply validate_success_schema. rewrite Hschema. reflexivity.
  - apply parse_returns_schema. rewrite Hschema. reflexivity.
Qed.

Lemma validated_config_revalidates_witness :
  let v := JsObject [("maxCount", JsNum (of_Z 100)); ("timeoutMs", JsNum (of_Z 600000));
                     ("cleanupIntervalMs", JsUndefined)] in
  let data := {| timeoutMs := Some (of_Z 600000); cleanupIntervalMs := None;
                 keepAliveIntervalMs := None; maxMissedHeartbeats := None;
                 maxCount := Some (of_Z 100) |} in
  validateSessionConfigSafe sample_defaults v = ValidationSuccess data /\
  validateSessionConfigSafe sample_defaults (config_object data) =
    ValidationSuccess data /\
  parseSessionConfig sample_defaults (config_object data) = Returns data.
Proof.
  intros v data. split; [reflexivity|].
  apply (validated_config_revalidates sample_defaults v data). reflexivity.
Defined.

(* ====================================================================== *)
(** * Further properties: what a failed validation reports *)
(* ====================================================================== *)

Lemma consistent_weaken {A : Type} (P Q : list string -> Prop) (r : Parse A) :
  (forall p, P p -> Q p) -> consistent P r -> consistent Q r.
Proof.
  intros HPQ [Hok Hall]. split; [exact Hok|].
  rewrite Forall_forall in *. auto.
Qed.

Lemma consistent_start {A : Type} (P : list string -> Prop) (x : A) :
  consistent P (OK x, []).
Proof. split; [split; reflexivity | constructor]. Qed.

Lemma consistent_merge {A B : Type} (P : list string -> Prop)
  (acc : Parse (A -> B)) (f : Parse A) :
  consistent P acc -> consistent P f -> consistent P (merge acc f).
Proof.
  intros [Hacc Pacc] [Hf Pf]. split.
  - rewrite merge_issues. unfold merge.
    destruct acc as [[g|g|] ia], f as [[v|v|] iv]; simpl in *;
      split; intros H; try discriminate; try reflexivity.
    + rewrite (proj1 Hacc eq_refl), (proj1 Hf eq_refl). reflexivity.
    + apply app_eq_nil in H as [_ H]. apply Hf in H. discriminate.
    + apply app_eq_nil in H as [_ H]. apply Hf in H. discriminate.
    + apply app_eq_nil in H as [H _]. apply Hacc in H. discriminate.
    + apply app_eq_nil in H as [H _]. apply Hacc in H. discriminate.
    + apply app_eq_nil in H as [H _]. apply Hacc in H. discriminate.
    + apply app_eq_nil in H as [H _]. apply Hacc in H. discriminate.
    + apply app_eq_nil in H as [H _]. apply Hacc in H. discriminate.
    + apply app_eq_nil in H as [H _]. apply Hacc in H. discriminate.
  - rewrite merge_issues. apply Forall_app. auto.
Qed.

Lemma consistent_strict_check {A : Type} (P : list string -> Prop) extra p
  (r : Parse A) :
  P p -> consistent P r -> consistent P (strict_check extra p r).
Proof.
  intros Hp [Hok Hall]. destruct extra as [|k extra]; [split; assumption|].
  split.
  - simpl. split.
    + destruct (fst r); discriminate.
    + intros H. apply app_eq_nil in H as [_ H]. discriminate.
  - simpl. apply Forall_app. split; [exact Hall | repeat constructor; exact Hp].
Qed.

Lemma consistent_refine {A : Type} (P : list string -> Prop)
  (inner : Schema A) check msg sub p v :
  P (p ++ sub) -> consistent P (inner p v) ->
  consistent P (ZodRefine inner check msg sub p v).
Proof.
  intros Hp [Hok Hall]. unfold ZodRefine.
  destruct (inner p v) as [[x|x|] issues]; simpl in *;
    try destruct (check x); simpl; split; try assumption;
    try (apply Forall_app; split; [exact Hall | repeat constructor; exact Hp]);
    split; intros H; try discriminate;
    apply app_eq_nil in H as [_ H]; discriminate.
Qed.

Lemma consistent_field lo hi p v r :
  field_outcome lo hi p v r -> consistent (eq p) r.
Proof.
  intros H. split.
  - destruct H; simpl; split; intros E; try reflexivity; try discriminate;
      contradiction.
  - pose proof (field_outcome_at _ _ _ _ _ H) as Hat.
    unfold all_at in Hat. rewrite Forall_forall in *.
    intros i Hi. symmetry. auto.
Qed.

Lemma field_path_in_config (name : string) :
  In name shapeKeys -> forall p, [name] = p -> config_path p.
Proof. intros Hin p <-. right. exists name. auto. Qed.

Lemma schema_consistent D v : consistent config_path (SessionConfigSchema D [] v).
Proof.
  unfold SessionConfigSchema, applySessionConfigRefinements.
  apply consistent_refine;
    [right; exists "cleanupIntervalMs"; split; [simpl; repeat (first [left; reflexivity | right]) | reflexivity]|].
  apply consistent_refine;
    [right; exists "keepAliveIntervalMs"; split; [simpl; repeat (first [left; reflexivity | right]) | reflexivity]|].
  destruct v as [| |bv|n|s|items|props|];
    try (split; [split; discriminate | repeat constructor; left; reflexivity]).
  rewrite base_on_object.
  apply consistent_strict_check; [left; reflexivity|].
  repeat apply consistent_merge; try apply consistent_start.
  - apply (consistent_weaken (eq ["timeoutMs"]));
      [apply field_path_in_config; simpl; repeat (first [left; reflexivity | right])
      | exact (consistent_field _ _ _ _ _ (F1_outcome D props))].
  - apply (consistent_weaken (eq ["cleanupIntervalMs"]));
      [apply field_path_in_config; simpl; repeat (first [left; reflexivity | right])
      | exact (consistent_field _ _ _ _ _ (F2_outcome D props))].
  - apply (consistent_weaken (eq ["keepAliveIntervalMs"]));
      [apply field_path_in_config; simpl; repeat (first [left; reflexivity | right])
      | exact (consistent_field _ _ _ _ _ (F3_outcome D props))].
  - apply (consistent_weaken (eq ["maxMissedHeartbeats"]));
      [apply field_path_in_config; simpl; repeat (first [left; reflexivity | right])
      | exact (consistent_field _ _ _ _ _ (F4_outcome D props))].
  - apply (consistent_weaken (eq ["maxCount"]));
      [apply field_path_in_config; simpl; repeat (first [left; reflexivity | right])
      | exact (consistent_field _ _ _ _ _ (F5_outcome D props))].
Qed.

(** A failure always says why.  When [validateSessionConfigSafe] returns a
    failure, its list of errors is not empty, [parseSessionConfig] throws on
    the same input, and every error sits at the root or at one of the five
    fields of the schema. *)
Theorem failure_reports_errors :
  forall (D : SessionDefaults) (v : JsValue) (errors : list ValidationErrorDetail),
    validateSessionConfigSafe D v = ValidationFailure errors ->
    errors <> [] /\
    returns (parseSessionConfig D v) = false /\
    forall e, In e errors ->
      path e = [] \/
      exists name,
        In name ["timeoutMs"; "cleanupIntervalMs"; "keepAliveIntervalMs";
                 "maxMissedHeartbeats"; "maxCount"] /\ path e = [name].
Proof.
  intros D v errors H.
  destruct (schema_consistent D v) as [Hok Hall].
  unfold validateSessionConfigSafe, parseSessionConfig, parse, safeParse in *.
  destruct (SessionConfigSchema D [] v) as [[x|x|] issues]; simpl in *;
    try discriminate; injection H as <-.
  - split; [|split; [reflexivity|]].
    + intros Hnil. apply map_eq_nil in Hnil. apply Hok in Hnil. discriminate.
    + intros e He. apply in_map_iff in He as (i & <- & Hi).
      rewrite Forall_forall in Hall. exact (Hall i Hi).
  - split; [|split; [reflexivity|]].
    + intros Hnil. apply map_eq_nil in Hnil. apply Hok in Hnil. discriminate.
    + intros e He. apply in_map_iff in He as (i & <- & Hi).
      rewrite Forall_forall in Hall. exact (Hall i Hi).
Qed.

Lemma failure_reports_errors_witness :
  let v := JsObject [("maxCount", JsNum (of_Z 0))] in
  let errors := [{| path := ["maxCount"]; message := Supplied MAX_COUNT_MIN;
                    code := too_small |}] in
  validateSessionConfigSafe sample_defaults v = ValidationFailure errors /\
  errors <> [] /\
  returns (parseSessionConfig sample_defaults v) = false.
Proof.
  intros v errors. split; [reflexivity|].
  destruct (failure_reports_errors sample_defaults v errors eq_refl) as (H1 & H2 & _).
  split; assumption.
Defined.

(** An input that is not an object (undefined, null, a number, a string, an
    array) is rejected with one [invalid_type] error at the root. *)
Theorem non_object_rejected :
  forall (D : SessionDefaults) (v : JsValue),
    (forall props, v <> JsObject props) ->
    validateSessionConfigSafe D v =
      ValidationFailure [{| path := []; message := ErrorMapDefault;
                            code := invalid_type |}] /\
    parseSessionConfig D v =
      ThrowsZodError [mkIssue invalid_type [] ErrorMapDefault] /\
    validatePartialSessionConfigSafe D v =
      ValidationFailure [{| path := []; message := ErrorMapDefault;
                            code := invalid_type |}].
Proof.
  intros D v Hv.
  destruct v as [| |bv|n|s|items|props|]; try (repeat split; reflexivity).
  exfalso. exact (Hv props eq_refl).
Qed.

Lemma non_object_rejected_witness :
  (forall props, JsUndefined <> JsObject props) /\
  parseSessionConfig sample_defaults JsUndefined =
    ThrowsZodError [mkIssue invalid_type [] ErrorMapDefault].
Proof.
  assert (H : forall props, JsUndefined <> JsObject props) by (intros props; discriminate).
  split; [exact H|].
  exact (proj1 (proj2 (non_object_rejected sample_defaults JsUndefined H))).
Defined.

Lemma merge_INVALID_left {A B : Type} (acc : Parse (A -> B)) (f : Parse A) :
  fst acc = INVALID -> fst (merge acc f) = INVALID.
Proof.
  unfold merge. destruct acc as [[g|g|] ia], f as [[v|v|] iv]; simpl;
    intros H; try discriminate; reflexivity.
Qed.

Lemma merge_INVALID_right {A B : Type} (acc : Parse (A -> B)) (f : Parse A) :
  fst f = INVALID -> fst (merge acc f) = INVALID.
Proof.
  unfold merge. destruct acc as [[g|g|] ia], f as [[v|v|] iv]; simpl;
    intros H; try discriminate; reflexivity.
Qed.

Lemma strict_check_INVALID {A : Type} extra p (r : Parse A) :
  fst r = INVALID -> fst (strict_check extra p r) = INVALID.
Proof. intros H. destruct extra; simpl; rewrite H; reflexivity. Qed.

Lemma wrong_type_aborts lo hi p v r :
  field_outcome lo hi p v r -> wrong_type v -> fst r = INVALID.
Proof.
  intros H [Hu Hn]. destruct H as [Hv | n Hv Hb | n issues Hv Hb Hnan _ _ | issues _ _ _ _].
  - contradiction.
  - specialize (Hn _ Hv). subst n. discriminate.
  - specialize (Hn _ Hv). contradiction.
  - reflexivity.
Qed.

(** The issues of a field are never [custom] ones. *)
Lemma field_codes r t m lo a hi b d p v :
  Forall (fun i => issue_code i <> custom)
    (snd (ZodOptional
            (ZodDefault (ZodNumber_int_min_max r t m lo a hi b) d) p v)).
Proof.
  unfold ZodOptional, ZodDefault, ZodNumber_int_min_max.
  destruct v as [| |bv|n|s|items|props|]; cbn [is_undefined];
    try (repeat constructor; discriminate).
  destruct n as [| | |q]; try (repeat constructor; discriminate);
    destruct (isInteger _), (js_lt _ lo), (js_gt _ hi); simpl;
    repeat constructor; discriminate.
Qed.

(** A field of the wrong type silences the cross-field checks.  When a field
    holds a value that is neither undefined nor a number other than [NaN]
    (a string, null, a boolean, [NaN]), the object parse is aborted and the
    refinements do not run: no [custom] error is reported, whatever the
    other fields are. *)
Theorem wrong_type_suppresses_cross_field_errors :
  forall (D : SessionDefaults) (props : list (string * JsValue)) (name : string),
    In name ["timeoutMs"; "cleanupIntervalMs"; "keepAliveIntervalMs";
             "maxMissedHeartbeats"; "maxCount"] ->
    wrong_type (get_prop name props) ->
    is_success (validateSessionConfigSafe D (JsObject props)) = false /\
    forall e, In e (errors_of (validateSessionConfigSafe D (JsObject props))) ->
              code e <> custom.
Proof.
  intros D props name Hname Hwrong.
  assert (Hbase : fst (SessionConfigBaseSchema D [] (JsObject props)) = INVALID).
  { rewrite base_on_object. apply strict_check_INVALID.
    simpl in Hname.
    destruct Hname as [<- | [<- | [<- | [<- | [<- | []]]]]].
    - do 4 apply merge_INVALID_left. apply merge_INVALID_right.
      exact (wrong_type_aborts _ _ _ _ _ (F1_outcome D props) Hwrong).
    - do 3 apply merge_INVALID_left. apply merge_INVALID_right.
      exact (wrong_type_aborts _ _ _ _ _ (F2_outcome D props) Hwrong).
    - do 2 apply merge_INVALID_left. apply merge_INVALID_right.
      exact (wrong_type_aborts _ _ _ _ _ (F3_outcome D props) Hwrong).
    - do 1 apply merge_INVALID_left. apply merge_INVALID_right.
      exact (wrong_type_aborts _ _ _ _ _ (F4_outcome D props) Hwrong).
    - apply merge_INVALID_right.
      exact (wrong_type_aborts _ _ _ _ _ (F5_outcome D props) Hwrong). }
  assert (Hissues : snd (SessionConfigSchema D [] (JsObject props)) =
                    snd (SessionConfigBaseSchema D [] (JsObject props)) /\
                    fst (SessionConfigSchema D [] (JsObject props)) = INVALID).
  { unfold SessionConfigSchema, applySessionConfigRefinements, ZodRefine.
    destruct (SessionConfigBaseSchema D [] (JsObject props)) as [[x|x|] issues];
      simpl in Hbase; try discriminate. split; reflexivity. }
  destruct Hissues as [Hissues Hstatus].
  split.
  - unfold validateSessionConfigSafe, safeParse.
    destruct (SessionConfigSchema D [] (JsObject props)) as [[x|x|] issues];
      simpl in Hstatus; try discriminate. reflexivity.
  - intros e He. rewrite validate_errors, Hissues, base_issues in He.
    apply in_map_iff in He as (i & <- & Hi). simpl.
    rewrite !in_app_iff in Hi.
    pose proof (field_codes) as Hcodes.
    destruct Hi as [Hi | [Hi | [Hi | [Hi | [Hi | Hi]]]]];
      try (eapply (proj1 (Forall_forall _ _) (Hcodes _ _ _ _ _ _ _ _ _ _));
           exact Hi).
    destruct (extraKeys props); [destruct Hi|].
    destruct Hi as [<- | []]. discriminate.
Qed.

Lemma wrong_type_suppresses_cross_field_errors_witness :
  let props := [("timeoutMs", JsString "60000");
                ("keepAliveIntervalMs", JsNum (of_Z 300000));
                ("cleanupIntervalMs", JsNum (of_Z 3600000))] in
  In "timeoutMs" ["timeoutMs"; "cleanupIntervalMs"; "keepAliveIntervalMs";
                  "maxMissedHeartbeats"; "maxCount"] /\
  wrong_type (get_prop "timeoutMs" props) /\
  is_success (validateSessionConfigSafe sample_defaults (JsObject props)) = false.
Proof.
  intros props.
  assert (Hin : In "timeoutMs" ["timeoutMs"; "cleanupIntervalMs";
                                "keepAliveIntervalMs"; "maxMissedHeartbeats";
                                "maxCount"]) by (left; reflexivity).
  assert (Hw : wrong_type (get_prop "timeoutMs" props))
    by (split; [discriminate | intros n Hn; discriminate]).
  split; [exact Hin|]. split; [exact Hw|].
  exact (proj1 (wrong_type_suppresses_cross_field_errors sample_defaults props
                  "timeoutMs" Hin Hw)).
Defined.

(** By contrast a number out of its bounds leaves the cross-field checks
    running on it. *)
Example out_of_bounds_keeps_cross_field_errors :
  map code
    (errors_of (validateSessionConfigSafe sample_defaults
                  (JsObject [("timeoutMs", JsNum (of_Z 1000))]))) =
  [too_small; custom; custom].
Proof. reflexivity. Qed.

(* ====================================================================== *)
(** * Further properties: the partial schema *)
(* ====================================================================== *)

Lemma optional_twice {A : Type} (inner : Schema A) p v :
  ZodOptional_again (ZodOptional inner) p v = ZodOptional inner p v.
Proof.
  unfold ZodOptional_again, ZodOptional. destruct (is_undefined v); reflexivity.
Qed.

Lemma partial_base_same D p v :
  SessionConfigBaseSchema_partial D p v = SessionConfigBaseSchema D p v.
Proof.
  unfold SessionConfigBaseSchema_partial, SessionConfigBaseSchema.
  destruct v; try reflexivity. rewrite !optional_twice. reflexivity.
Qed.

(** The partial schema validates exactly as the full one.  Every field of
    the full schema is optional already, so [.partial()] changes nothing:
    on every input the partial functions return what the full ones return,
    the same data or the same errors, and still reject unknown keys and
    failed cross-field checks. *)
Theorem partial_schema_same_as_full :
  forall (D : SessionDefaults) (v : JsValue),
    validatePartialSessionConfigSafe D v = validateSessionConfigSafe D v /\
    parsePartialSessionConfig D v = parseSessionConfig D v.
Proof.
  intros D v.
  assert (H : PartialSessionConfigSchema D [] v = SessionConfigSchema D [] v).
  { unfold PartialSessionConfigSchema, SessionConfigSchema,
      applySessionConfigRefinements, ZodRefine.
    rewrite partial_base_same. reflexivity. }
  unfold validatePartialSessionConfigSafe, validateSessionConfigSafe,
    parsePartialSessionConfig, parseSessionConfig, parse, safeParse.
  rewrite H. split; reflexivity.
Qed.

(* ====================================================================== *)
(** * Further properties: the errors of a session identifier *)
(* ====================================================================== *)

(** A rejected session identifier gets exactly one error, at the root, and
    the error tells the reason: "required" for [undefined], "must be a
    string" for any other non-string, "cannot be empty" for the empty
    string, "too long" for more than 256 characters. *)
Theorem session_id_errors :
  forall v : JsValue,
    errors_of (validateSessionIdSafe v) =
    match v with
    | JsString s =>
        if Nat.eqb (String.length s) 0
        then [{| path := []; message := Supplied "Session ID cannot be empty";
                 code := too_small |}]
        else if Nat.leb (String.length s) 256 then []
        else [{| path := [];
                 message := Supplied "Session ID is too long (max 256 characters)";
                 code := too_big |}]
    | JsUndefined =>
        [{| path := []; message := Supplied "Session ID is required";
            code := invalid_type |}]
    | _ =>
        [{| path := []; message := Supplied "Session ID must be a string";
            code := invalid_type |}]
    end.
Proof.
  intros v. destruct v as [| |b|n|s|items|props|]; try reflexivity.
  unfold validateSessionIdSafe, safeParse. rewrite SessionIdSchema_on_string.
  destruct (Nat.ltb_spec (String.length s) 1) as [Hlo | Hlo],
           (Nat.ltb_spec 256 (String.length s)) as [Hhi | Hhi];
    cbn [settle app fst snd errors_of map to_detail issue_path issue_message
         issue_code];
    destruct (Nat.eqb_spec (String.length s) 0) as [H0 | H0],
             (Nat.leb_spec (String.length s) 256) as [H256 | H256];
    try reflexivity; lia.
Qed.

(* ====================================================================== *)
(** * Further properties: formatting errors *)
(* ====================================================================== *)

Lemma string_app_assoc (x y z : string) :
  ((x ++ y) ++ z = x ++ (y ++ z))%string.
Proof. induction x as [|c x IH]; simpl; [|rewrite IH]; reflexivity. Qed.

Lemma join_app (separator : string) (a b : list string) :
  a <> [] -> b <> [] ->
  join separator (a ++ b) =
  (join separator a ++ separator ++ join separator b)%string.
Proof.
  intros Ha Hb. induction a as [|x a IH]; [contradiction|].
  destruct a as [|y a].
  - simpl. destruct b; [contradiction | reflexivity].
  - change (join separator ((x :: y :: a) ++ b))
      with (x ++ separator ++ join separator ((y :: a) ++ b))%string.
    rewrite IH by discriminate.
    change (join separator (x :: y :: a))
      with (x ++ separator ++ join separator (y :: a))%string.
    rewrite !string_app_assoc. reflexivity.
Qed.

(** [formatValidationErrors] composes: formatting two non-empty lists of
    errors one after the other is formatting each and putting ["; "] in
    between.  No error gives the empty string, and a single error at the
    root gives its bare message, without a path or a colon. *)
Theorem formatValidationErrors_app :
  forall (default_text : ValidationErrorDetail -> string)
         (a b : list ValidationErrorDetail),
    a <> [] -> b <> [] ->
    formatValidationErrors default_text (a ++ b) =
      (formatValidationErrors default_text a ++ "; " ++
       formatValidationErrors default_text b)%string /\
    formatValidationErrors default_text [] = "" /\
    (forall text c,
        formatValidationErrors default_text
          [{| path := []; message := Supplied text; code := c |}] = text) /\
    (forall name text c,
        formatValidationErrors default_text
          [{| path := [name]; message := Supplied text; code := c |}] =
        (name ++ ": " ++ text)%string).
Proof.
  intros default_text a b Ha Hb. split; [|repeat split].
  unfold formatValidationErrors. rewrite map_app. apply join_app.
  - intros H. apply map_eq_nil in H. contradiction.
  - intros H. apply map_eq_nil in H. contradiction.
Qed.

Lemma formatValidationErrors_app_witness :
  let a := [{| path := ["timeoutMs"]; message := Supplied TIMEOUT_MIN;
               code := too_small |}] in
  let b := [{| path := ["keepAliveIntervalMs"];
               message := Supplied "Keep-alive interval must be less than session timeout";
               code := custom |}] in
  a <> [] /\ b <> [] /\
  formatValidationErrors (fun _ => "") (a ++ b) =
    "timeoutMs: Session timeout must be at least 60000ms (1 minute); keepAliveIntervalMs: Keep-alive interval must be less than session timeout".
Proof.
  intros a b.
  assert (Ha : a <> []) by discriminate.
  assert (Hb : b <> []) by discriminate.
  split; [exact Ha|]. split; [exact Hb|].
  rewrite (proj1 (formatValidationErrors_app (fun _ => "") a b Ha Hb)).
  reflexivity.
Defined.

(* ====================================================================== *)
(** * Further properties: the environment schema *)
(* ====================================================================== *)

Section EnvFacts.

Variable rt : JsRuntime.
Variable env : ProcessEnv.

(** [parseFrameworkEnv] returns only if every variable parsed with status
    "valid", and then carries the value of each. *)
Lemma parseFrameworkEnv_fields cfg :
  parseFrameworkEnv rt env = Returns cfg ->
  fst (ZodDefault (ZodEnum ["development"; "production"; "test"])
         (JsString "development") ["NODE_ENV"] (env_get "NODE_ENV" env)) =
    OK (NODE_ENV cfg) /\
  fst (ZodDefault ZodString (JsString "127.0.0.1") ["MCP_BIND_HOST"]
         (env_get "MCP_BIND_HOST" env)) = OK (MCP_BIND_HOST cfg) /\
  fst (MCP_PORT_schema rt ["MCP_PORT"] (env_get "MCP_PORT" env)) =
    OK (MCP_PORT cfg) /\
  fst (ZodDefault (ZodEnum ["stdio"; "http"]) (JsString "http") ["MCP_TRANSPORT"]
         (env_get "MCP_TRANSPORT" env)) = OK (MCP_TRANSPORT cfg) /\
  fst (ZodDefault (ZodBoolean_or_flag_string rt) (JsBoolean false)
         ["MCP_LEGACY_SSE_ENABLED"] (env_get "MCP_LEGACY_SSE_ENABLED" env)) =
    OK (MCP_LEGACY_SSE_ENABLED cfg) /\
  fst (ZodDefault (ZodCoerceNumber_min rt (of_Z 1000)) (JsNum (of_Z 900000))
         ["MCP_RATE_LIMIT_WINDOW_MS"] (env_get "MCP_RATE_LIMIT_WINDOW_MS" env)) =
    OK (MCP_RATE_LIMIT_WINDOW_MS cfg) /\
  fst (ZodDefault (ZodCoerceNumber_min rt (of_Z 100)) (JsNum (of_Z 1000))
         ["MCP_RATE_LIMIT_MAX"] (env_get "MCP_RATE_LIMIT_MAX" env)) =
    OK (MCP_RATE_LIMIT_MAX cfg) /\
  fst (ZodDefault (ZodEnum ["trace"; "debug"; "info"; "warn"; "error"])
         (JsString "info") ["LOG_LEVEL"] (env_get "LOG_LEVEL" env)) =
    OK (LOG_LEVEL cfg) /\
  fst (ZodDefault (ZodEnum ["text"; "json"]) (JsString "text") ["LOG_FORMAT"]
         (env_get "LOG_FORMAT" env)) = OK (LOG_FORMAT cfg) /\
  fst (ZodDefault (ZodBoolean_or_flag_string rt) (JsBoolean false)
         ["OTEL_ENABLED"] (env_get "OTEL_ENABLED" env)) = OK (OTEL_ENABLED cfg) /\
  fst (ZodOptional (ZodString_url rt) ["OTEL_EXPORTER_OTLP_ENDPOINT"]
         (env_get "OTEL_EXPORTER_OTLP_ENDPOINT" env)) =
    OK (OTEL_EXPORTER_OTLP_ENDPOINT cfg) /\
  fst (ZodDefault (ZodBoolean_or_flag_string rt) (JsBoolean false)
         ["OTEL_DEBUG"] (env_get "OTEL_DEBUG" env)) = OK (OTEL_DEBUG cfg).
Proof.
  unfold parseFrameworkEnv, frameworkEnvSchema.
  repeat match goal with
         | |- context [merge _ (?s ?p (env_get ?n env))] =>
             let F := fresh "F" in
             remember (s p (env_get n env)) as F
         end.
  match goal with
  | |- match ?c with _ => _ end = _ -> _ => destruct c as [[x|x|] issues] eqn:E
  end; try discriminate.
  intros H. injection H as ->.
  apply (f_equal fst) in E. cbn [fst] in E.
  repeat match type of E with
         | fst (merge _ _) = OK _ =>
             let g := fresh "g" in
             let v := fresh "v" in
             let Hv := fresh "Hv" in
             apply merge_OK_inv in E as (g & v & E & Hv & ->)
         end.
  cbn [fst] in E. injection E as <-.
  cbn [NODE_ENV MCP_BIND_HOST MCP_PORT MCP_TRANSPORT MCP_LEGACY_SSE_ENABLED
       MCP_RATE_LIMIT_WINDOW_MS MCP_RATE_LIMIT_MAX LOG_LEVEL LOG_FORMAT
       OTEL_ENABLED OTEL_EXPORTER_OTLP_ENDPOINT OTEL_DEBUG].
  subst. repeat split; assumption.
Qed.

(** The version of a parsed configuration is the [VERSION] variable, or
    the version resolved at module load when the variable is unset. *)
Lemma parseFrameworkEnv_version cfg :
  parseFrameworkEnv rt env = Returns cfg ->
  cfg_VERSION cfg = or_default (lookup "VERSION" env) (VERSION rt).
Proof.
  unfold parseFrameworkEnv, frameworkEnvSchema.
  repeat match goal with
         | |- context [merge _ (?s ?p (env_get ?n env))] =>
             let F := fresh "F" in
             remember (s p (env_get n env)) as F
         end.
  match goal with
  | |- match ?c with _ => _ end = _ -> _ => destruct c as [[x|x|] issues] eqn:E
  end; try discriminate.
  intros H. injection H as ->.
  apply (f_equal fst) in E. cbn [fst] in E.
  repeat match type of E with
         | fst (merge _ _) = OK _ =>
             let g := fresh "g" in
             let v := fresh "v" in
             let Hv := fresh "Hv" in
             apply merge_OK_inv in E as (g & v & E & Hv & ->)
         end.
  cbn [fst] in E. injection E as <-.
  cbn [cfg_VERSION].
  match goal with
  | H : fst ?F = OK ?v |- ?v = _ =>
      match goal with
      | HF : F = ZodDefault ZodString _ ["VERSION"] _ |- _ => rewrite HF in H
      end;
      revert H
  end.
  unfold ZodDefault, ZodString, env_get, or_default.
  destruct (lookup "VERSION" env); cbn [is_undefined fst];
    intros H; injection H as <-; reflexivity.
Qed.

End EnvFacts.

Section EnvVariables.

Variable rt : JsRuntime.
Variable env : ProcessEnv.

Lemma flag_field p name :
  ZodDefault (ZodBoolean_or_flag_string rt) (JsBoolean false) p (env_get name env) =
  (OK (flag_value rt (lookup name env)), []).
Proof. unfold env_get. destruct (lookup name env); reflexivity. Qed.

(** The three feature flags of the environment are never a reason to
    reject it: whatever the variable holds, the flag parses, and the
    configuration carries it as on exactly when the value, in lower case,
    is the word true; an unset variable, 1, yes or the empty string all read
    as off. *)
Theorem feature_flags :
  forall cfg,
    parseFrameworkEnv rt env = Returns cfg ->
    MCP_LEGACY_SSE_ENABLED cfg = flag_value rt (lookup "MCP_LEGACY_SSE_ENABLED" env) /\
    OTEL_ENABLED cfg = flag_value rt (lookup "OTEL_ENABLED" env) /\
    OTEL_DEBUG cfg = flag_value rt (lookup "OTEL_DEBUG" env) /\
    (forall name p,
        snd (ZodDefault (ZodBoolean_or_flag_string rt) (JsBoolean false) p
               (env_get name env)) = []).
Proof.
  intros cfg H.
  destruct (parseFrameworkEnv_fields rt env cfg H)
    as (_ & _ & _ & _ & Hsse & _ & _ & _ & _ & Hotel & _ & Hdebug).
  rewrite flag_field in Hsse, Hotel, Hdebug. cbn [fst] in *.
  injection Hsse as <-. injection Hotel as <-. injection Hdebug as <-.
  repeat split. intros name p. rewrite flag_field. reflexivity.
Qed.

Lemma enum_field allowed d p name v :
  mem_string d allowed = true ->
  (fst (ZodDefault (ZodEnum allowed) (JsString d) p (env_get name env)) = OK v <->
   v = or_default (lookup name env) d /\ mem_string v allowed = true).
Proof.
  intros Hd. unfold env_get, ZodDefault, ZodEnum.
  destruct (lookup name env) as [s|]; cbn [is_undefined or_default].
  - destruct (mem_string s allowed) eqn:Hs; cbn [fst].
    + split; [intros H; injection H as <-; auto | intros [-> _]; reflexivity].
    + split; [discriminate | intros [-> H]; congruence].
  - rewrite Hd. cbn [fst].
    split; [intros H; injection H as <-; auto | intros [-> _]; reflexivity].
Qed.

(** The four enumerated variables.  When the environment parses, each of
    [NODE_ENV], [MCP_TRANSPORT], [LOG_LEVEL] and [LOG_FORMAT] is the value
    that was set, or its default when unset, and is one of the values
    allowed; a value outside them (the match is exact, upper case included)
    makes [parseFrameworkEnv] throw. *)
Theorem enumerated_variables :
  (forall cfg,
      parseFrameworkEnv rt env = Returns cfg ->
      NODE_ENV cfg = or_default (lookup "NODE_ENV" env) "development" /\
      In (NODE_ENV cfg) ["development"; "production"; "test"] /\
      MCP_TRANSPORT cfg = or_default (lookup "MCP_TRANSPORT" env) "http" /\
      In (MCP_TRANSPORT cfg) ["stdio"; "http"] /\
      LOG_LEVEL cfg = or_default (lookup "LOG_LEVEL" env) "info" /\
      In (LOG_LEVEL cfg) ["trace"; "debug"; "info"; "warn"; "error"] /\
      LOG_FORMAT cfg = or_default (lookup "LOG_FORMAT" env) "text" /\
      In (LOG_FORMAT cfg) ["text"; "json"]) /\
  (forall name allowed default s,
      In (name, allowed, default) enum_variables ->
      lookup name env = Some s ->
      ~ In s allowed ->
      returns (parseFrameworkEnv rt env) = false).
Proof.
  split.
  - intros cfg H.
    destruct (parseFrameworkEnv_fields rt env cfg H)
      as (Hnode & _ & _ & Htransport & _ & _ & _ & Hlevel & Hformat & _).
    apply enum_field in Hnode as [? ?]; [|reflexivity].
    apply enum_field in Htransport as [? ?]; [|reflexivity].
    apply enum_field in Hlevel as [? ?]; [|reflexivity].
    apply enum_field in Hformat as [? ?]; [|reflexivity].
    rewrite <- !mem_string_In. repeat split; assumption.
  - intros name allowed default s Hin Hset Hnot.
    destruct (parseFrameworkEnv rt env) as [cfg | issues] eqn:E; [|reflexivity].
    exfalso. apply Hnot. apply mem_string_In.
    destruct (parseFrameworkEnv_fields rt env cfg E)
      as (Hnode & _ & _ & Htransport & _ & _ & _ & Hlevel & Hformat & _).
    simpl in Hin.
    destruct Hin as [Hin | [Hin | [Hin | [Hin | []]]]]; injection Hin as <- <- <-.
    + apply enum_field in Hnode as [Hv Hm]; [|reflexivity].
      rewrite Hset in Hv. simpl in Hv. rewrite <- Hv. exact Hm.
    + apply enum_field in Htransport as [Hv Hm]; [|reflexivity].
      rewrite Hset in Hv. simpl in Hv. rewrite <- Hv. exact Hm.
    + apply enum_field in Hlevel as [Hv Hm]; [|reflexivity].
      rewrite Hset in Hv. simpl in Hv. rewrite <- Hv. exact Hm.
    + apply enum_field in Hformat as [Hv Hm]; [|reflexivity].
      rewrite Hset in Hv. simpl in Hv. rewrite <- Hv. exact Hm.
Qed.

Lemma coerce_min_field lo d p name n :
  js_lt (of_Z d) (of_Z lo) = false ->
  (fst (ZodDefault (ZodCoerceNumber_min rt (of_Z lo)) (JsNum (of_Z d)) p
          (env_get name env)) = OK n <->
   n = match lookup name env with
       | Some s => StringToNumber rt s
       | None => of_Z d
       end /\
   isNaN n = false /\ js_lt n (of_Z lo) = false).
Proof.
  intros Hd. unfold env_get, ZodDefault, ZodCoerceNumber_min.
  destruct (lookup name env) as [s|]; cbn [is_undefined ToNumber].
  - destruct (StringToNumber rt s) as [| | |q] eqn:En; cbv beta iota zeta.
    + simpl. split; [discriminate | intros (-> & H & _); discriminate H].
    + simpl. split; [intros H; injection H as <-; auto | intros (-> & _); reflexivity].
    + simpl. split; [discriminate | intros (-> & _ & H); discriminate H].
    + destruct (js_lt (Finite q) (of_Z lo)) eqn:Hlt; cbn [settle fst].
      * split; [discriminate | intros (-> & _ & H); congruence].
      * split; [intros H; injection H as <-; auto | intros (-> & _); reflexivity].
  - unfold of_Z in *. cbv beta iota zeta. rewrite Hd. cbn [settle fst].
    split; [intros H; injection H as <-; auto | intros (-> & _); reflexivity].
Qed.

(** The rate-limit variables have a lower bound and nothing else.  When the
    environment parses, the window is the number the variable coerces to, or
    900,000 when unset, and is not below 1,000; the maximum is the coerced
    number, or 1,000 when unset, and is not below 100.  A value that coerces
    to [NaN] or lies below the bound makes [parseFrameworkEnv] throw.  Every
    other value is accepted by the variable's schema as the number it
    coerces to, without an issue: a number that is not [NaN] and not below
    the bound, however large and whether or not it is an integer. *)
Theorem rate_limit_variables :
  (forall cfg,
      parseFrameworkEnv rt env = Returns cfg ->
      MCP_RATE_LIMIT_WINDOW_MS cfg =
        match lookup "MCP_RATE_LIMIT_WINDOW_MS" env with
        | Some s => StringToNumber rt s
        | None => of_Z 900000
        end /\
      isNaN (MCP_RATE_LIMIT_WINDOW_MS cfg) = false /\
      js_lt (MCP_RATE_LIMIT_WINDOW_MS cfg) (of_Z 1000) = false /\
      MCP_RATE_LIMIT_MAX cfg =
        match lookup "MCP_RATE_LIMIT_MAX" env with
        | Some s => StringToNumber rt s
        | None => of_Z 1000
        end /\
      isNaN (MCP_RATE_LIMIT_MAX cfg) = false /\
      js_lt (MCP_RATE_LIMIT_MAX cfg) (of_Z 100) = false) /\
  (forall s,
      lookup "MCP_RATE_LIMIT_WINDOW_MS" env = Some s ->
      isNaN (StringToNumber rt s) = true \/
      js_lt (StringToNumber rt s) (of_Z 1000) = true ->
      returns (parseFrameworkEnv rt env) = false) /\
  (forall s,
      lookup "MCP_RATE_LIMIT_MAX" env = Some s ->
      isNaN (StringToNumber rt s) = true \/
      js_lt (StringToNumber rt s) (of_Z 100) = true ->
      returns (parseFrameworkEnv rt env) = false) /\
  (forall s,
      lookup "MCP_RATE_LIMIT_WINDOW_MS" env = Some s ->
      isNaN (StringToNumber rt s) = false ->
      js_lt (StringToNumber rt s) (of_Z 1000) = false ->
      ZodDefault (ZodCoerceNumber_min rt (of_Z 1000)) (JsNum (of_Z 900000))
        ["MCP_RATE_LIMIT_WINDOW_MS"] (env_get "MCP_RATE_LIMIT_WINDOW_MS" env) =
        (OK (StringToNumber rt s), [])) /\
  (forall s,
      lookup "MCP_RATE_LIMIT_MAX" env = Some s ->
      isNaN (StringToNumber rt s) = false ->
      js_lt (StringToNumber rt s) (of_Z 100) = false ->
      ZodDefault (ZodCoerceNumber_min rt (of_Z 100)) (JsNum (of_Z 1000))
        ["MCP_RATE_LIMIT_MAX"] (env_get "MCP_RATE_LIMIT_MAX" env) =
        (OK (StringToNumber rt s), [])).
Proof.
  assert (Haccepted : forall lo d name s,
             lookup name env = Some s ->
             isNaN (StringToNumber rt s) = false ->
             js_lt (StringToNumber rt s) (of_Z lo) = false ->
             ZodDefault (ZodCoerceNumber_min rt (of_Z lo)) (JsNum (of_Z d))
               [name] (env_get name env) = (OK (StringToNumber rt s), [])).
  { intros lo d name s Hset Hnan Hlt.
    unfold env_get, ZodDefault, ZodCoerceNumber_min.
    rewrite Hset. cbn [is_undefined ToNumber].
    destruct (StringToNumber rt s) as [| | |q] eqn:En;
      try discriminate; cbv beta iota zeta; rewrite Hlt; reflexivity. }
  assert (Hfields : forall cfg,
             parseFrameworkEnv rt env = Returns cfg ->
             (MCP_RATE_LIMIT_WINDOW_MS cfg =
                match lookup "MCP_RATE_LIMIT_WINDOW_MS" env with
                | Some s => StringToNumber rt s
                | None => of_Z 900000
                end /\
              isNaN (MCP_RATE_LIMIT_WINDOW_MS cfg) = false /\
              js_lt (MCP_RATE_LIMIT_WINDOW_MS cfg) (of_Z 1000) = false) /\
             (MCP_RATE_LIMIT_MAX cfg =
                match lookup "MCP_RATE_LIMIT_MAX" env with
                | Some s => StringToNumber rt s
                | None => of_Z 1000
                end /\
              isNaN (MCP_RATE_LIMIT_MAX cfg) = false /\
              js_lt (MCP_RATE_LIMIT_MAX cfg) (of_Z 100) = false)).
  { intros cfg H.
    destruct (parseFrameworkEnv_fields rt env cfg H)
      as (_ & _ & _ & _ & _ & Hwindow & Hmax & _).
    apply coerce_min_field in Hwindow; [|reflexivity].
    apply coerce_min_field in Hmax; [|reflexivity].
    split; assumption. }
  split; [|split; [|split; [|split]]].
  - intros cfg H. destruct (Hfields cfg H) as [(? & ? & ?) (? & ? & ?)].
    repeat split; assumption.
  - intros s Hset Hbad.
    destruct (parseFrameworkEnv rt env) as [cfg | issues] eqn:E; [|reflexivity].
    destruct (Hfields cfg eq_refl) as [(Hv & Hnan & Hlt) _].
    rewrite Hset in Hv. rewrite Hv in Hnan, Hlt. destruct Hbad; congruence.
  - intros s Hset Hbad.
    destruct (parseFrameworkEnv rt env) as [cfg | issues] eqn:E; [|reflexivity].
    destruct (Hfields cfg eq_refl) as [_ (Hv & Hnan & Hlt)].
    rewrite Hset in Hv. rewrite Hv in Hnan, Hlt. destruct Hbad; congruence.
  - intros s. apply Haccepted.
  - intros s. apply Haccepted.
Qed.

Lemma port_field p n :
  fst (MCP_PORT_schema rt p (env_get "MCP_PORT" env)) = OK n <->
  n = match lookup "MCP_PORT" env with
      | Some s => parseInt10 rt s
      | None => of_Z 3000
      end /\
  isNaN n = false.
Proof.
  unfold MCP_PORT_schema, env_get, ZodDefault, ZodRefine, ZodString_transform.
  destruct (lookup "MCP_PORT" env) as [s|]; cbn [is_undefined].
  - destruct (parseInt10 rt s) as [| | |q] eqn:En; cbn [isNaN negb fst];
      try (split; [intros H; injection H as <-; auto | intros [-> _]; reflexivity]).
    split; [discriminate | intros [-> H]; discriminate H].
  - simpl. split; [intros H; injection H as <-; auto | intros [-> _]; reflexivity].
Qed.

(** The port is checked to be a number, not to be a port.  When the
    environment parses, [MCP_PORT] is what [parseInt] reads from the
    variable, or 3000 when unset, and is not [NaN]; a decimal numeral of up
    to 15 digits is taken as that number whatever its size; and only a value
    that [parseInt] reads as [NaN] makes [parseFrameworkEnv] throw. *)
Theorem port_variable :
  (forall cfg,
      parseFrameworkEnv rt env = Returns cfg ->
      MCP_PORT cfg =
        match lookup "MCP_PORT" env with
        | Some s => parseInt10 rt s
        | None => of_Z 3000
        end /\
      isNaN (MCP_PORT cfg) = false) /\
  (forall s,
      lookup "MCP_PORT" env = Some s ->
      short_numeral s = true ->
      MCP_PORT_schema rt ["MCP_PORT"] (env_get "MCP_PORT" env) =
        (OK (of_Z (digits_value 0 s)), [])) /\
  (forall s,
      lookup "MCP_PORT" env = Some s ->
      isNaN (parseInt10 rt s) = true ->
      returns (parseFrameworkEnv rt env) = false).
Proof.
  split; [|split].
  - intros cfg H.
    destruct (parseFrameworkEnv_fields rt env cfg H) as (_ & _ & Hport & _).
    apply port_field in Hport. exact Hport.
  - intros s Hset Hshort.
    unfold MCP_PORT_schema, env_get, ZodDefault, ZodRefine, ZodString_transform,
      parseInt10.
    rewrite Hset. cbn [is_undefined]. rewrite Hshort. reflexivity.
  - intros s Hset Hnan.
    destruct (parseFrameworkEnv rt env) as [cfg | issues] eqn:E; [|reflexivity].
    destruct (parseFrameworkEnv_fields rt env cfg E) as (_ & _ & Hport & _).
    apply port_field in Hport as [Hv Hok].
    rewrite Hset in Hv. rewrite Hv in Hok. congruence.
Qed.

End EnvVariables.

Lemma feature_flags_witness :
  let env := [("MCP_LEGACY_SSE_ENABLED", "true"); ("OTEL_ENABLED", "1")] in
  exists cfg,
    parseFrameworkEnv sample_runtime env = Returns cfg /\
    MCP_LEGACY_SSE_ENABLED cfg = true /\
    OTEL_ENABLED cfg = false /\
    OTEL_DEBUG cfg = false.
Proof.
  intros env. eexists. split; [reflexivity|].
  match goal with
  | |- MCP_LEGACY_SSE_ENABLED ?c = _ /\ _ =>
      destruct (feature_flags sample_runtime env c eq_refl) as (H1 & H2 & H3 & _)
  end.
  rewrite H1, H2, H3. repeat split; reflexivity.
Defined.

Lemma enumerated_variables_witness :
  In ("LOG_LEVEL", ["trace"; "debug"; "info"; "warn"; "error"], "info")
     enum_variables /\
  lookup "LOG_LEVEL" [("LOG_LEVEL", "INFO")] = Some "INFO" /\
  ~ In "INFO" ["trace"; "debug"; "info"; "warn"; "error"] /\
  returns (parseFrameworkEnv sample_runtime [("LOG_LEVEL", "INFO")]) = false.
Proof.
  assert (Hin : In ("LOG_LEVEL", ["trace"; "debug"; "info"; "warn"; "error"], "info")
                   enum_variables) by (do 2 right; left; reflexivity).
  assert (Hnot : ~ In "INFO" ["trace"; "debug"; "info"; "warn"; "error"]).
  { simpl. intros H.
    repeat match goal with
           | H : _ \/ _ |- _ => destruct H as [H | H]
           | H : _ = "INFO" |- _ => discriminate H
           end. exact H. }
  split; [exact Hin|]. split; [reflexivity|]. split; [exact Hnot|].
  exact (proj2 (enumerated_variables sample_runtime [("LOG_LEVEL", "INFO")])
           "LOG_LEVEL" _ "info" "INFO" Hin eq_refl Hnot).
Defined.

Lemma rate_limit_variables_witness :
  let rt := sample_runtime_reading (Finite (20000000000001 # 2)) in
  let env := [("MCP_RATE_LIMIT_MAX", "10000000000000.5")] in
  lookup "MCP_RATE_LIMIT_MAX" env = Some "10000000000000.5" /\
  isNaN (StringToNumber rt "10000000000000.5") = false /\
  js_lt (StringToNumber rt "10000000000000.5") (of_Z 100) = false /\
  ZodDefault (ZodCoerceNumber_min rt (of_Z 100)) (JsNum (of_Z 1000))
    ["MCP_RATE_LIMIT_MAX"] (env_get "MCP_RATE_LIMIT_MAX" env) =
    (OK (Finite (20000000000001 # 2)), []) /\
  exists cfg,
    parseFrameworkEnv rt env = Returns cfg /\
    MCP_RATE_LIMIT_MAX cfg = Finite (20000000000001 # 2).
Proof.
  intros rt env.
  split; [reflexivity|]. split; [reflexivity|]. split; [reflexivity|].
  destruct (rate_limit_variables rt env) as (Hcfg & _ & _ & _ & Hmax).
  split; [exact (Hmax "10000000000000.5" eq_refl eq_refl eq_refl)|].
  eexists. split; [reflexivity|].
  match goal with
  | |- MCP_RATE_LIMIT_MAX ?c = _ =>
      destruct (Hcfg c eq_refl) as (_ & _ & _ & Hv & _)
  end.
  exact Hv.
Defined.

Example rate_limit_below_the_bound_rejected :
  returns (parseFrameworkEnv sample_runtime [("MCP_RATE_LIMIT_MAX", "99")]) = false /\
  returns (parseFrameworkEnv sample_runtime [("MCP_RATE_LIMIT_MAX", "100")]) = true /\
  returns (parseFrameworkEnv sample_runtime
             [("MCP_RATE_LIMIT_WINDOW_MS", "999999999999999")]) = true.
Proof. repeat split; reflexivity. Qed.

Lemma port_variable_witness :
  lookup "MCP_PORT" [("MCP_PORT", "99999")] = Some "99999" /\
  short_numeral "99999" = true /\
  MCP_PORT_schema sample_runtime ["MCP_PORT"]
    (env_get "MCP_PORT" [("MCP_PORT", "99999")]) = (OK (of_Z 99999), []).
Proof.
  split; [reflexivity|]. split; [reflexivity|].
  exact (proj1 (proj2 (port_variable sample_runtime [("MCP_PORT", "99999")]))
           "99999" eq_refl eq_refl).
Defined.

(** What [parseFrameworkEnv] reads.  At the time of the call it reads the
    eighteen variables of its schema and nothing else: two environments that
    agree on them parse to the same result, the same configuration or the
    same error, whatever else they hold, [npm_package_version] included.
    Besides, the result carries the version resolved once, when the module
    was loaded: the version of a configuration is the [VERSION] variable if
    set, else the trimmed content of the baked-in file if it could be read,
    else [npm_package_version] as the environment had it at load, else
    ["unknown"]. *)
Theorem environment_read_through_its_variables :
  forall (rt : JsRuntime) (env1 env2 : ProcessEnv),
    (forall name, In name env_variables -> lookup name env1 = lookup name env2) ->
    parseFrameworkEnv rt env1 = parseFrameworkEnv rt env2 /\
    (forall cfg,
        parseFrameworkEnv rt env1 = Returns cfg ->
        cfg_VERSION cfg =
          or_default (lookup "VERSION" env1)
            match VERSION_file rt with
            | Some content => trim rt content
            | None =>
                or_default (lookup "npm_package_version" (env_at_load rt)) "unknown"
            end).
Proof.
  intros rt env1 env2 Hsame.
  assert (Hget : forall name, In name env_variables ->
                              env_get name env1 = env_get name env2).
  { intros name Hin. unfold env_get. rewrite (Hsame name Hin). reflexivity. }
  split.
  - unfold parseFrameworkEnv, frameworkEnvSchema.
    repeat match goal with
           | |- context [env_get ?n env1] =>
               rewrite (Hget n) by (cbv [env_variables In]; tauto)
           end.
    reflexivity.
  - intros cfg H. rewrite (parseFrameworkEnv_version rt env1 cfg H).
    reflexivity.
Qed.

Lemma environment_read_through_its_variables_witness :
  let rt := sample_runtime_reading NaN in
  let env1 := [("npm_package_version", "9.9.9"); ("MCP_PORT", "8080")] in
  let env2 := [("MCP_PORT", "8080"); ("HOME", "/root")] in
  (forall name, In name env_variables -> lookup name env1 = lookup name env2) /\
  parseFrameworkEnv rt env1 = parseFrameworkEnv rt env2 /\
  exists cfg,
    parseFrameworkEnv rt env1 = Returns cfg /\ cfg_VERSION cfg = "1.2.3".
Proof.
  intros rt env1 env2.
  assert (H : forall name, In name env_variables ->
                           lookup name env1 = lookup name env2).
  { intros name Hin. cbv [env_variables In] in Hin.
    repeat match goal with
           | H : _ \/ _ |- _ => destruct H as [H | H]
           | H : False |- _ => destruct H
           | H : _ = name |- _ => subst name
           end; reflexivity. }
  destruct (environment_read_through_its_variables rt env1 env2 H)
    as [Hsame Hversion].
  split; [exact H|]. split; [exact Hsame|].
  eexists. split; [reflexivity|].
  match goal with
  | |- cfg_VERSION ?c = _ => exact (Hversion c eq_refl)
  end.
Defined.

(* ====================================================================== *)
(** * Further properties: what a failed environment parse reports *)
(* ====================================================================== *)

Section EnvConsistency.

Variable rt : JsRuntime.

Lemma consistent_settle {A : Type} p (x : A) issues :
  all_at p issues -> consistent (eq p) (settle x issues).
Proof.
  intros Hat. unfold all_at in Hat. destruct issues as [|i issues]; simpl.
  - split; [split; reflexivity | constructor].
  - split; [split; discriminate|].
    rewrite Forall_forall in *. intros j Hj. symmetry. auto.
Qed.

Lemma consistent_invalid {A : Type} p c m :
  consistent (eq p) (@INVALID A, [mkIssue c p m]).
Proof. split; [split; discriminate | repeat constructor]. Qed.

Lemma consistent_ZodString p v : consistent (eq p) (ZodString p v).
Proof.
  destruct v; try apply consistent_invalid. split; [split; reflexivity | constructor].
Qed.

Lemma consistent_ZodString_transform {B : Type} (f : string -> B) p v :
  consistent (eq p) (ZodString_transform f p v).
Proof.
  destruct v; try apply consistent_invalid. split; [split; reflexivity | constructor].
Qed.

Lemma consistent_ZodString_url p v : consistent (eq p) (ZodString_url rt p v).
Proof.
  destruct v; try apply consistent_invalid. simpl.
  apply consistent_settle. destruct (is_url rt s); repeat constructor.
Qed.

Lemma consistent_ZodEnum values p v : consistent (eq p) (ZodEnum values p v).
Proof.
  destruct v; try apply consistent_invalid. simpl.
  destruct (mem_string s values); [|apply consistent_invalid].
  split; [split; reflexivity | constructor].
Qed.

Lemma consistent_flag p v : consistent (eq p) (ZodBoolean_or_flag_string rt p v).
Proof.
  destruct v; try apply consistent_invalid;
    (split; [split; reflexivity | constructor]).
Qed.

Lemma consistent_coerce lo p v : consistent (eq p) (ZodCoerceNumber_min rt lo p v).
Proof.
  unfold ZodCoerceNumber_min.
  destruct (ToNumber rt v) as [| | |q]; cbv beta iota zeta;
    try apply consistent_invalid;
    apply consistent_settle;
    match goal with |- all_at _ (if ?c then _ else _) => destruct c end;
    repeat constructor.
Qed.

Lemma consistent_ZodOptional {A : Type} P (inner : Schema A) p v :
  consistent P (inner p v) -> consistent P (ZodOptional inner p v).
Proof.
  unfold ZodOptional. destruct (is_undefined v).
  - intros _. split; [split; reflexivity | constructor].
  - destruct (inner p v) as [[x|x|] issues]; intros [Hok Hall];
      (split; [exact Hok | exact Hall]).
Qed.

Lemma consistent_refine_root {A : Type} (inner : Schema A) check msg p v :
  consistent (eq p) (inner p v) ->
  consistent (eq p) (ZodRefine inner check msg [] p v).
Proof. intros H. apply consistent_refine; [symmetry; apply app_nil_r | exact H]. Qed.

Lemma variable_path (name : string) :
  In name env_variables -> forall p, [name] = p -> env_path p.
Proof. intros Hin p <-. exists name. auto. Qed.

Lemma frameworkEnvSchema_consistent env :
  consistent env_path (frameworkEnvSchema rt env).
Proof.
  unfold frameworkEnvSchema.
  repeat apply consistent_merge; try apply consistent_start.
  all: match goal with
       | |- consistent env_path (_ [?name] _) =>
           apply (consistent_weaken (eq [name]))
       end.
  all: try (apply variable_path; cbv [env_variables In];
            repeat (first [left; reflexivity | right])).
  all: unfold MCP_PORT_schema, MCP_SESSION_TIMEOUT_MS_schema, ZodDefault.
  all: repeat match goal with
         | |- consistent _ (ZodOptional _ _ _) => apply consistent_ZodOptional
         | |- consistent _ (ZodRefine _ _ _ [] _ _) => apply consistent_refine_root
         | |- consistent _ (ZodString _ _) => apply consistent_ZodString
         | |- consistent _ (ZodString_transform _ _ _) =>
             apply consistent_ZodString_transform
         | |- consistent _ (ZodString_url _ _ _) => apply consistent_ZodString_url
         | |- consistent _ (ZodEnum _ _ _) => apply consistent_ZodEnum
         | |- consistent _ (ZodBoolean_or_flag_string _ _ _) => apply consistent_flag
         | |- consistent _ (ZodCoerceNumber_min _ _ _ _) => apply consistent_coerce
         end.
Qed.

Lemma parseFrameworkEnv_throws_inv env issues :
  parseFrameworkEnv rt env = ThrowsZodError issues ->
  is_OK (fst (frameworkEnvSchema rt env)) = false /\
  snd (frameworkEnvSchema rt env) = issues.
Proof.
  unfold parseFrameworkEnv. generalize (frameworkEnvSchema rt env).
  intros [[x|x|] found]; simpl; intros H; try discriminate;
    injection H as <-; auto.
Qed.

(** A rejected environment always says which variables are at fault.  When
    [parseFrameworkEnv] throws, the error carries at least one issue, and
    the path of every issue is the name of one variable of the schema. *)
Theorem environment_error_names_variables :
  forall (env : ProcessEnv) (issues : list ZodIssue),
    parseFrameworkEnv rt env = ThrowsZodError issues ->
    issues <> [] /\
    forall i, In i issues ->
      exists name, In name env_variables /\ issue_path i = [name].
Proof.
  intros env issues H.
  apply parseFrameworkEnv_throws_inv in H as [Hnot <-].
  destruct (frameworkEnvSchema_consistent env) as [Hok Hall].
  split.
  - intros Hnil. apply Hok in Hnil. congruence.
  - rewrite Forall_forall in Hall. exact Hall.
Qed.

End EnvConsistency.

Lemma environment_error_names_variables_witness :
  let env := [("MCP_PORT", "http"); ("NODE_ENV", "staging")] in
  let issues := [mkIssue invalid_enum_value ["NODE_ENV"] ErrorMapDefault;
                 mkIssue custom ["MCP_PORT"] (Supplied "Port must be a valid number")] in
  parseFrameworkEnv sample_runtime env = ThrowsZodError issues /\
  issues <> [].
Proof.
  intros env issues. split; [reflexivity|].
  exact (proj1 (environment_error_names_variables sample_runtime env issues eq_refl)).
Defined.

(* ====================================================================== *)
(** * Further properties: the address the server listens on *)
(* ====================================================================== *)

Section ListenFacts.

Variable rt : JsRuntime.
Variable SessionManager : Type.
Variable new_TransportSessionManager : JsValue -> Thrown SessionManager.

Lemma host_field env p v :
  fst (ZodDefault ZodString (JsString "127.0.0.1") p (env_get "MCP_BIND_HOST" env)) =
    OK v <->
  v = or_default (lookup "MCP_BIND_HOST" env) "127.0.0.1".
Proof.
  unfold env_get. destruct (lookup "MCP_BIND_HOST" env); simpl;
    (split; [intros H; injection H as <-; reflexivity | intros ->; reflexivity]).
Qed.

Lemma startHttpServer_listen env options srv :
  startHttpServer rt new_TransportSessionManager env options = Returns srv ->
  exists cfg,
    parseFrameworkEnv rt env = Returns cfg /\
    app srv = app_stack /\
    listen_port srv = or_default (port options) (MCP_PORT cfg) /\
    listen_host srv = or_default (bindHost options) (MCP_BIND_HOST cfg).
Proof.
  unfold startHttpServer, createExpressApp.
  destruct (parseFrameworkEnv rt env) as [cfg | issues]; [|discriminate].
  destruct (new_TransportSessionManager _) as [manager | issues]; [|discriminate].
  intros H. injection H as <-. exists cfg.
  destruct options as [[n|] [s|]]; repeat split; reflexivity.
Qed.

(** Where the server listens.  When [startHttpServer] returns, the port is
    the [port] option if given, else what [parseInt] reads from [MCP_PORT],
    else 3000; the host is the [bindHost] option if given, else
    [MCP_BIND_HOST], else 127.0.0.1; and the application is the one
    [createExpressApp] builds. *)
Theorem listen_address_precedence :
  forall (env : ProcessEnv) (options : HttpServerOptions)
         (srv : StartedServer SessionManager),
    startHttpServer rt new_TransportSessionManager env options = Returns srv ->
    listen_port srv =
      or_default (port options)
        match lookup "MCP_PORT" env with
        | Some s => parseInt10 rt s
        | None => of_Z 3000
        end /\
    listen_host srv =
      or_default (bindHost options)
        (or_default (lookup "MCP_BIND_HOST" env) "127.0.0.1") /\
    app srv = app_stack.
Proof.
  intros env options srv H.
  apply startHttpServer_listen in H as (cfg & Hparse & Happ & Hport & Hhost).
  destruct (parseFrameworkEnv_fields rt env cfg Hparse) as (_ & Hh & Hp & _).
  apply port_field in Hp as [Hp _]. apply host_field in Hh.
  rewrite Hport, Hhost, Hp, Hh. auto.
Qed.

(** The options do not rescue an environment that does not parse.  A value
    of [MCP_PORT] that [parseInt] reads as [NaN] makes [startHttpServer]
    throw whatever the options are, a [port] option included, and the
    session manager is not constructed. *)
Theorem unparsable_port_aborts_despite_options :
  forall (env : ProcessEnv) (options : HttpServerOptions) (s : string),
    lookup "MCP_PORT" env = Some s ->
    isNaN (parseInt10 rt s) = true ->
    returns (startHttpServer rt new_TransportSessionManager env options) = false /\
    exists issues,
      createExpressApp rt new_TransportSessionManager env = ThrowsZodError issues /\
      parseFrameworkEnv rt env = ThrowsZodError issues.
Proof.
  intros env options s Hset Hnan.
  destruct (parseFrameworkEnv rt env) as [cfg | issues] eqn:E.
  - exfalso.
    destruct (parseFrameworkEnv_fields rt env cfg E) as (_ & _ & Hp & _).
    apply port_field in Hp as [Hv Hok]. rewrite Hset in Hv. congruence.
  - split.
    + unfold startHttpServer, createExpressApp. rewrite E. reflexivity.
    + exists issues. unfold createExpressApp. rewrite E. split; reflexivity.
Qed.

End ListenFacts.

Lemma listen_address_precedence_witness :
  let env := [("MCP_PORT", "8080"); ("MCP_BIND_HOST", "0.0.0.0")] in
  let options := {| port := None; bindHost := Some "localhost" |} in
  exists srv,
    startHttpServer sample_runtime (TransportSessionManager sample_defaults)
      env options = Returns srv /\
    listen_port srv = of_Z 8080 /\
    listen_host srv = "localhost".
Proof.
  intros env options. eexists. split; [reflexivity|].
  match goal with
  | |- listen_port ?srv = _ /\ _ =>
      destruct (listen_address_precedence sample_runtime SessionConfig
                  (TransportSessionManager sample_defaults) env options srv eq_refl)
        as (Hp & Hh & _)
  end.
  rewrite Hp, Hh. split; reflexivity.
Defined.

Lemma unparsable_port_aborts_despite_options_witness :
  let env := [("MCP_PORT", "http")] in
  let options := {| port := Some (of_Z 8080); bindHost := None |} in
  lookup "MCP_PORT" env = Some "http" /\
  isNaN (parseInt10 sample_runtime "http") = true /\
  returns (startHttpServer sample_runtime (TransportSessionManager sample_defaults)
             env options) = false.
Proof.
  intros env options. split; [reflexivity|]. split; [reflexivity|].
  exact (proj1 (unparsable_port_aborts_despite_options sample_runtime SessionConfig
                  (TransportSessionManager sample_defaults) env options "http"
                  eq_refl eq_refl)).
Defined.

(* ====================================================================== *)
(** * Further properties: which layers a request goes through *)
(* ====================================================================== *)

Section RoutingFacts.

Variables Registry Other : Type.
Variable under : string -> Request -> bool.
Variable h : Handlers Registry Other.
Variable sseEnabled : bool.

Ltac next_layer req :=
  match goal with
  | |- context [run Registry Other h sseEnabled ?m req ?w] =>
      let E := fresh "E" in
      destruct (run Registry Other h sseEnabled m req w) as [[|?|] ?] eqn:E;
      cbn [dispatch layer_matches mount use use_at handle fst snd]
  end.

Ltac members :=
  repeat match goal with
         | H : In _ (_ :: _) |- _ => destruct H as [H | H]
         | H : In _ [] |- _ => destruct H
         | H : False |- _ => destruct H
         | H : (_, _) = (_, _) |- _ => inversion H; clear H; subst
         end.

(** The layers that handle a request are an initial segment of the
    application's order: helmet, the JSON body parser, the health router
    and the legacy router, then, for a request under [/mcp] only, the six
    filters and the Streamable router.  Every layer but the last one that
    ran has called [next]. *)
Theorem layers_run_in_mount_order :
  forall (req : Request) (w : Registry * Other),
    let r := app_handle Registry Other under h sseEnabled req w in
    layers_run r =
      firstn (List.length (snd r))
        (entry_layers ++
         (if under "/mcp" req then filter_chain ++ [StreamableHttpRouter] else [])) /\
    (1 <= List.length (snd r))%nat /\
    (forall m o, In (m, o) (removelast (snd r)) -> o = Next).
Proof.
  intros req w r. subst r. unfold layers_run, app_handle, app_stack.
  cbn [dispatch layer_matches mount use use_at handle].
  destruct (under "/mcp" req);
    repeat next_layer req;
    (split; [reflexivity|]; split; [cbn [snd List.length]; lia|];
     intros m o Hin; cbn [snd removelast] in Hin; members; reflexivity).
Qed.

(** The filters and the Streamable router run only behind the four entry
    layers.  If a filter or the Streamable router handled a request, the
    request was under [/mcp], and helmet, the body parser, the health router
    and the legacy router had each passed it on; a request that the health
    router or the legacy router answers itself is never rate limited or
    filtered. *)
Theorem filters_run_only_behind_entry_layers :
  forall (req : Request) (w : Registry * Other) (f : Middleware),
    let r := app_handle Registry Other under h sseEnabled req w in
    In f (filter_chain ++ [StreamableHttpRouter]) ->
    In f (layers_run r) ->
    under "/mcp" req = true /\
    forall m, In m entry_layers -> In (m, Next) (snd r).
Proof.
  intros req w f r Hf Hran. subst r. revert Hran.
  unfold layers_run, app_handle, app_stack.
  cbn [dispatch layer_matches mount use use_at handle].
  unfold filter_chain in Hf. cbn [List.app] in Hf.
  destruct (under "/mcp" req);
    repeat next_layer req;
    cbn [snd map fst];
    intros Hran;
    try (exfalso; members; congruence);
    (split; [reflexivity|]);
    intros m Hm; unfold entry_layers in Hm; members; subst; cbn [In];
    repeat (first [left; reflexivity | right]).
Qed.

(** A request outside [/mcp] that no entry layer answers gets the 404 of
    the final handler, and the session registry is as the health router
    left it. *)
Theorem outside_mcp_falls_through :
  forall (req : Request) (w : Registry * Other),
    let r := app_handle Registry Other under h sseEnabled req w in
    under "/mcp" req = false ->
    (forall m, In m entry_layers -> In (m, Next) (snd r)) ->
    fst (fst r) = Replied NOT_FOUND /\
    layers_run r = entry_layers /\
    exists o1 o2 w3,
      unmanaged h helmet req (snd w) = (Next, o1) /\
      unmanaged h express_json req o1 = (Next, o2) /\
      managed h HealthRouter req (fst w, o2) = (Next, w3) /\
      fst (snd (fst r)) = fst w3.
Proof.
  intros req w r Hout Hnext. subst r. revert Hnext.
  unfold layers_run, app_handle, app_stack.
  cbn [dispatch layer_matches mount use use_at handle].
  rewrite Hout.
  unfold run. cbn [receives_sessionManager].
  destruct (unmanaged h helmet req (snd w)) as [[|s1|] o1] eqn:E1;
    cbn [fst snd];
    try (intros Hn; specialize (Hn helmet (or_introl eq_refl));
         cbn [snd] in Hn; members; discriminate).
  destruct (unmanaged h express_json req o1) as [[|s2|] o2] eqn:E2;
    cbn [fst snd];
    try (intros Hn; specialize (Hn express_json (or_intror (or_introl eq_refl)));
         cbn [snd] in Hn; members; discriminate).
  destruct w as [reg o0]. cbn [fst snd] in *.
  destruct (managed h HealthRouter req (reg, o2)) as [[|s3|] w3] eqn:E3;
    cbn [fst snd];
    try (intros Hn;
         specialize (Hn HealthRouter (or_intror (or_intror (or_introl eq_refl))));
         cbn [snd] in Hn; members; discriminate).
  destruct (createSseRouter Registry Other h sseEnabled req (snd w3))
    as [[|s4|] o4] eqn:E4; cbn [fst snd];
    try (intros Hn;
         specialize (Hn SseRouter
                       (or_intror (or_intror (or_intror (or_introl eq_refl)))));
         cbn [snd] in Hn; members; discriminate).
  intros _. split; [reflexivity|]. split; [reflexivity|].
  exists o1, o2, w3. repeat split; first [assumption | reflexivity].
Qed.

End RoutingFacts.

Lemma filters_run_only_behind_entry_layers_witness :
  let h0 : Handlers unit unit :=
    Build_Handlers
      (fun m _ o => (match m with validateJsonRpc => Respond 400 | _ => Next end, o))
      (fun _ _ w => (Next, w)) in
  let req := {| req_method := "POST"; req_path := "/mcp";
                req_headers := []; req_body := JsNull |} in
  let r := app_handle unit unit (fun _ _ => true) h0 false req (tt, tt) in
  In validateJsonRpc (filter_chain ++ [StreamableHttpRouter]) /\
  In validateJsonRpc (layers_run r) /\
  In (SseRouter, Next) (snd r).
Proof.
  intros h0 req r.
  assert (Hf : In validateJsonRpc (filter_chain ++ [StreamableHttpRouter]))
    by (do 5 right; left; reflexivity).
  assert (Hran : In validateJsonRpc (layers_run r))
    by (do 9 right; left; reflexivity).
  split; [exact Hf|]. split; [exact Hran|].
  exact (proj2 (filters_run_only_behind_entry_layers unit unit (fun _ _ => true)
                  h0 false req (tt, tt) validateJsonRpc Hf Hran)
           SseRouter (or_intror (or_intror (or_intror (or_introl eq_refl))))).
Defined.

Lemma outside_mcp_falls_through_witness :
  let h0 : Handlers unit unit :=
    Build_Handlers (fun _ _ o => (Next, o)) (fun _ _ w => (Next, w)) in
  let req := {| req_method := "GET"; req_path := "/favicon.ico";
                req_headers := []; req_body := JsUndefined |} in
  let r := app_handle unit unit (fun _ _ => false) h0 true req (tt, tt) in
  (forall m, In m entry_layers -> In (m, Next) (snd r)) /\
  fst (fst r) = Replied 404.
Proof.
  intros h0 req r.
  assert (Hnext : forall m, In m entry_layers -> In (m, Next) (snd r)).
  { intros m Hm. unfold entry_layers in Hm.
    repeat (destruct Hm as [Hm | Hm];
            [subst m; cbn; repeat (first [left; reflexivity | right])|]).
    destruct Hm. }
  split; [exact Hnext|].
  exact (proj1 (outside_mcp_falls_through unit unit (fun _ _ => false) h0 true
                  req (tt, tt) eq_refl Hnext)).
Defined.

(* ====================================================================== *)
(** * Further properties: a shutdown that does not complete *)
(* ====================================================================== *)

Ltac no_member H :=
  cbn [In] in H;
  repeat (destruct H as [H | H]; [discriminate H|]);
  exact H.

Ltac is_member :=
  cbn [In]; solve [repeat (first [left; reflexivity | right])].

Ltac use_premises :=
  repeat match goal with
         | H : _ /\ _ |- _ => destruct H
         | H : ?a = ?a -> _ |- _ => specialize (H eq_refl)
         end.

(** [shutdown] has no [try]/[catch]: it stops at the first awaited call that
    does not complete.  It calls [server.close] exactly when
    [sessionManager.closeAll()] was fulfilled and, with legacy mode enabled,
    [closeAllSseSessions()] was fulfilled as well; it calls
    [process.exit(0)] exactly when, besides, the listener finished closing;
    it calls [closeAllSseSessions()] exactly when legacy mode is enabled and
    [sessionManager.closeAll()] was fulfilled.  After a rejected call the
    handler calls neither [server.close] nor [process.exit], with any code.
    What the runtime does with the rejected promise of the handler is not
    among the events. *)
Theorem shutdown_stops_at_first_failure :
  forall (sseEnabled : bool) (s : Surroundings) (sig : Signal),
    let t := run_async s (on_signal sseEnabled sig) in
    let drained :=
      settles s sessionManager_closeAll = Fulfilled /\
      (sseEnabled = true -> settles s closeAllSseSessions = Fulfilled) in
    (In ListenerCloseRequested t <-> drained) /\
    (In (Exited 0) t <-> drained /\ listener_closes s = true) /\
    (In (Called closeAllSseSessions) t <->
     sseEnabled = true /\ settles s sessionManager_closeAll = Fulfilled) /\
    (forall p, In (Failed p) t ->
               ~ In ListenerCloseRequested t /\ forall c, ~ In (Exited c) t).
Proof.
  intros sseEnabled [settles0 closes] sig t drained. subst t drained.
  unfold run_async.
  assert (Hsig : on_signal sseEnabled sig = shutdown sseEnabled)
    by (destruct sig; reflexivity).
  rewrite Hsig. unfold shutdown.
  cbn [events settles listener_closes].
  unfold when.
  destruct (settles0 sessionManager_closeAll) eqn:E1;
    destruct sseEnabled; cbn [events settles listener_closes];
    try destruct (settles0 closeAllSseSessions) eqn:E2;
    destruct closes; cbn [events List.app until_exit is_exit];
    (split; [|split; [|split]]);
    try (split; intros H;
         [ first [ solve [repeat split; intros; first [reflexivity | congruence]]
                 | exfalso; no_member H ]
         | first [ is_member
                 | exfalso; use_premises; congruence ] ]);
    intros p Hp; (split; [|intros c]); intros H;
    first [no_member H | no_member Hp].
Qed.
